(** * linkbay-ai: a shallow embedding of the orchestration core

    The development follows the Python sources module by module:
    - [Py]            the fragment of the Python runtime the code relies on
                      (exceptions, truthiness, slices, stable sort, [in] on
                      strings, floats);
    - [Schemas]       [schemas.py];
    - [Conversation]  [conversation.py];
    - [SemanticCache] [semantic_cache.py];
    - [Core]          [core.py];
    - [Fixtures]      stand-ins for the external collaborators and the
                      concrete states the examples run on;
    - [Scenarios]     further stand-ins and states: a capped budget
                      governor, failing streams, a local provider.
    The modules [PyFacts], [ConversationFacts], [SemanticCacheFacts] and
    [CoreFacts] of the second part hold the properties.

    Integers are [Z] (Python [int] is unbounded), strings are [string],
    dictionaries keyed by strings are [gmap string _], and Python floats
    are the IEEE 754 binary64 numbers of [PrimFloat].  Exceptions are values of [Py.Exception]; a
    method that mutates [self] returns the new object next to its outcome,
    so the mutations made before an exception is raised stay visible. *)

From Stdlib Require Import ZArith Lia String Ascii List Permutation Sorted Floats.
From stdpp Require Import gmap strings list fin_maps.

Open Scope Z_scope.

(* ===================================================================== *)
(** * Part I: the embedding                                               *)
(* ===================================================================== *)

Module Py.

(** Exceptions raised by the modelled code or by its collaborators. *)
Inductive Exception : Type :=
| IndexError
| KeyError (key : string)
| ValueError (msg : string)
| TypeError (msg : string)
| AllProvidersFailedException (msg : string)
| BudgetExceededException (msg : string)
| BackendError (msg : string).

Inductive result (A : Type) : Type :=
| Ok (a : A)
| Raise (e : Exception).
Arguments Ok {A} a.
Arguments Raise {A} e.

(** Truthiness of an [Optional[int]]: [None] and [0] are falsy. *)
Definition truthy_int (x : option Z) : bool :=
  match x with
  | Some n => negb (n =? 0)
  | None => false
  end.

(** Truthiness of an [Optional[str]]: [None] and the empty string are
    falsy. *)
Definition truthy_str (x : option string) : bool :=
  match x with
  | Some EmptyString => false
  | Some (String _ _) => true
  | None => false
  end.

(** Truthiness of an [Optional[List]]: [None] and [[]] are falsy. *)
Definition truthy_list {A : Type} (x : option (list A)) : bool :=
  match x with
  | Some (_ :: _) => true
  | _ => false
  end.

Definition len {A : Type} (l : list A) : Z := Z.of_nat (length l).

(** A slice bound is first shifted by the length when negative, then
    clamped to the range of the list. *)
Definition slice_index {A : Type} (l : list A) (i : Z) : nat :=
  Z.to_nat (Z.min (len l) (Z.max 0 (if i <? 0 then len l + i else i))).

(** [l[start:]] *)
Definition slice_from {A : Type} (start : Z) (l : list A) : list A :=
  drop (slice_index l start) l.

(** [l[:stop]] *)
Definition slice_to {A : Type} (stop : Z) (l : list A) : list A :=
  take (slice_index l stop) l.

(** [list.sort(key=...)] is stable: elements with equal keys keep their
    relative order.  [insert_by] puts [x], which precedes every element
    of [l] in the original list, before the first element whose key is
    not smaller. *)
Fixpoint insert_by {A : Type} (key : A -> Z) (x : A) (l : list A) : list A :=
  match l with
  | [] => [x]
  | y :: l' => if key x <=? key y then x :: y :: l' else y :: insert_by key x l'
  end.

Fixpoint sort_by {A : Type} (key : A -> Z) (l : list A) : list A :=
  match l with
  | [] => []
  | x :: l' => insert_by key x (sort_by key l')
  end.

(** [list.sort(key=..., reverse=True)] orders by decreasing key and is
    still stable, which is the stable increasing sort on the negated
    key. *)
Definition sort_by_reverse {A : Type} (key : A -> Z) (l : list A) : list A :=
  sort_by (fun x => - key x) l.

(** The order a sort by [key] establishes. *)
Definition key_le {A : Type} (key : A -> Z) (x y : A) : Prop := key x <= key y.

(** [k in s] on strings: [k] occurs in [s] as a contiguous substring. *)
Fixpoint startswith (k s : string) : bool :=
  match k, s with
  | EmptyString, _ => true
  | String a k', String b s' => if Ascii.eqb a b then startswith k' s' else false
  | String _ _, EmptyString => false
  end.

Fixpoint contains (k s : string) : bool :=
  startswith k s ||
  match s with
  | EmptyString => false
  | String _ s' => contains k s'
  end.

(** [any(p(x) for x in l)] *)
Definition any {A : Type} (p : A -> bool) (l : list A) : bool := existsb p l.

(** Floats.  A Python [float] and a numpy [float64] are IEEE 754
    binary64 numbers: the primitive [float], whose operations round to
    the nearest number, ties to even, and know the infinities and [nan]. *)

(** [x / y] on numpy float64 scalars: a division by zero gives an
    infinity or [nan] (and a warning), not an exception. *)
Definition np_div (x y : float) : float := (x / y)%float.

(** [a > b] and [a >= b]; every comparison with [nan] is false. *)
Definition float_gt (a b : float) : bool := (b <? a)%float.

Definition float_ge (a b : float) : bool := (b <=? a)%float.

(** [a / b] on two integers, the true division: the exact quotient
    rounded once.  Python raises [ZeroDivisionError] when [b] is zero and
    [OverflowError] when the quotient is beyond the floats; the division
    is used with a divisor that is not zero. *)
Definition int_to_spec (n : Z) : spec_float :=
  match n with
  | Z0 => S754_zero false
  | Zpos m => S754_finite false m 0
  | Zneg m => S754_finite true m 0
  end.

Definition int_truediv (a b : Z) : float :=
  SF2Prim (SFdiv prec emax (int_to_spec a) (int_to_spec b)).

(** The floats that are a zero or [nan], told by their specification:
    what a product with a zero can be. *)
Inductive zero_or_nan : spec_float -> Prop :=
| zero_or_nan_zero (s : bool) : zero_or_nan (S754_zero s)
| zero_or_nan_nan : zero_or_nan S754_nan.

End Py.
Import Py.

Module Schemas.

Inductive Role : Type := user | assistant | system.

(** [class Message(BaseModel)]; the timestamp is the clock reading taken
    when the message is built. *)
Record Message : Type := {
  role : Role;
  content : string;
  timestamp : Z;
  tokens : option Z
}.

Record ConversationConfig : Type := {
  max_messages : Z;
  context_window : Z;
  summarize_old_messages : bool
}.

Definition ConversationConfig_default : ConversationConfig :=
  {| max_messages := 10; context_window := 4096; summarize_old_messages := true |}.

(** [class CacheEntry(BaseModel)] *)
Record CacheEntry : Type := {
  query : string;
  embedding : list float;
  response : string;
  entry_timestamp : Z;
  hits : Z
}.

(** A tool invocation carried by a response: its name and its serialized
    arguments. *)
Record ToolCall : Type := {
  tool_name : string;
  arguments : string
}.

(** [class GenerationParams(BaseModel)]; [tools] holds the serialized
    tool definitions. *)
Record GenerationParams : Type := {
  model : string;
  max_tokens : Z;
  stream : bool;
  temperature : float;
  tools : option (list string)
}.

Definition GenerationParams_of_model (m : string) : GenerationParams :=
  {| model := m; max_tokens := 1000; stream := false;
     temperature := 0x1.6666666666666p-1%float; tools := None |}.

(** [class AIResponse(BaseModel)] *)
Record AIResponse : Type := {
  response_content : string;
  response_model : string;
  provider : string;
  tokens_used : Z;
  cached : bool;
  tool_calls : option (list ToolCall)
}.

End Schemas.
Import Schemas.

Module Conversation.

Record ConversationContext : Type := {
  config : ConversationConfig;
  history : list Message;
  total_tokens : Z
}.

(** [__init__] *)
Definition init (cfg : option ConversationConfig) : ConversationContext :=
  {| config := default ConversationConfig_default cfg;
     history := [];
     total_tokens := 0 |}.

(** The [while] loop of [_manage_context_window]: as long as the history
    is longer than [max_messages], [pop(0)] removes the oldest message and
    its known tokens are subtracted.  [pop(0)] on an empty list raises
    [IndexError], which happens only for a negative [max_messages]; the
    messages removed before that stay removed. *)
Fixpoint evict (max_msgs : Z) (h : list Message) (total : Z)
  : result unit * (list Message * Z) :=
  if len h >? max_msgs then
    match h with
    | [] => (Raise IndexError, ([], total))
    | removed :: h' =>
        evict max_msgs h'
          (if truthy_int (tokens removed)
           then total - default 0 (tokens removed) else total)
    end
  else (Ok tt, (h, total)).

(** [_manage_context_window]; its second statement only logs an advisory
    message and changes nothing. *)
Definition _manage_context_window (c : ConversationContext)
  : result unit * ConversationContext :=
  let '(r, (h, t)) := evict (max_messages (config c)) (history c) (total_tokens c) in
  (r, {| config := config c; history := h; total_tokens := t |}).

(** [add_message(role, content, tokens=None)] at clock reading [now]. *)
Definition add_message (r : Role) (text : string) (tok : option Z) (now : Z)
    (c : ConversationContext) : result unit * ConversationContext :=
  let message := {| role := r; content := text; timestamp := now; tokens := tok |} in
  let c1 := {| config := config c;
               history := history c ++ [message];
               total_tokens := if truthy_int tok
                               then total_tokens c + default 0 tok
                               else total_tokens c |} in
  _manage_context_window c1.

(** [get_messages(last_n=None)]: [history[-last_n:]] when [last_n] is
    truthy, the history itself otherwise. *)
Definition get_messages (last_n : option Z) (c : ConversationContext) : list Message :=
  if truthy_int last_n
  then slice_from (- default 0 last_n) (history c)
  else history c.

(** [clear()] *)
Definition clear (c : ConversationContext) : ConversationContext :=
  {| config := config c; history := []; total_tokens := 0 |}.

(** [add_system_prompt(prompt)]: [history.insert(0, system_msg)]. *)
Definition add_system_prompt (prompt : string) (now : Z) (c : ConversationContext)
  : ConversationContext :=
  let system_msg := {| role := system; content := prompt; timestamp := now; tokens := None |} in
  {| config := config c;
     history := system_msg :: history c;
     total_tokens := total_tokens c |}.

(** ** Notions used to state the properties of the window *)

(** One call of [add_message]: its arguments and the clock reading. *)
Record Append : Type := {
  append_role : Role;
  append_content : string;
  append_tokens : option Z;
  append_now : Z
}.

(** A sequence of [add_message] calls; an exception ends the run. *)
Fixpoint add_messages (calls : list Append) (c : ConversationContext)
  : result unit * ConversationContext :=
  match calls with
  | [] => (Ok tt, c)
  | a :: calls' =>
      match add_message (append_role a) (append_content a) (append_tokens a)
              (append_now a) c with
      | (Ok _, c') => add_messages calls' c'
      | (Raise e, c') => (Raise e, c')
      end
  end.

(** The sum of the token counts that are known. *)
Definition known_tokens (h : list Message) : Z :=
  fold_right (fun m acc => default 0 (tokens m) + acc) 0 h.

(** The accounting invariant of the window. *)
Definition accounted (c : ConversationContext) : Prop :=
  total_tokens c = known_tokens (history c).

(** The last [n] messages of a history (all of them when there are fewer
    than [n]). *)
Definition last_messages (n : nat) (h : list Message) : list Message :=
  drop (length h - n) h.

(** ** The read-only views and the mutations as a whole *)

(** [get_context_for_api()]: the [{"role", "content"}] pairs of the
    history, in order. *)
Definition get_context_for_api (c : ConversationContext) : list (Role * string) :=
  map (fun msg => (role msg, content msg)) (history c).

Definition Role_eqb (a b : Role) : bool :=
  match a, b with
  | user, user | assistant, assistant | system, system => true
  | _, _ => false
  end.

(** [sum(1 for m in self.history if m.role == r)] *)
Definition count_role (r : Role) (h : list Message) : Z :=
  fold_right (fun m acc => (if Role_eqb (role m) r then 1 else 0) + acc) 0 h.

(** The dictionary [get_stats()] returns, one field per key. *)
Record ConversationStats : Type := {
  stats_total_messages : Z;
  stats_user_messages : Z;
  stats_assistant_messages : Z;
  stats_system_messages : Z;
  stats_total_tokens : Z;
  stats_max_messages : Z;
  stats_context_window : Z
}.

(** [get_stats()] *)
Definition get_stats (c : ConversationContext) : ConversationStats :=
  {| stats_total_messages := len (history c);
     stats_user_messages := count_role user (history c);
     stats_assistant_messages := count_role assistant (history c);
     stats_system_messages := count_role system (history c);
     stats_total_tokens := total_tokens c;
     stats_max_messages := max_messages (config c);
     stats_context_window := context_window (config c) |}.

(** A call of one of the three mutating methods. *)
Inductive Mutation : Type :=
| CallAddMessage (a : Append)
| CallAddSystemPrompt (prompt : string) (now : Z)
| CallClear.

Definition mutate (m : Mutation) (c : ConversationContext)
  : result unit * ConversationContext :=
  match m with
  | CallAddMessage a =>
      add_message (append_role a) (append_content a) (append_tokens a) (append_now a) c
  | CallAddSystemPrompt prompt now => (Ok tt, add_system_prompt prompt now c)
  | CallClear => (Ok tt, clear c)
  end.

(** A sequence of mutations; an exception ends the run. *)
Fixpoint mutations (ms : list Mutation) (c : ConversationContext)
  : result unit * ConversationContext :=
  match ms with
  | [] => (Ok tt, c)
  | m :: ms' =>
      match mutate m c with
      | (Ok _, c') => mutations ms' c'
      | (Raise e, c') => (Raise e, c')
      end
  end.

End Conversation.

Module SemanticCache.

(** The sentence-embedding model loaded by [__init__]:
    [model.encode(text).tolist()], [None] when the call raises. *)
Class Embedder : Type := { encode : string -> option (list float) }.

Record SemanticCache : Type := {
  threshold : float;
  max_entries : Z;
  ttl : Z;
  cache : list CacheEntry;
  _embeddings_available : bool
}.

(** [__init__(similarity_threshold=0.95, max_entries=1000, ttl_hours=24)];
    [available] tells whether the import of the embedding library
    succeeded.  Durations are counted in microseconds, the resolution of
    [timedelta]. *)
Definition init (similarity_threshold : float) (max_entries_ : Z) (ttl_hours : Z)
    (available : bool) : SemanticCache :=
  {| threshold := similarity_threshold;
     max_entries := max_entries_;
     ttl := ttl_hours * 3600 * 1000000;
     cache := [];
     _embeddings_available := available |}.

Definition init_default (available : bool) : SemanticCache :=
  init 0x1.e666666666666p-1%float 1000 24 available.

Definition set_cache (c : list CacheEntry) (sc : SemanticCache) : SemanticCache :=
  {| threshold := threshold sc; max_entries := max_entries sc; ttl := ttl sc;
     cache := c; _embeddings_available := _embeddings_available sc |}.

(** [_get_embedding] *)
Definition _get_embedding `{Embedder} (sc : SemanticCache) (text : string)
  : option (list float) :=
  if negb (_embeddings_available sc) then None else encode text.

(** [np.dot] on two one-dimensional arrays: the products are added up
    from 0.0 in the order of the components (numpy hands the loop to a
    BLAS routine, which may add in another order: the properties stated
    for every vector do not depend on the order, and the vectors of the
    examples have exact products and sums); [None] stands for the
    [ValueError] numpy raises when the lengths differ. *)
Fixpoint dot_from (acc : float) (a b : list float) : option float :=
  match a, b with
  | [], [] => Some acc
  | x :: a', y :: b' => dot_from (acc + x * y)%float a' b'
  | _, _ => None
  end.

Definition dot (a b : list float) : option float := dot_from 0%float a b.

(** [np.linalg.norm]: the square root of the dot product of the array
    with itself. *)
Definition sum_squares (a : list float) : float :=
  fold_left (fun acc x => (acc + x * x)%float) a 0%float.

Definition norm (a : list float) : float := sqrt (sum_squares a).

(** [_cosine_similarity]: the quotient is taken without looking at the
    denominator. *)
Definition _cosine_similarity (emb1 emb2 : list float) : result float :=
  match dot emb1 emb2 with
  | Some d => Ok (np_div d (norm emb1 * norm emb2)%float)
  | None => Raise (ValueError "shapes not aligned")
  end.

(** A vector all of whose components are zero ([0.0] or [-0.0]). *)
Definition zero_vector (a : list float) : bool := forallb is_zero a.

(** [_cleanup_old_entries] at clock reading [now]. *)
Definition _cleanup_old_entries (now : Z) (sc : SemanticCache) : SemanticCache :=
  let kept := List.filter (fun entry => now - entry_timestamp entry <? ttl sc) (cache sc) in
  if len kept >? max_entries sc
  then set_cache (slice_to (max_entries sc) (sort_by_reverse hits kept)) sc
  else set_cache kept sc.

(** The [for] loop of [get_cached_response].  [best_match] is the entry
    found so far together with its position in [self.cache]: the entry is
    the very object stored in the list, and its hit counter is updated in
    place afterwards. *)
Fixpoint find_best (query_embedding : list float) (thr : float)
    (entries : list CacheEntry) (i : nat)
    (best_match : option (nat * CacheEntry)) (best_similarity : float)
  : result (option (nat * CacheEntry)) :=
  match entries with
  | [] => Ok best_match
  | entry :: rest =>
      match _cosine_similarity query_embedding (embedding entry) with
      | Raise e => Raise e
      | Ok similarity =>
          if float_gt similarity best_similarity && float_ge similarity thr
          then find_best query_embedding thr rest (S i) (Some (i, entry)) similarity
          else find_best query_embedding thr rest (S i) best_match best_similarity
      end
  end.

Definition add_hit (entry : CacheEntry) : CacheEntry :=
  {| query := query entry; embedding := embedding entry;
     response := response entry; entry_timestamp := entry_timestamp entry;
     hits := hits entry + 1 |}.

(** [get_cached_response(query)] at clock reading [now]. *)
Definition get_cached_response `{Embedder} (q : string) (now : Z) (sc : SemanticCache)
  : result (option string) * SemanticCache :=
  if negb (_embeddings_available sc) then (Ok None, sc)
  else
    let sc1 := _cleanup_old_entries now sc in
    match _get_embedding sc1 q with
    | None => (Ok None, sc1)
    | Some query_embedding =>
        match find_best query_embedding (threshold sc1) (cache sc1) 0 None 0%float with
        | Raise e => (Raise e, sc1)
        | Ok (Some (i, best_match)) =>
            (Ok (Some (response best_match)),
             set_cache (alter add_hit i (cache sc1)) sc1)
        | Ok None => (Ok None, sc1)
        end
    end.

(** [cache_response(query, response)] at clock reading [now]. *)
Definition cache_response `{Embedder} (q resp : string) (now : Z) (sc : SemanticCache)
  : SemanticCache :=
  if negb (_embeddings_available sc) then sc
  else
    match _get_embedding sc q with
    | None => sc
    | Some emb =>
        let entry := {| query := q; embedding := emb; response := resp;
                        entry_timestamp := now; hits := 0 |} in
        set_cache (cache sc ++ [entry]) sc
    end.

(** [clear_cache()] *)
Definition clear_cache (sc : SemanticCache) : SemanticCache := set_cache [] sc.

(** ** Statistics *)

(** [sum(entry.hits for entry in self.cache)] *)
Definition total_hits (entries : list CacheEntry) : Z :=
  fold_right (fun entry acc => hits entry + acc) 0 entries.

(** A value of the dictionary [get_stats()] returns. *)
Inductive StatValue : Type :=
| SInt (z : Z)
| SFloat (f : float)
| SBool (b : bool).

(** [get_stats()]: the dictionary of an empty cache has four keys, that of
    any other cache seven.  [/] on two integers is the true division;
    [ttl.total_seconds()] is the true division of the microseconds of the
    duration by [10**6]. *)
Definition get_stats (sc : SemanticCache) : gmap string StatValue :=
  match cache sc with
  | [] =>
      <["size" := SInt 0]>
        (<["total_hits" := SInt 0]>
           (<["avg_hits" := SInt 0]>
              (<["enabled" := SBool (_embeddings_available sc)]> ∅)))
  | _ :: _ =>
      <["size" := SInt (len (cache sc))]>
        (<["max_size" := SInt (max_entries sc)]>
           (<["total_hits" := SInt (total_hits (cache sc))]>
              (<["avg_hits" := SFloat (int_truediv (total_hits (cache sc))
                                                   (len (cache sc)))]>
                 (<["threshold" := SFloat (threshold sc)]>
                    (<["ttl_hours" := SFloat (int_truediv (ttl sc) 1000000 / 3600)%float]>
                       (<["enabled" := SBool (_embeddings_available sc)]> ∅))))))
  end.

(** The entry [cache_response] builds. *)
Definition new_entry (q resp : string) (emb : list float) (now : Z) : CacheEntry :=
  {| query := q; embedding := emb; response := resp; entry_timestamp := now; hits := 0 |}.

End SemanticCache.

Module Core.

(** ** Collaborators that live outside [core.py] *)

(** [str.lower] and [str.split] of the Python runtime. *)
Class StrOps : Type := {
  lower : string -> string;
  split : string -> list string
}.

(** The budget governor ([cost_controller.py]). *)
Class CostControl : Type := {
  CostController : Type;
  check_budget : Z -> string -> Z -> CostController -> result unit * CostController;
  record_usage : Z -> string -> Z -> CostController -> result unit * CostController
}.

(** The tool registry ([tools.py]); [render] is the text an f-string
    produces for the list of tool results. *)
Class Tools : Type := {
  ToolsManager : Type;
  get_tool_definitions : ToolsManager -> list string;
  execute_tool : ToolCall -> ToolsManager -> result string * ToolsManager;
  render : list string -> string
}.

(** [class BaseProvider(ABC)].  [provider_chat] is the outcome of the
    [chat] coroutine of the concrete backend, as a function of the attempt
    number within one failover run, the messages and the parameters. *)
Record BaseProvider : Type := {
  name : string;
  _health_check : result bool;
  provider_chat : nat -> list Message -> GenerationParams -> result AIResponse
}.

(** [is_available]: a fault of the health check is suppressed. *)
Definition is_available (p : BaseProvider) : bool :=
  match _health_check p with
  | Ok b => b
  | Raise _ => false
  end.

(** The per-provider counters, [{"requests", "successes", "failures"}]. *)
Record ProviderStats : Type := {
  requests : Z;
  successes : Z;
  failures : Z
}.

Definition stats_zero : ProviderStats :=
  {| requests := 0; successes := 0; failures := 0 |}.

(** An entry of [request_history]. *)
Record RequestRecord : Type := {
  rec_prompt : string;
  rec_model : string;
  rec_provider : string;
  rec_tokens : Z;
  rec_cached : bool
}.

Section Orchestrator.
Context `{SemanticCache.Embedder} `{StrOps} `{CostControl} `{Tools}.

Record AIOrchestrator : Type := {
  providers : list BaseProvider;
  provider_priority : gmap string Z;
  cost_controller : CostController;
  semantic_cache : option SemanticCache.SemanticCache;
  conversation : Conversation.ConversationContext;
  tools_manager : option ToolsManager;
  request_history : list RequestRecord;
  provider_stats : gmap string ProviderStats
}.

Definition set_providers (ps : list BaseProvider) (prio : gmap string Z)
    (o : AIOrchestrator) : AIOrchestrator :=
  {| providers := ps; provider_priority := prio;
     cost_controller := cost_controller o; semantic_cache := semantic_cache o;
     conversation := conversation o; tools_manager := tools_manager o;
     request_history := request_history o; provider_stats := provider_stats o |}.

Definition set_provider_stats (st : gmap string ProviderStats)
    (o : AIOrchestrator) : AIOrchestrator :=
  {| providers := providers o; provider_priority := provider_priority o;
     cost_controller := cost_controller o; semantic_cache := semantic_cache o;
     conversation := conversation o; tools_manager := tools_manager o;
     request_history := request_history o; provider_stats := st |}.

Definition set_cost_controller (cc : CostController)
    (o : AIOrchestrator) : AIOrchestrator :=
  {| providers := providers o; provider_priority := provider_priority o;
     cost_controller := cc; semantic_cache := semantic_cache o;
     conversation := conversation o; tools_manager := tools_manager o;
     request_history := request_history o; provider_stats := provider_stats o |}.

Definition set_semantic_cache (sc : option SemanticCache.SemanticCache)
    (o : AIOrchestrator) : AIOrchestrator :=
  {| providers := providers o; provider_priority := provider_priority o;
     cost_controller := cost_controller o; semantic_cache := sc;
     conversation := conversation o; tools_manager := tools_manager o;
     request_history := request_history o; provider_stats := provider_stats o |}.

Definition set_conversation (c : Conversation.ConversationContext)
    (o : AIOrchestrator) : AIOrchestrator :=
  {| providers := providers o; provider_priority := provider_priority o;
     cost_controller := cost_controller o; semantic_cache := semantic_cache o;
     conversation := c; tools_manager := tools_manager o;
     request_history := request_history o; provider_stats := provider_stats o |}.

Definition set_tools_manager (tm : option ToolsManager)
    (o : AIOrchestrator) : AIOrchestrator :=
  {| providers := providers o; provider_priority := provider_priority o;
     cost_controller := cost_controller o; semantic_cache := semantic_cache o;
     conversation := conversation o; tools_manager := tm;
     request_history := request_history o; provider_stats := provider_stats o |}.

Definition set_request_history (h : list RequestRecord)
    (o : AIOrchestrator) : AIOrchestrator :=
  {| providers := providers o; provider_priority := provider_priority o;
     cost_controller := cost_controller o; semantic_cache := semantic_cache o;
     conversation := conversation o; tools_manager := tools_manager o;
     request_history := h; provider_stats := provider_stats o |}.

(** [__init__]; the collaborators built by the constructor are passed
    in. *)
Definition init (cc : CostController) (conversation_config : option ConversationConfig)
    (sc : option SemanticCache.SemanticCache) (tm : option ToolsManager)
  : AIOrchestrator :=
  {| providers := []; provider_priority := ∅;
     cost_controller := cc; semantic_cache := sc;
     conversation := Conversation.init conversation_config;
     tools_manager := tm;
     request_history := []; provider_stats := ∅ |}.

(** A method of the orchestrator: an outcome and the orchestrator as
    the method leaves it. *)
Definition M (A : Type) : Type := AIOrchestrator -> result A * AIOrchestrator.

Definition ret {A : Type} (a : A) : M A := fun o => (Ok a, o).
Definition raise {A : Type} (e : Exception) : M A := fun o => (Raise e, o).
Definition bind {A B : Type} (m : M A) (k : A -> M B) : M B :=
  fun o =>
    match m o with
    | (Ok a, o') => k a o'
    | (Raise e, o') => (Raise e, o')
    end.

Notation "'do' x <- m ; k" := (bind m (fun x => k))
  (at level 10, x name, m at level 100, k at level 200).

(** [register_provider(provider, priority=99)]: the sort key of a
    provider is [provider_priority[p.name]]. *)
Definition register_provider (p : BaseProvider) (priority : Z) : M unit :=
  fun o =>
    let ps := providers o ++ [p] in
    let prio := <[name p := priority]> (provider_priority o) in
    let o1 := set_providers ps prio o in
    match list_find (fun q => prio !! name q = None) ps with
    | Some (_, q) => (Raise (KeyError (name q)), o1)
    | None =>
        let o2 := set_providers
                    (sort_by (fun q => default 0 (prio !! name q)) ps) prio o1 in
        match provider_stats o2 !! name p with
        | Some _ => (Ok tt, o2)
        | None => (Ok tt, set_provider_stats (<[name p := stats_zero]> (provider_stats o2)) o2)
        end
    end.

(** The inner loop of [_execute_with_fallback],
    [for attempt in range(max_retries)], on the counters of one
    provider; [remaining] counts the values [range] has still to
    yield. *)
Fixpoint attempts (p : BaseProvider) (messages : list Message)
    (params : GenerationParams) (max_retries : Z)
    (remaining : nat) (attempt : nat) (stats : ProviderStats)
  : option AIResponse * ProviderStats :=
  match remaining with
  | O => (None, stats)
  | S remaining' =>
      let stats1 := {| requests := requests stats + 1;
                       successes := successes stats;
                       failures := failures stats |} in
      match provider_chat p attempt messages params with
      | Ok resp =>
          (Some resp, {| requests := requests stats1;
                         successes := successes stats1 + 1;
                         failures := failures stats1 |})
      | Raise _ =>
          let stats2 := {| requests := requests stats1;
                           successes := successes stats1;
                           failures := failures stats1 + 1 |} in
          if Z.of_nat attempt <? max_retries - 1
          then attempts p messages params max_retries remaining' (S attempt) stats2
          else (None, stats2)
      end
  end.

(** The outer loop, [for provider in self.providers]. *)
Fixpoint try_providers (ps : list BaseProvider) (messages : list Message)
    (params : GenerationParams) (max_retries : Z)
    (st : gmap string ProviderStats)
  : result AIResponse * gmap string ProviderStats :=
  match ps with
  | [] =>
      (Raise (AllProvidersFailedException
                "Tutti i provider AI hanno fallito. Verifica la connessione e le API keys."),
       st)
  | p :: ps' =>
      if negb (is_available p) then try_providers ps' messages params max_retries st
      else
        match st !! name p with
        | None => (Raise (KeyError (name p)), st)
        | Some stats =>
            match attempts p messages params max_retries (Z.to_nat max_retries) 0 stats with
            | (Some resp, stats') => (Ok resp, <[name p := stats']> st)
            | (None, stats') =>
                try_providers ps' messages params max_retries (<[name p := stats']> st)
            end
        end
  end.

(** [_execute_with_fallback(messages, params, max_retries)] *)
Definition _execute_with_fallback (messages : list Message)
    (params : GenerationParams) (max_retries : Z) : M AIResponse :=
  fun o =>
    match providers o with
    | [] => (Raise (ValueError "Nessun provider configurato"), o)
    | _ :: _ =>
        let '(r, st) := try_providers (providers o) messages params max_retries
                          (provider_stats o) in
        (r, set_provider_stats st o)
    end.

Definition reasoning_keywords : list string :=
  ["analizza"; "ragiona"; "spiega perché"; "confronta";
   "valuta"; "quale è meglio"; "pro e contro"; "calcola";
   "risolvi"; "dimostra"; "deduce"]%string.

Definition simple_keywords : list string :=
  ["traduci"; "riassumi"; "lista"; "elenca";
   "genera html"; "formato json"]%string.

(** [_smart_route_model(prompt)] *)
Definition _smart_route_model (prompt : string) : string :=
  let prompt_lower := lower prompt in
  if any (fun keyword => contains keyword prompt_lower) reasoning_keywords
  then "deepseek-reasoner"%string
  else if any (fun keyword => contains keyword prompt_lower) simple_keywords
  then "deepseek-chat"%string
  else "deepseek-chat"%string.

(** [tc["name"]] and [tc["arguments"]].  The elements of
    [response.tool_calls] are [ToolCall] objects ([tool_calls:
    Optional[List[ToolCall]]] in [AIResponse]), and a pydantic model has
    no [__getitem__]: the subscript raises. *)
Definition ToolCall_getitem (tc : ToolCall) (key : string) : result string :=
  Raise (TypeError "'ToolCall' object is not subscriptable").

(** [_handle_tool_calls(tool_calls)]: the loop rebuilds each tool call
    from its subscripts and runs it; the first failure ends the loop. *)
Fixpoint run_tools (tcs : list ToolCall) (tm : ToolsManager)
  : result (list string) * ToolsManager :=
  match tcs with
  | [] => (Ok [], tm)
  | tc :: tcs' =>
      match ToolCall_getitem tc "name" with
      | Raise e => (Raise e, tm)
      | Ok name_ =>
          match ToolCall_getitem tc "arguments" with
          | Raise e => (Raise e, tm)
          | Ok arguments_ =>
              let tool_call := {| tool_name := name_; arguments := arguments_ |} in
              match execute_tool tool_call tm with
              | (Raise e, tm') => (Raise e, tm')
              | (Ok r, tm') =>
                  match run_tools tcs' tm' with
                  | (Raise e, tm'') => (Raise e, tm'')
                  | (Ok rs, tm'') => (Ok (r :: rs), tm'')
                  end
              end
          end
      end
  end.

Definition _handle_tool_calls (tcs : list ToolCall) : M (option (list string)) :=
  fun o =>
    match tools_manager o with
    | None => (Ok None, o)
    | Some tm =>
        match run_tools tcs tm with
        | (Raise e, tm') => (Raise e, set_tools_manager (Some tm') o)
        | (Ok rs, tm') => (Ok (Some rs), set_tools_manager (Some tm') o)
        end
    end.

(** Calls into the collaborators, lifted to the orchestrator. *)
Definition conversation_add_message (r : Role) (text : string) (tok : option Z)
    (now : Z) : M unit :=
  fun o =>
    let '(res, c) := Conversation.add_message r text tok now (conversation o) in
    (res, set_conversation c o).

Definition conversation_get_messages : M (list Message) :=
  fun o => (Ok (Conversation.get_messages None (conversation o)), o).

Definition cache_get (prompt : string) (now : Z) (sc : SemanticCache.SemanticCache)
  : M (option string) :=
  fun o =>
    let '(res, sc') := SemanticCache.get_cached_response prompt now sc in
    (res, set_semantic_cache (Some sc') o).

Definition cache_put (prompt text : string) (now : Z)
    (sc : SemanticCache.SemanticCache) : M unit :=
  fun o => (Ok tt, set_semantic_cache
                     (Some (SemanticCache.cache_response prompt text now sc)) o).

Definition cost_check (estimated_tokens : Z) (mdl : string) (now : Z) : M unit :=
  fun o =>
    let '(res, cc) := check_budget estimated_tokens mdl now (cost_controller o) in
    (res, set_cost_controller cc o).

Definition cost_record (actual_tokens : Z) (mdl : string) (now : Z) : M unit :=
  fun o =>
    let '(res, cc) := record_usage actual_tokens mdl now (cost_controller o) in
    (res, set_cost_controller cc o).

Definition get {A : Type} (f : AIOrchestrator -> A) : M A := fun o => (Ok (f o), o).

(** [chat(prompt, model=None, use_conversation=True, use_cache=True,
    use_tools=False, max_retries=3)] at clock reading [now], in three
    definitions: the cache lookup of step 1, steps 2 to 11, and the method
    itself.  The numbers are the ones of the source. *)
Definition chat_lookup (prompt : string) (use_cache : bool) (now : Z)
  : M (option string) :=
  do sc_ <- get semantic_cache;
  match use_cache, sc_ with
  | true, Some sc => cache_get prompt now sc
  | _, _ => ret None
  end.

Definition chat_uncached (prompt : string) (model_ : option string)
    (use_conversation use_cache use_tools : bool) (max_retries : Z) (now : Z)
  : M AIResponse :=
  (* 2 *)
  do messages <- (if use_conversation
                  then do _ <- conversation_add_message user prompt None now;
                       conversation_get_messages
                  else ret [ {| role := user; content := prompt;
                                timestamp := now; tokens := None |} ]);
  (* 3 *)
  let mdl := if truthy_str model_ then default ""%string model_
             else _smart_route_model prompt in
  (* 4 *)
  let estimated_tokens := len (split prompt) * 2 in
  do _ <- cost_check estimated_tokens mdl now;
  (* 5 *)
  do tm_ <- get tools_manager;
  let params :=
    match use_tools, tm_ with
    | true, Some tm =>
        {| model := mdl; max_tokens := 1000; stream := false;
           temperature := 0x1.6666666666666p-1%float; tools := Some (get_tool_definitions tm) |}
    | _, _ => GenerationParams_of_model mdl
    end in
  (* 6 *)
  do response0 <- _execute_with_fallback messages params max_retries;
  (* 7 *)
  do response1 <-
     (if truthy_list (tool_calls response0) && bool_decide (is_Some tm_)
      then
        do tool_result <- _handle_tool_calls (default [] (tool_calls response0));
        do _ <- conversation_add_message assistant (response_content response0) None now;
        do _ <- conversation_add_message system
                  (String.append "Tool result: " (render (default [] tool_result)))
                  None now;
        do messages' <- conversation_get_messages;
        _execute_with_fallback messages' params max_retries
      else ret response0);
  (* 8 *)
  do _ <- (if use_conversation
           then conversation_add_message assistant (response_content response1)
                  (Some (tokens_used response1)) now
           else ret tt);
  (* 9 *)
  do sc_ <- get semantic_cache;
  do _ <- match use_cache, sc_, cached response1 with
          | true, Some sc, false => cache_put prompt (response_content response1) now sc
          | _, _, _ => ret tt
          end;
  (* 10 *)
  do _ <- cost_record (tokens_used response1) mdl now;
  (* 11 *)
  do hist <- get request_history;
  do _ <- (fun o => (Ok tt,
             set_request_history
               (hist ++ [ {| rec_prompt := prompt; rec_model := mdl;
                             rec_provider := provider response1;
                             rec_tokens := tokens_used response1;
                             rec_cached := cached response1 |} ]) o));
  ret response1.

Definition chat (prompt : string) (model_ : option string)
    (use_conversation use_cache use_tools : bool) (max_retries : Z) (now : Z)
  : M AIResponse :=
  (* 1 *)
  do cached_ <- chat_lookup prompt use_cache now;
  if truthy_str cached_ then
    ret {| response_content := default ""%string cached_;
           response_model := "cached"; provider := "cache";
           tokens_used := 0; cached := true; tool_calls := None |}
  else
    chat_uncached prompt model_ use_conversation use_cache use_tools max_retries now.

(** ["total_requests"] of [get_analytics()]. *)
Definition total_requests (o : AIOrchestrator) : Z := len (request_history o).

(** [reset_conversation()] and [add_system_prompt(prompt)]. *)
Definition reset_conversation (o : AIOrchestrator) : AIOrchestrator :=
  set_conversation (Conversation.clear (conversation o)) o.

Definition add_system_prompt (prompt : string) (now : Z) (o : AIOrchestrator)
  : AIOrchestrator :=
  set_conversation (Conversation.add_system_prompt prompt now (conversation o)) o.

(** ** Notions used to state the properties of the failover *)

(** Every provider of the list has its counters, as [register_provider]
    leaves them. *)
Definition registered (o : AIOrchestrator) : Prop :=
  forall p, p ∈ providers o -> is_Some (provider_stats o !! name p).

(** Every provider of the list has its priority. *)
Definition priorities_known (o : AIOrchestrator) : Prop :=
  forall p, p ∈ providers o -> is_Some (provider_priority o !! name p).

(** The response [chat] builds from a cached text. *)
Definition cached_response (text : string) : AIResponse :=
  {| response_content := text; response_model := "cached"; provider := "cache";
     tokens_used := 0; cached := true; tool_calls := None |}.

End Orchestrator.

(** A backend whose [chat] fails at every attempt, and one that answers
    [resp] at every attempt. *)
Definition always_fails (p : BaseProvider) : Prop :=
  forall attempt messages params, exists e, provider_chat p attempt messages params = Raise e.

Definition always_answers (p : BaseProvider) (resp : AIResponse) : Prop :=
  forall attempt messages params, provider_chat p attempt messages params = Ok resp.

(** No attempt the failover can make succeeds: every available provider
    fails at each of its [max_retries] attempts. *)
Definition no_attempt_succeeds (ps : list BaseProvider) (messages : list Message)
    (params : GenerationParams) (max_retries : Z) : Prop :=
  forall p i, p ∈ ps -> is_available p = true -> Z.of_nat i < max_retries ->
    exists e, provider_chat p i messages params = Raise e.

(** [n] failed attempts on the counters of a provider. *)
Definition add_failures (n : Z) (s : ProviderStats) : ProviderStats :=
  {| requests := requests s + n; successes := successes s; failures := failures s + n |}.

(** The counters once every available provider of the list has failed
    [max_retries] times. *)
Fixpoint exhausted (ps : list BaseProvider) (max_retries : Z)
    (st : gmap string ProviderStats) : gmap string ProviderStats :=
  match ps with
  | [] => st
  | p :: ps' =>
      exhausted ps' max_retries
        (if is_available p
         then match st !! name p with
              | Some s => <[name p := add_failures (Z.max 0 max_retries) s]> st
              | None => st
              end
         else st)
  end.

(** A keyword of the table occurs in the text. *)
Definition mentions (keywords : list string) (text : string) : Prop :=
  exists kw pre post,
    kw ∈ keywords /\ text = String.append pre (String.append kw post).

(** [class LocalProvider(BaseProvider)] of [providers.py]: its [chat]
    answers a fixed text for no tokens, whatever it is asked; the name is
    the [provider_type] of its configuration. *)
Definition LocalProvider (provider_name : string) : BaseProvider :=
  {| name := provider_name;
     _health_check := Ok true;
     provider_chat := fun _ _ _ =>
       Ok {| response_content :=
               "Local provider non ancora implementato. Tutti i provider remoti sono down.";
             response_model := "local";
             provider := provider_name;
             tokens_used := 0;
             cached := false;
             tool_calls := None |} |}.

(** Every request counted for a provider ended as a success or as a
    failure. *)
Definition balanced (s : ProviderStats) : Prop :=
  requests s = successes s + failures s.

(** The [stream] coroutine of the concrete backends: the fragments a
    provider yields for the messages and the parameters, and how the
    iteration ends, normally or with an exception. *)
Class Streaming : Type := {
  provider_stream : BaseProvider -> list Message -> GenerationParams
                    -> list string * result unit
}.

(** ["".join(chunks)] *)
Definition join (chunks : list string) : string :=
  fold_right String.append EmptyString chunks.

Section Streams.
Context `{StrOps} `{CostControl} `{Tools} `{Streaming}.

(** A method leaves the component [f] of the orchestrator as it was. *)
Definition preserves {A B : Type} (f : AIOrchestrator -> A) (m : M B) : Prop :=
  forall o, f (snd (m o)) = f o.

(** The loop of [chat_stream], [for provider in self.providers], read by a
    caller that consumes the whole stream: the fragments yielded to the
    caller, how the generator ends, and the orchestrator as it is left.
    [messages] is the history itself when the conversation is used, so each
    provider is given the history as it is when its turn comes.  The commit
    of the answer sits inside the [try]: should it raise, the loop goes on
    with the next provider. *)
Fixpoint stream_providers (ps : list BaseProvider) (single : list Message)
    (params : GenerationParams) (use_conversation : bool) (now : Z)
    (o : AIOrchestrator) : (list string * result unit) * AIOrchestrator :=
  match ps with
  | [] =>
      (([], Raise (AllProvidersFailedException "Tutti i provider hanno fallito")), o)
  | p :: ps' =>
      if negb (is_available p)
      then stream_providers ps' single params use_conversation now o
      else
        let messages :=
          if use_conversation then Conversation.get_messages None (conversation o)
          else single in
        match provider_stream p messages params with
        | (full_response, Ok _) =>
            if use_conversation then
              match conversation_add_message assistant (join full_response) None now o with
              | (Ok _, o') => ((full_response, Ok tt), o')
              | (Raise _, o') =>
                  let '((later, ending), o'') :=
                    stream_providers ps' single params use_conversation now o' in
                  ((full_response ++ later, ending), o'')
              end
            else ((full_response, Ok tt), o)
        | (full_response, Raise _) =>
            let '((later, ending), o') :=
              stream_providers ps' single params use_conversation now o in
            ((full_response ++ later, ending), o')
        end
  end.

(** [chat_stream(prompt, model=None, use_conversation=True)] at clock
    reading [now]. *)
Definition chat_stream (prompt : string) (model_ : option string)
    (use_conversation : bool) (now : Z) (o : AIOrchestrator)
  : (list string * result unit) * AIOrchestrator :=
  let '(appended, o1) :=
    if use_conversation then conversation_add_message user prompt None now o
    else (Ok tt, o) in
  match appended with
  | Raise e => (([], Raise e), o1)
  | Ok _ =>
      let single :=
        [ {| role := user; content := prompt; timestamp := now; tokens := None |} ] in
      let mdl := if truthy_str model_ then default ""%string model_
                 else _smart_route_model prompt in
      let params := GenerationParams_of_model mdl in
      stream_providers (providers o1) single params use_conversation now o1
  end.

(** A backend whose stream fails, whatever it is asked, and one whose
    stream ends normally, whatever it is asked. *)
Definition stream_fails (p : BaseProvider) : Prop :=
  forall messages params, exists e, snd (provider_stream p messages params) = Raise e.

Definition stream_completes (p : BaseProvider) : Prop :=
  forall messages params, snd (provider_stream p messages params) = Ok tt.

(** The fragments of the available providers of a list, one provider after
    the other. *)
Definition fragments_of (ps : list BaseProvider) (messages : list Message)
    (params : GenerationParams) : list string :=
  flat_map (fun p => if is_available p then fst (provider_stream p messages params) else [])
    ps.

End Streams.

End Core.

(** Stand-ins for the collaborators, used to run the code on concrete
    inputs: an embedding model that maps every text to the same unit vector,
    [str.lower] and [str.split] restricted to ASCII text, a budget governor
    that only adds up what is recorded, an empty tool registry, and the two
    backends of the failover scenario. *)
Module Fixtures.
Import Core.

(** An embedding model that maps every text to the unit vector of
    dimension one, so that any two texts have similarity 1. *)
#[export] Instance constant_embedder : SemanticCache.Embedder :=
  {| SemanticCache.encode := fun _ => Some [1%float] |}.

(** [str.lower] on ASCII text: the letters [A] to [Z] are shifted to [a]
    to [z], every other byte is kept. *)
Definition ascii_lower_char (c : ascii) : ascii :=
  let n := nat_of_ascii c in
  if ((65 <=? n)%nat && (n <=? 90)%nat)%bool then ascii_of_nat (n + 32) else c.

Fixpoint ascii_lower (s : string) : string :=
  match s with
  | EmptyString => EmptyString
  | String c s' => String (ascii_lower_char c) (ascii_lower s')
  end.

(** [str.split()] on ASCII text: the words between runs of whitespace,
    which in ASCII is the space, the characters 9 to 13 (tab, line feed,
    vertical tab, form feed, carriage return) and the separators 28 to 31;
    [word] is the word being read, reversed. *)
Definition ascii_isspace (c : ascii) : bool :=
  let n := nat_of_ascii c in
  (((9 <=? n)%nat && (n <=? 13)%nat) || ((28 <=? n)%nat && (n <=? 32)%nat))%bool.

Fixpoint ascii_split_aux (s : string) (word : list ascii) : list string :=
  let flush := match word with
               | [] => []
               | _ :: _ => [string_of_list_ascii (rev word)]
               end in
  match s with
  | EmptyString => flush
  | String c s' =>
      if ascii_isspace c then flush ++ ascii_split_aux s' []
      else ascii_split_aux s' (c :: word)
  end.

#[export] Instance ascii_strops : StrOps :=
  {| lower := ascii_lower; split := fun s => ascii_split_aux s [] |}.

(** Modelled from the spec: the budget governor of [cost_controller.py],
    which is not among the sources, reduced to its token counter and with
    ceilings that are never reached: [check_budget] is a pure check, which
    passes, and [record_usage] unconditionally adds the actual
    consumption. *)
#[export] Instance counting_cost_control : CostControl :=
  {| CostController := Z;
     check_budget := fun _ _ _ used => (Ok tt, used);
     record_usage := fun actual _ _ used => (Ok tt, used + actual) |}.

(** Modelled from the spec: the tool-execution capability of [tools.py],
    which is not among the sources, with no tool registered. *)
#[export] Instance no_tools : Tools :=
  {| ToolsManager := unit;
     get_tool_definitions := fun _ => [];
     execute_tool := fun _ tm => (Ok ""%string, tm);
     render := fun _ => ""%string |}.

(** Backend A always fails; backend B answers ["ok"] for 10 tokens. *)
Definition provider_A : BaseProvider :=
  {| name := "A"; _health_check := Ok true;
     provider_chat := fun _ _ _ => Raise (BackendError "A is down") |}.

Definition response_B : AIResponse :=
  {| response_content := "ok"; response_model := "deepseek-chat"; provider := "B";
     tokens_used := 10; cached := false; tool_calls := None |}.

Definition provider_B : BaseProvider :=
  {| name := "B"; _health_check := Ok true;
     provider_chat := fun _ _ _ => Ok response_B |}.

(** A fresh orchestrator with the default conversation window, the given
    cache and no tools. *)
Definition fresh (sc : option SemanticCache.SemanticCache) : AIOrchestrator :=
  init (0 : CostController) None sc None.

(** [register_provider(A, 1); register_provider(B, 2)] on it. *)
Definition with_A_and_B (sc : option SemanticCache.SemanticCache) : AIOrchestrator :=
  snd (register_provider provider_B 2 (snd (register_provider provider_A 1 (fresh sc)))).

(** Cache entries for the query ["ciao"], all with the embedding the
    constant model computes. *)
Definition entry (resp : string) (created : Z) (hit_count : Z) : CacheEntry :=
  {| query := "ciao"; embedding := [1%float]; response := resp;
     entry_timestamp := created; hits := hit_count |}.

(** A cache whose time-to-live is 50 and whose capacity is [capacity]. *)
Definition cache_of (capacity : Z) (entries : list CacheEntry)
  : SemanticCache.SemanticCache :=
  {| SemanticCache.threshold := 0x1.e666666666666p-1%float;
     SemanticCache.max_entries := capacity;
     SemanticCache.ttl := 50;
     SemanticCache.cache := entries;
     SemanticCache._embeddings_available := true |}.

Definition three_entries : SemanticCache.SemanticCache :=
  cache_of 2 [entry "a" 100 1; entry "b" 100 5; entry "c" 100 3].

(** The same entries in a cache built with [max_entries = -1]. *)
Definition negative_capacity : SemanticCache.SemanticCache :=
  cache_of (-1) [entry "a" 100 1; entry "b" 100 5; entry "c" 100 3].

(** A cache whose only entry, still fresh at time 120, holds an empty
    response for ["ciao"]. *)
Definition empty_response_cache : SemanticCache.SemanticCache :=
  cache_of 1000 [entry "" 100 0].

(** A window with room for a single message. *)
Definition tiny_config : ConversationConfig :=
  {| max_messages := 1; context_window := 4096; summarize_old_messages := true |}.

(** The tiny window after one message. *)
Definition full_tiny_window : Conversation.ConversationContext :=
  snd (Conversation.add_message user "ciao" None 0 (Conversation.init (Some tiny_config))).

(** Backend E answers with an empty text, as a backend does when the
    completion carries no content. *)
Definition response_E : AIResponse :=
  {| response_content := ""; response_model := "deepseek-chat"; provider := "E";
     tokens_used := 3; cached := false; tool_calls := None |}.

Definition provider_E : BaseProvider :=
  {| name := "E"; _health_check := Ok true;
     provider_chat := fun _ _ _ => Ok response_E |}.

(** E registered on an orchestrator with an empty cache. *)
Definition with_E : AIOrchestrator :=
  snd (register_provider provider_E 1 (fresh (Some (cache_of 1000 [])))).

(** A and B registered on an orchestrator whose cache holds the empty
    response. *)
Definition with_empty_response_cached : AIOrchestrator :=
  with_A_and_B (Some empty_response_cache).

Definition hello : list Message :=
  [ {| role := user; content := "hello"; timestamp := 0; tokens := None |} ].

End Fixtures.

(** Further stand-ins and concrete states: a budget governor with a
    ceiling, the streams of A and B, and orchestrators built from them. *)
Module Scenarios.
Import Core.

(** Modelled from the spec: the budget governor of [cost_controller.py],
    which is not among the sources, reduced to one token counter under a
    ceiling of 100: [check_budget] fails with [BudgetExceeded] when the
    usage plus the estimate would exceed the ceiling and changes nothing,
    [record_usage] unconditionally adds the actual consumption. *)
Definition capped_cost_control : CostControl :=
  {| CostController := Z;
     check_budget := fun estimated _ _ used =>
       (if used + estimated >? 100
        then Raise (BudgetExceededException "Budget orario superato")
        else Ok tt, used);
     record_usage := fun actual _ _ used => (Ok tt, used + actual) |}.

(** A fresh orchestrator under the capped governor, 100 tokens already
    used, with B registered. *)
Definition over_budget : @AIOrchestrator capped_cost_control Fixtures.no_tools :=
  snd (@register_provider capped_cost_control Fixtures.no_tools Fixtures.provider_B 1
         (@init capped_cost_control Fixtures.no_tools (100 : Z) None None None)).

(** The stream of A yields two fragments and fails; every other stream
    yields ["ok"] and ends. *)
Definition two_fragments_then_failure : Streaming :=
  {| provider_stream := fun p _ _ =>
       if String.eqb (name p) "A"
       then (["Buon"; "giorno"]%string, Raise (BackendError "A is down"))
       else (["ok"]%string, Ok tt) |}.

(** A and a local provider registered, the local one last. *)
Definition with_A_and_local : AIOrchestrator :=
  snd (register_provider (LocalProvider "local") 99
         (snd (register_provider Fixtures.provider_A 1 (Fixtures.fresh None)))).

(** A and B registered on an orchestrator whose cache holds a fresh answer
    for ["ciao"]. *)
Definition with_answer_cached : AIOrchestrator :=
  Fixtures.with_A_and_B (Some (Fixtures.cache_of 1000 [Fixtures.entry "nuova" 100 0])).

(** An orchestrator whose cache has no embedding model. *)
Definition degraded_cache : SemanticCache.SemanticCache :=
  SemanticCache.init_default false.

Definition with_degraded_cache : AIOrchestrator :=
  Fixtures.with_A_and_B (Some degraded_cache).

(** A model that embeds every text to the vector (1, 2), and an empty
    cache that asks for a similarity of 1.0. *)
Definition two_component_embedder : SemanticCache.Embedder :=
  {| SemanticCache.encode := fun _ => Some [1%float; 2%float] |}.

Definition exact_match_cache : SemanticCache.SemanticCache :=
  {| SemanticCache.threshold := 1%float;
     SemanticCache.max_entries := 1000;
     SemanticCache.ttl := 50;
     SemanticCache.cache := [];
     SemanticCache._embeddings_available := true |}.

End Scenarios.


(* ===================================================================== *)
(** * Part II: properties                                                 *)
(* ===================================================================== *)

Module PyFacts.

Lemma slice_to_length {A : Type} (stop : Z) (l : list A) :
  0 <= stop -> len (slice_to stop l) <= stop.
Proof.
  intros Hstop. unfold slice_to, slice_index, len.
  rewrite length_take. destruct (Z.ltb_spec stop 0); lia.
Qed.

Lemma slice_to_length_min {A : Type} (stop : Z) (l : list A) :
  0 <= stop -> len (slice_to stop l) = Z.min (len l) stop.
Proof.
  intros Hstop. unfold slice_to, slice_index, len.
  rewrite length_take. destruct (Z.ltb_spec stop 0); lia.
Qed.

Example slice_from_negative : slice_from (-2) [1; 2; 3] = [2; 3].
Proof. reflexivity. Qed.

Example slice_from_beyond : slice_from (-5) [1; 2; 3] = [1; 2; 3].
Proof. reflexivity. Qed.

Example slice_to_negative : slice_to (-1) [1; 2; 3] = [1; 2].
Proof. reflexivity. Qed.

Example sort_by_reverse_is_stable :
  sort_by_reverse snd [("a", 1); ("b", 3); ("c", 1); ("d", 3)]%string
  = [("b", 3); ("d", 3); ("a", 1); ("c", 1)]%string.
Proof. reflexivity. Qed.

Example contains_accented : contains "spiega perché" "mi spiega perché piove" = true.
Proof. reflexivity. Qed.

Lemma slice_to_from {A : Type} (stop : Z) (l : list A) :
  l = slice_to stop l ++ drop (slice_index l stop) l.
Proof. unfold slice_to. symmetry. apply take_drop. Qed.

Section Sorting.
Context {A : Type} (key : A -> Z).

Lemma insert_by_perm (x : A) (l : list A) : insert_by key x l ≡ₚ x :: l.
Proof.
  induction l as [|y l IH]; simpl; [reflexivity|].
  destruct (key x <=? key y); [reflexivity|].
  rewrite IH. apply Permutation_swap.
Qed.

Lemma sort_by_perm (l : list A) : sort_by key l ≡ₚ l.
Proof.
  induction l as [|x l IH]; simpl; [reflexivity|].
  rewrite insert_by_perm, IH. reflexivity.
Qed.

Lemma insert_by_sorted (x : A) (l : list A) :
  StronglySorted (key_le key) l -> StronglySorted (key_le key) (insert_by key x l).
Proof.
  induction 1 as [|y l Hs IH Hall]; simpl.
  - repeat constructor.
  - destruct (Z.leb_spec (key x) (key y)) as [Hle|Hgt].
    + constructor; [constructor; assumption|].
      constructor; [exact Hle|].
      eapply Forall_impl; [exact Hall|].
      unfold key_le. intros z Hz. lia.
    + constructor; [exact IH|].
      rewrite insert_by_perm. constructor; [|exact Hall].
      unfold key_le. lia.
Qed.

Lemma sort_by_sorted (l : list A) : StronglySorted (key_le key) (sort_by key l).
Proof.
  induction l as [|x l IH]; simpl; [constructor|].
  apply insert_by_sorted, IH.
Qed.

(** In a sorted list, whatever stands before a cut is below whatever
    stands after it. *)
Lemma sorted_take_drop (l : list A) (k : nat) (x y : A) :
  StronglySorted (key_le key) l ->
  x ∈ take k l -> y ∈ drop k l -> key x <= key y.
Proof.
  intros Hs. revert k. induction Hs as [|a l Hs IH Hall]; intros k Hx Hy.
  - rewrite take_nil in Hx. inversion Hx.
  - destruct k as [|k]; simpl in *; [inversion Hx|].
    apply elem_of_cons in Hx as [->|Hx].
    + rewrite Forall_forall in Hall. apply Hall.
      apply (subseteq_drop k l), Hy.
    + eapply IH; eassumption.
Qed.

End Sorting.

(** [startswith] and [contains] decide the prefix and the substring
    relations. *)
Lemma append_cons (a : ascii) (k post : string) :
  String.append (String a k) post = String a (String.append k post).
Proof. reflexivity. Qed.

Lemma startswith_spec (k s : string) :
  startswith k s = true <-> exists post, s = String.append k post.
Proof.
  revert s. induction k as [|a k IH]; intros s; simpl.
  - split; [intros _; exists s; reflexivity | reflexivity].
  - destruct s as [|b s].
    + split; [discriminate | intros [post Hp]; discriminate].
    + destruct (Ascii.eqb_spec a b) as [->|Hne].
      * rewrite IH.
        split; intros [post Hp]; exists post; rewrite append_cons in *; congruence.
      * split; [discriminate|].
        intros [post Hp]. rewrite append_cons in Hp. congruence.
Qed.

Lemma contains_spec (k s : string) :
  contains k s = true
  <-> exists pre post, s = String.append pre (String.append k post).
Proof.
  induction s as [|b s IH]; simpl.
  - rewrite orb_false_r, startswith_spec. split.
    + intros [post Hp]. exists EmptyString, post. exact Hp.
    + intros (pre & post & Hp). destruct pre as [|c pre].
      * exists post. exact Hp.
      * rewrite append_cons in Hp. discriminate.
  - rewrite orb_true_iff, startswith_spec, IH. split.
    + intros [[post Hp]|(pre & post & Hp)].
      * exists EmptyString, post. exact Hp.
      * exists (String b pre), post. rewrite append_cons. congruence.
    + intros (pre & post & Hp). destruct pre as [|c pre].
      * left. exists post. exact Hp.
      * right. exists pre, post. rewrite append_cons in Hp. congruence.
Qed.

End PyFacts.

Module ConversationFacts.
Import Conversation.

Lemma known_tokens_app (h1 h2 : list Message) :
  known_tokens (h1 ++ h2) = known_tokens h1 + known_tokens h2.
Proof.
  unfold known_tokens. induction h1 as [|m h1 IH]; simpl; [lia|].
  rewrite IH. lia.
Qed.

(** What [if tokens: total += tokens] adds is the known token count. *)
Lemma truthy_tokens_value (t : option Z) :
  (if truthy_int t then default 0 t else 0) = default 0 t.
Proof.
  destruct t as [n|]; simpl; [|reflexivity].
  destruct (Z.eqb_spec n 0); simpl; lia.
Qed.

(** The eviction loop: it stops within the bound, and what it subtracts
    from the total is what the evicted messages contributed; it raises
    only under a negative bound. *)
Lemma evict_spec (max_msgs : Z) (h : list Message) (total : Z) :
  match evict max_msgs h total with
  | (Ok _, (h', total')) =>
      len h' <= max_msgs /\ total' - known_tokens h' = total - known_tokens h
      /\ exists gone, h = gone ++ h'
  | (Raise e, (h', total')) =>
      e = IndexError /\ max_msgs < 0 /\ h' = []
      /\ total' = total - known_tokens h
  end.
Proof.
  revert total. induction h as [|m h IH]; intros total.
  - cbn [evict]. destruct (Z.gtb_spec (len (@nil Message)) max_msgs) as [Hgt|Hle];
      unfold len in *; simpl in *.
    + split; [reflexivity|]. split; [lia|]. split; [reflexivity|].
      unfold known_tokens; simpl; lia.
    + split; [lia|]. split; [lia|]. exists []. reflexivity.
  - cbn [evict]. destruct (Z.gtb_spec (len (m :: h)) max_msgs) as [Hgt|Hle].
    + specialize (IH (if truthy_int (tokens m)
                      then total - default 0 (tokens m) else total)).
      destruct (evict _ h _) as [[[]|e] [h' total']].
      * destruct IH as (Hlen & Htot & gone & ->).
        split; [exact Hlen|]. split.
        -- rewrite Htot. pose proof (truthy_tokens_value (tokens m)) as Hv.
           change (known_tokens (m :: gone ++ h'))
             with (default 0 (tokens m) + known_tokens (gone ++ h')).
           destruct (truthy_int (tokens m)); lia.
        -- exists (m :: gone). reflexivity.
      * destruct IH as (-> & Hneg & -> & Htot).
        repeat split; try assumption.
        rewrite Htot. pose proof (truthy_tokens_value (tokens m)) as Hv.
        change (known_tokens (m :: h))
          with (default 0 (tokens m) + known_tokens h).
        destruct (truthy_int (tokens m)); lia.
    + split; [lia|]. split; [lia|]. exists []. reflexivity.
Qed.

Lemma add_message_spec (r : Role) (text : string) (tok : option Z) (now : Z)
    (c : ConversationContext) :
  match add_message r text tok now c with
  | (Ok _, c') =>
      config c' = config c /\ len (history c') <= max_messages (config c)
      /\ (accounted c -> accounted c')
  | (Raise e, c') =>
      config c' = config c /\ e = IndexError /\ max_messages (config c) < 0
      /\ (accounted c -> accounted c')
  end.
Proof.
  unfold add_message, _manage_context_window, accounted. cbn [config history total_tokens].
  pose proof (evict_spec (max_messages (config c))
                (history c ++ [ {| role := r; content := text;
                                   timestamp := now; tokens := tok |} ])
                (if truthy_int tok then total_tokens c + default 0 tok
                 else total_tokens c)) as Hev.
  destruct (evict _ _ _) as [[[]|e] [h' total']]; cbn [config history total_tokens].
  - destruct Hev as (Hlen & Htot & _). repeat split; try assumption.
    intros Hacc. rewrite known_tokens_app in Htot.
    pose proof (truthy_tokens_value tok) as Hv.
    unfold known_tokens at 3 in Htot. simpl in Htot.
    destruct (truthy_int tok); lia.
  - destruct Hev as (-> & Hneg & -> & Htot). repeat split; try assumption.
    intros Hacc. rewrite known_tokens_app in Htot.
    pose proof (truthy_tokens_value tok) as Hv.
    unfold known_tokens at 2 in Htot. simpl in Htot.
    unfold known_tokens at 1. simpl.
    destruct (truthy_int tok); lia.
Qed.

Lemma add_message_total (r : Role) (text : string) (tok : option Z) (now : Z)
    (c : ConversationContext) :
  0 <= max_messages (config c) ->
  fst (add_message r text tok now c) = Ok tt.
Proof.
  intros Hmax. pose proof (add_message_spec r text tok now c) as Hs.
  destruct (add_message r text tok now c) as [[[]|e] c']; simpl; [reflexivity|].
  destruct Hs as (_ & _ & Hneg & _). lia.
Qed.

(** Two appends into a window with room for one message: the first
    message is evicted and its 5 tokens leave the total. *)
Example add_message_evicts_oldest :
  add_messages
    [ {| append_role := user; append_content := "uno"; append_tokens := Some 5;
         append_now := 0 |};
      {| append_role := assistant; append_content := "due"; append_tokens := Some 7;
         append_now := 1 |} ]
    (init (Some Fixtures.tiny_config))
  = (Ok tt,
     {| config := Fixtures.tiny_config;
        history := [ {| role := assistant; content := "due"; timestamp := 1;
                        tokens := Some 7 |} ];
        total_tokens := 7 |}).
Proof. reflexivity. Qed.

Lemma add_messages_spec (calls : list Append) (c0 : ConversationContext) :
  accounted c0 ->
  match add_messages calls c0 with
  | (Ok _, c) =>
      config c = config c0 /\ accounted c
      /\ (calls <> [] -> len (history c) <= max_messages (config c))
  | (Raise e, _) => e = IndexError /\ max_messages (config c0) < 0
  end.
Proof.
  revert c0. induction calls as [|a calls IH]; intros c0 Hacc.
  - simpl. repeat split; [assumption | congruence].
  - cbn [add_messages].
    pose proof (add_message_spec (append_role a) (append_content a)
                  (append_tokens a) (append_now a) c0) as Hs.
    destruct (add_message _ _ _ _ c0) as [[[]|e] c1].
    + destruct Hs as (Hcfg & Hlen & Hpres).
      specialize (IH c1 (Hpres Hacc)).
      destruct calls as [|b calls].
      * simpl. split; [assumption|]. split; [exact (Hpres Hacc)|].
        intros _. rewrite Hcfg. exact Hlen.
      * destruct (add_messages (b :: calls) c1) as [[[]|e] c2].
        -- destruct IH as (Hcfg2 & Hacc2 & Hlen2).
           split; [congruence|]. split; [assumption|]. intros _.
           apply Hlen2. discriminate.
        -- rewrite Hcfg in IH. exact IH.
    + destruct Hs as (_ & -> & Hneg & _). split; [reflexivity | assumption].
Qed.

(** C2.  For every sequence of [add_message] calls on a conversation
    window, once the last call has completed the history holds at most
    [max_messages] messages and the running token total is the sum of the
    known token counts of the messages still retained.  A call fails to
    complete only with [IndexError] under a negative [max_messages]. *)
Theorem add_message_sequence_invariant
    (cfg : option ConversationConfig) (calls : list Append) (call : Append) :
  match add_messages (calls ++ [call]) (init cfg) with
  | (Ok _, c) =>
      len (history c) <= max_messages (config c)
      /\ total_tokens c = known_tokens (history c)
  | (Raise e, _) =>
      e = IndexError /\ max_messages (config (init cfg)) < 0
  end.
Proof.
  pose proof (add_messages_spec (calls ++ [call]) (init cfg)) as Hs.
  assert (Hinit : accounted (init cfg)) by reflexivity.
  specialize (Hs Hinit).
  destruct (add_messages (calls ++ [call]) (init cfg)) as [[[]|e] c].
  - destruct Hs as (_ & Hacc & Hlen). split; [|exact Hacc].
    apply Hlen. destruct calls; discriminate.
  - exact Hs.
Qed.

(** C8, as stated, fails: with [max_messages = 1], after one
    [add_message] the window is full, and [add_system_prompt] then leaves
    two messages in it. *)
Lemma add_system_prompt_exceeds_max_messages :
  len (history Fixtures.full_tiny_window) = 1
  /\ max_messages (config Fixtures.full_tiny_window) = 1
  /\ len (history (add_system_prompt "Sei un assistente" 1 Fixtures.full_tiny_window)) = 2
  /\ ~ len (history (add_system_prompt "Sei un assistente" 1 Fixtures.full_tiny_window))
       <= max_messages (config (add_system_prompt "Sei un assistente" 1
                                  Fixtures.full_tiny_window)).
Proof. vm_compute. repeat split; congruence. Qed.

(** C8, amended.  With a non-negative [max_messages], [add_message]
    completes and leaves at most [max_messages] messages, whatever the
    window held before, and [clear] leaves none; [add_system_prompt]
    evicts nothing and leaves exactly one message more than before. *)
Theorem mutation_length_bounds (c : ConversationContext) :
  0 <= max_messages (config c) ->
  (forall r text tok now,
      fst (add_message r text tok now c) = Ok tt
      /\ len (history (snd (add_message r text tok now c)))
         <= max_messages (config (snd (add_message r text tok now c))))
  /\ len (history (clear c)) <= max_messages (config (clear c))
  /\ (forall prompt now,
        len (history (add_system_prompt prompt now c)) = len (history c) + 1
        /\ config (add_system_prompt prompt now c) = config c).
Proof.
  intros Hmax. split; [|split].
  - intros r text tok now. split; [apply add_message_total; assumption|].
    pose proof (add_message_spec r text tok now c) as Hs.
    destruct (add_message r text tok now c) as [[[]|e] c']; simpl.
    + destruct Hs as (-> & Hlen & _). exact Hlen.
    + destruct Hs as (_ & _ & Hneg & _). lia.
  - simpl. unfold len; simpl. lia.
  - intros prompt now. simpl. unfold len; simpl. split; [lia | reflexivity].
Qed.

Lemma mutation_length_bounds_witness :
  0 <= max_messages (config Fixtures.full_tiny_window)
  /\ (fst (add_message assistant "salve" (Some 4) 5 Fixtures.full_tiny_window) = Ok tt
      /\ len (history (snd (add_message assistant "salve" (Some 4) 5
                              Fixtures.full_tiny_window)))
         <= max_messages (config (snd (add_message assistant "salve" (Some 4) 5
                                         Fixtures.full_tiny_window))))
  /\ len (history (clear Fixtures.full_tiny_window))
     <= max_messages (config (clear Fixtures.full_tiny_window))
  /\ (len (history (add_system_prompt "Sei un assistente" 1 Fixtures.full_tiny_window))
      = len (history Fixtures.full_tiny_window) + 1
      /\ config (add_system_prompt "Sei un assistente" 1 Fixtures.full_tiny_window)
         = config Fixtures.full_tiny_window).
Proof.
  assert (H : 0 <= max_messages (config Fixtures.full_tiny_window))
    by (vm_compute; discriminate).
  pose proof (mutation_length_bounds Fixtures.full_tiny_window H)
    as (Hadd & Hclear & Hprompt).
  split; [exact H|].
  split; [exact (Hadd assistant "salve" (Some 4) 5)|].
  split; [exact Hclear|].
  exact (Hprompt "Sei un assistente" 1).
Defined.

(** [get_messages] with a positive [last_n] returns the last [last_n]
    messages, and the whole history without [last_n]. *)
Lemma get_messages_positive (n : nat) (c : ConversationContext) :
  (0 < n)%nat ->
  get_messages (Some (Z.of_nat n)) c = last_messages n (history c).
Proof.
  intros Hn. unfold get_messages, last_messages, slice_from, slice_index, len.
  simpl. destruct (Z.eqb_spec (Z.of_nat n) 0) as [H0|_]; [lia|]. simpl.
  destruct (Z.ltb_spec (- Z.of_nat n) 0) as [_|H0]; [|lia].
  f_equal. lia.
Qed.

Lemma get_messages_absent (c : ConversationContext) :
  get_messages None c = history c.
Proof. reflexivity. Qed.

Example get_messages_zero_on_full_window :
  get_messages (Some 0) Fixtures.full_tiny_window
  = [ {| role := user; content := "ciao"; timestamp := 0; tokens := None |} ]
  /\ get_messages (Some 1) Fixtures.full_tiny_window
     = [ {| role := user; content := "ciao"; timestamp := 0; tokens := None |} ].
Proof. split; reflexivity. Qed.

(** C9.  [get_messages(0)] does not return the last zero messages, which
    would be none: [0] is falsy, so the call returns the whole history,
    as if [last_n] were absent. *)
Theorem get_messages_zero_returns_whole_history (c : ConversationContext) :
  get_messages (Some 0) c = history c
  /\ last_messages 0 (history c) = [].
Proof.
  split; [reflexivity|].
  unfold last_messages. rewrite Nat.sub_0_r. apply drop_all.
Qed.

(** ** What the window retains *)

Lemma last_messages_overflow (n : nat) (m : Message) (h : list Message) :
  (n < length (m :: h))%nat -> last_messages n (m :: h) = last_messages n h.
Proof.
  unfold last_messages. simpl. intros Hn.
  replace (S (length h) - n)%nat with (S (length h - n)) by lia. reflexivity.
Qed.

Lemma last_messages_fits (n : nat) (h : list Message) :
  (length h <= n)%nat -> last_messages n h = h.
Proof.
  unfold last_messages. intros Hn.
  replace (length h - n)%nat with 0%nat by lia. reflexivity.
Qed.

(** Under a bound that is not negative the eviction loop completes and
    leaves the latest messages the bound allows. *)
Lemma evict_keeps_latest (max_msgs : Z) (h : list Message) (total : Z) :
  0 <= max_msgs ->
  fst (evict max_msgs h total) = Ok tt
  /\ fst (snd (evict max_msgs h total)) = last_messages (Z.to_nat max_msgs) h.
Proof.
  intros Hmax. revert total. induction h as [|m h IH]; intros total.
  - cbn [evict]. destruct (Z.gtb_spec (len (@nil Message)) max_msgs) as [Hgt|Hle].
    + unfold len in Hgt. simpl in Hgt. lia.
    + split; reflexivity.
  - cbn [evict]. destruct (Z.gtb_spec (len (m :: h)) max_msgs) as [Hgt|Hle].
    + rewrite last_messages_overflow by (unfold len in Hgt; lia). apply IH.
    + cbn [fst snd]. split; [reflexivity|].
      rewrite last_messages_fits by (unfold len in Hle; lia). reflexivity.
Qed.

Lemma add_message_history (r : Role) (text : string) (tok : option Z) (now : Z)
    (c : ConversationContext) :
  history (snd (add_message r text tok now c))
  = fst (snd (evict (max_messages (config c))
                (history c ++ [ {| role := r; content := text; timestamp := now;
                                   tokens := tok |} ])
                (if truthy_int tok then total_tokens c + default 0 tok
                 else total_tokens c))).
Proof.
  unfold add_message, _manage_context_window. cbn [config history total_tokens].
  destruct (evict _ _ _) as [res [h t]]. reflexivity.
Qed.

(** X1.  With a non-negative [max_messages], [add_message] completes and
    the history it leaves is made of the latest [max_messages] messages of
    the former history followed by the new message: eviction is
    oldest-first, and the order of the retained messages is kept. *)
Theorem add_message_keeps_latest (r : Role) (text : string) (tok : option Z) (now : Z)
    (c : ConversationContext) :
  0 <= max_messages (config c) ->
  fst (add_message r text tok now c) = Ok tt
  /\ history (snd (add_message r text tok now c))
     = last_messages (Z.to_nat (max_messages (config c)))
         (history c ++ [ {| role := r; content := text; timestamp := now; tokens := tok |} ]).
Proof.
  intros Hmax. unfold add_message, _manage_context_window. cbn [config history total_tokens].
  pose proof (evict_keeps_latest (max_messages (config c))
                (history c ++ [ {| role := r; content := text; timestamp := now;
                                   tokens := tok |} ])
                (if truthy_int tok then total_tokens c + default 0 tok else total_tokens c)
                Hmax) as [Hok Hlast].
  destruct (evict _ _ _) as [res [h t]]. cbn [fst snd history] in *.
  split; assumption.
Qed.

Lemma add_message_keeps_latest_witness :
  0 <= max_messages (config Fixtures.full_tiny_window)
  /\ history (snd (add_message assistant "salve" (Some 4) 5 Fixtures.full_tiny_window))
     = [ {| role := assistant; content := "salve"; timestamp := 5; tokens := Some 4 |} ].
Proof.
  assert (H : 0 <= max_messages (config Fixtures.full_tiny_window)) by (simpl; lia).
  split; [exact H|].
  exact (proj2 (add_message_keeps_latest assistant "salve" (Some 4) 5
                  Fixtures.full_tiny_window H)).
Defined.

(** X2.  A system prompt put in front of a window that holds at least
    [max_messages - 1] messages does not survive the next [add_message]:
    the eviction removes from the front, so the prompt goes first and the
    history is the one [add_message] alone would have left. *)
Theorem system_prompt_evicted_first (prompt : string) (now0 : Z)
    (r : Role) (text : string) (tok : option Z) (now : Z) (c : ConversationContext) :
  0 <= max_messages (config c) ->
  max_messages (config c) <= len (history c) + 1 ->
  history (snd (add_message r text tok now (add_system_prompt prompt now0 c)))
  = history (snd (add_message r text tok now c)).
Proof.
  intros Hmax Hfull. rewrite !add_message_history.
  cbn [config history total_tokens add_system_prompt].
  rewrite !(proj2 (evict_keeps_latest _ _ _ Hmax)).
  rewrite <- app_comm_cons. apply last_messages_overflow.
  simpl. rewrite length_app. simpl. unfold len in Hfull. lia.
Qed.

Lemma system_prompt_evicted_first_witness :
  0 <= max_messages (config Fixtures.full_tiny_window)
  /\ max_messages (config Fixtures.full_tiny_window)
     <= len (history Fixtures.full_tiny_window) + 1
  /\ history (snd (add_message user "ancora" None 9
                     (add_system_prompt "Sei un assistente" 8 Fixtures.full_tiny_window)))
     = [ {| role := user; content := "ancora"; timestamp := 9; tokens := None |} ].
Proof.
  assert (H1 : 0 <= max_messages (config Fixtures.full_tiny_window)) by (simpl; lia).
  assert (H2 : max_messages (config Fixtures.full_tiny_window)
               <= len (history Fixtures.full_tiny_window) + 1) by (vm_compute; discriminate).
  split; [exact H1|]. split; [exact H2|].
  exact (system_prompt_evicted_first "Sei un assistente" 8 user "ancora" None 9
           Fixtures.full_tiny_window H1 H2).
Defined.

(** ** The three mutations together *)

Lemma mutate_spec (m : Mutation) (c : ConversationContext) :
  match mutate m c with
  | (Ok _, c') => config c' = config c /\ (accounted c -> accounted c')
  | (Raise e, c') =>
      config c' = config c /\ e = IndexError /\ max_messages (config c) < 0
      /\ (accounted c -> accounted c')
  end.
Proof.
  destruct m as [a|prompt now|]; cbn [mutate].
  - pose proof (add_message_spec (append_role a) (append_content a) (append_tokens a)
                  (append_now a) c) as Hs.
    destruct (add_message _ _ _ _ c) as [[[]|e] c']; [|exact Hs].
    destruct Hs as (Hcfg & _ & Hacc). split; assumption.
  - split; [reflexivity|]. unfold accounted, add_system_prompt. cbn [history total_tokens].
    intros ->. unfold known_tokens. simpl. lia.
  - split; [reflexivity|]. intros _. reflexivity.
Qed.

(** X3.  Whatever sequence of [add_message], [add_system_prompt] and
    [clear] calls is applied to a fresh window, the running token total
    stays the sum of the known token counts of the messages in the window,
    also in the state an [IndexError] leaves behind; the configuration
    never changes, and only a negative [max_messages] makes a call fail. *)
Theorem mutations_keep_accounting (cfg : option ConversationConfig) (ms : list Mutation) :
  total_tokens (snd (mutations ms (init cfg)))
  = known_tokens (history (snd (mutations ms (init cfg))))
  /\ config (snd (mutations ms (init cfg))) = config (init cfg)
  /\ (forall e, fst (mutations ms (init cfg)) = Raise e ->
                e = IndexError /\ max_messages (config (init cfg)) < 0).
Proof.
  assert (Hgen : forall c0, accounted c0 ->
            accounted (snd (mutations ms c0))
            /\ config (snd (mutations ms c0)) = config c0
            /\ (forall e, fst (mutations ms c0) = Raise e ->
                          e = IndexError /\ max_messages (config c0) < 0)).
  { induction ms as [|m ms IH]; intros c0 Hacc.
    - simpl. repeat split; [assumption | discriminate | discriminate].
    - cbn [mutations]. pose proof (mutate_spec m c0) as Hs.
      destruct (mutate m c0) as [[[]|e] c1].
      + destruct Hs as (Hcfg & Hpres).
        destruct (IH c1 (Hpres Hacc)) as (Ha & Hc & He).
        rewrite Hcfg in Hc, He. split; [exact Ha|]. split; [exact Hc | exact He].
      + destruct Hs as (Hcfg & -> & Hneg & Hpres). cbn [fst snd].
        split; [exact (Hpres Hacc)|]. split; [exact Hcfg|].
        intros e' [= <-]. split; [reflexivity | assumption]. }
  apply Hgen. reflexivity.
Qed.

(** X4.  In the dictionary [get_stats] returns, the three per-role counts
    add up to [total_messages], which is the length of the history: every
    message is counted under exactly one role. *)
Theorem get_stats_counts_add_up (c : ConversationContext) :
  stats_total_messages (get_stats c) = len (history c)
  /\ stats_user_messages (get_stats c) + stats_assistant_messages (get_stats c)
     + stats_system_messages (get_stats c)
     = stats_total_messages (get_stats c)
  /\ 0 <= stats_user_messages (get_stats c)
  /\ 0 <= stats_assistant_messages (get_stats c)
  /\ 0 <= stats_system_messages (get_stats c).
Proof.
  unfold get_stats. cbn [stats_total_messages stats_user_messages
                         stats_assistant_messages stats_system_messages].
  split; [reflexivity|]. unfold len.
  induction (history c) as [|m h IH]; [simpl; lia|].
  cbn [count_role fold_right length]. fold (count_role user h) (count_role assistant h)
    (count_role system h).
  destruct (role m); simpl Role_eqb; cbv iota; lia.
Qed.

(** X5.  For a positive [n], [get_messages(n)] returns the last [n]
    messages (all of them when the history is shorter), in order, and
    [get_messages(-n)] returns the history without its first [n]
    messages. *)
Theorem get_messages_nonzero (n : Z) (c : ConversationContext) :
  0 < n ->
  get_messages (Some n) c = last_messages (Z.to_nat n) (history c)
  /\ len (get_messages (Some n) c) = Z.min n (len (history c))
  /\ get_messages (Some (- n)) c = drop (Z.to_nat n) (history c).
Proof.
  intros Hn.
  assert (Hpos : get_messages (Some n) c = last_messages (Z.to_nat n) (history c)).
  { unfold get_messages, last_messages, slice_from, slice_index, len. simpl.
    destruct (Z.eqb_spec n 0) as [H0|_]; [lia|]. simpl.
    destruct (Z.ltb_spec (- n) 0) as [_|H0]; [|lia]. f_equal. lia. }
  split; [exact Hpos|]. split.
  - rewrite Hpos. unfold last_messages, len. rewrite length_drop. lia.
  - unfold get_messages, slice_from, slice_index, len. simpl.
    destruct (Z.eqb_spec (- n) 0) as [H0|_]; [lia|]. simpl.
    rewrite Z.opp_involutive.
    destruct (Z.ltb_spec n 0) as [H0|_]; [lia|].
    destruct (Z.le_gt_cases n (Z.of_nat (length (history c)))) as [Hle|Hgt].
    + f_equal. lia.
    + replace (Z.to_nat (Z.min _ _)) with (length (history c)) by lia.
      rewrite !drop_ge by lia. reflexivity.
Qed.

Lemma get_messages_nonzero_witness :
  0 < 1
  /\ get_messages (Some 1)
       (add_system_prompt "Sei un assistente" 8 Fixtures.full_tiny_window)
     = history Fixtures.full_tiny_window
  /\ get_messages (Some (- 1))
       (add_system_prompt "Sei un assistente" 8 Fixtures.full_tiny_window)
     = history Fixtures.full_tiny_window.
Proof.
  assert (H : 0 < 1) by lia.
  split; [exact H|].
  destruct (get_messages_nonzero 1
              (add_system_prompt "Sei un assistente" 8 Fixtures.full_tiny_window) H)
    as (Hpos & _ & Hneg).
  split; [exact Hpos | exact Hneg].
Defined.

Lemma last_map {A B : Type} (f : A -> B) (l : list A) (x : A) :
  last l = Some x -> last (map f l) = Some (f x).
Proof.
  induction l as [|a l IH]; [discriminate|].
  destruct l as [|b l]; simpl in *; [congruence | exact IH].
Qed.

(** X6.  With room for at least one message, the message [add_message]
    appends is the last of the history it leaves, and its role and content
    close the list [get_context_for_api] hands to a backend. *)
Theorem add_message_is_last (r : Role) (text : string) (tok : option Z) (now : Z)
    (c : ConversationContext) :
  1 <= max_messages (config c) ->
  last (history (snd (add_message r text tok now c)))
  = Some {| role := r; content := text; timestamp := now; tokens := tok |}
  /\ last (get_context_for_api (snd (add_message r text tok now c))) = Some (r, text).
Proof.
  intros Hmax.
  assert (Hlast : last (history (snd (add_message r text tok now c)))
                  = Some {| role := r; content := text; timestamp := now; tokens := tok |}).
  { assert (H0 : 0 <= max_messages (config c)) by lia.
    rewrite add_message_history.
    rewrite (proj2 (evict_keeps_latest _ _ _ H0)).
    unfold last_messages. rewrite length_app. simpl.
    rewrite drop_app_le by lia. apply last_snoc. }
  split; [exact Hlast|].
  unfold get_context_for_api.
  apply (last_map (fun msg => (role msg, content msg)) _ _ Hlast).
Qed.

Lemma add_message_is_last_witness :
  1 <= max_messages (config Fixtures.full_tiny_window)
  /\ last (get_context_for_api
             (snd (add_message assistant "salve" (Some 4) 5 Fixtures.full_tiny_window)))
     = Some (assistant, "salve"%string).
Proof.
  assert (H : 1 <= max_messages (config Fixtures.full_tiny_window)) by (simpl; lia).
  split; [exact H|].
  exact (proj2 (add_message_is_last assistant "salve" (Some 4) 5
                  Fixtures.full_tiny_window H)).
Defined.

End ConversationFacts.

Module SemanticCacheFacts.
Import SemanticCache PyFacts.

(** ** Floats through their specification *)

#[local] Hint Constructors zero_or_nan : core.

Lemma is_zero_spec (x : float) : is_zero x = true -> exists s, Prim2SF x = S754_zero s.
Proof.
  unfold is_zero. rewrite FloatAxioms.eqb_spec.
  change (Prim2SF zero) with (S754_zero false).
  destruct (Prim2SF x) as [s|s| |s m e]; try discriminate; [eauto| |];
    destruct s; discriminate.
Qed.

Lemma mul_zero_or_nan_l (x y : spec_float) : zero_or_nan x -> zero_or_nan (SF64mul x y).
Proof. intros [s|]; destruct y; simpl; auto. Qed.

Lemma mul_zero_or_nan_r (x y : spec_float) : zero_or_nan y -> zero_or_nan (SF64mul x y).
Proof. intros [s|]; destruct x; simpl; auto. Qed.

Lemma add_zero_or_nan (x y : spec_float) :
  zero_or_nan x -> zero_or_nan y -> zero_or_nan (SF64add x y).
Proof. intros [s|] [s'|]; simpl; auto. destruct s, s'; auto. Qed.

Lemma sqrt_zero (s : bool) : SF64sqrt (S754_zero s) = S754_zero s.
Proof. reflexivity. Qed.

Lemma div_zero_or_nan (x y : spec_float) :
  zero_or_nan x -> zero_or_nan y -> SF64div x y = S754_nan.
Proof. intros [s|] [s'|]; reflexivity. Qed.

Lemma div_by_zero_or_nan (x y : spec_float) :
  zero_or_nan y -> SF64div x y = S754_nan \/ exists s, SF64div x y = S754_infinity s.
Proof. intros [s|]; destruct x; simpl; eauto. Qed.

Lemma float_is_nan (x : float) : Prim2SF x = S754_nan -> x = nan.
Proof. intros Hx. apply Prim2SF_inj. rewrite Hx. reflexivity. Qed.

Lemma float_is_infinity (x : float) (s : bool) :
  Prim2SF x = S754_infinity s -> x = infinity \/ x = neg_infinity.
Proof.
  intros Hx. destruct s; [right|left]; apply Prim2SF_inj; rewrite Hx; reflexivity.
Qed.

(** [nan] fails both comparisons of the lookup. *)
Lemma nan_never_matches (best thr : float) :
  float_gt nan best && float_ge nan thr = false.
Proof.
  unfold float_gt. rewrite FloatAxioms.ltb_spec.
  change (Prim2SF nan) with S754_nan.
  destruct (Prim2SF best) as [s|s| |s m e]; reflexivity.
Qed.

(** ** Dot products and norms *)

Lemma dot_from_same_length (a b : list float) :
  length a = length b -> forall acc, exists d, dot_from acc a b = Some d.
Proof.
  revert b. induction a as [|x a IH]; intros [|y b] Hlen acc; try discriminate.
  - exists acc. reflexivity.
  - simpl. apply IH. simpl in Hlen. lia.
Qed.

Lemma dot_same_length (a b : list float) :
  length a = length b -> exists d, dot a b = Some d.
Proof. intros Hlen. apply dot_from_same_length, Hlen. Qed.

Lemma dot_from_zero_l (a b : list float) :
  zero_vector a = true ->
  forall acc d, zero_or_nan (Prim2SF acc) -> dot_from acc a b = Some d ->
                zero_or_nan (Prim2SF d).
Proof.
  revert b. induction a as [|x a IH]; intros [|y b] Hz acc d Hacc Hd;
    try discriminate.
  - injection Hd as <-. exact Hacc.
  - simpl in Hz. apply andb_prop in Hz as [Hx Ha].
    simpl in Hd. eapply IH; [exact Ha | | exact Hd].
    rewrite add_spec, mul_spec. apply add_zero_or_nan; [exact Hacc|].
    apply mul_zero_or_nan_l. destruct (is_zero_spec x Hx) as [s ->]. auto.
Qed.

Lemma dot_from_zero_r (a b : list float) :
  zero_vector b = true ->
  forall acc d, zero_or_nan (Prim2SF acc) -> dot_from acc a b = Some d ->
                zero_or_nan (Prim2SF d).
Proof.
  revert b. induction a as [|x a IH]; intros [|y b] Hz acc d Hacc Hd;
    try discriminate.
  - injection Hd as <-. exact Hacc.
  - simpl in Hz. apply andb_prop in Hz as [Hy Hb].
    simpl in Hd. eapply IH; [exact Hb | | exact Hd].
    rewrite add_spec, mul_spec. apply add_zero_or_nan; [exact Hacc|].
    apply mul_zero_or_nan_r. destruct (is_zero_spec y Hy) as [s ->]. auto.
Qed.

Lemma sum_squares_from_zero (a : list float) :
  zero_vector a = true ->
  forall acc, (exists s, Prim2SF acc = S754_zero s) ->
    exists s, Prim2SF (fold_left (fun acc x => (acc + x * x)%float) a acc) = S754_zero s.
Proof.
  induction a as [|x a IH]; intros Hz acc Hacc; [exact Hacc|].
  simpl in Hz. apply andb_prop in Hz as [Hx Ha]. simpl. apply (IH Ha).
  rewrite add_spec, mul_spec.
  destruct Hacc as [s ->]. destruct (is_zero_spec x Hx) as [s' ->].
  destruct s, s'; simpl; eauto.
Qed.

(** The norm of a zero vector is zero. *)
Lemma norm_zero_vector (a : list float) :
  zero_vector a = true -> exists s, Prim2SF (norm a) = S754_zero s.
Proof.
  intros Hz. unfold norm, sum_squares. rewrite sqrt_spec.
  destruct (sum_squares_from_zero a Hz 0%float) as [s ->]; [exists false; reflexivity|].
  exists s. reflexivity.
Qed.

(** C4, as stated, fails: on the zero vector and a unit vector the
    computation returns [nan], not [0]. *)
Lemma cosine_similarity_zero_vector_is_nan :
  _cosine_similarity [0%float] [1%float] = Ok nan
  /\ _cosine_similarity [0%float] [1%float] <> Ok 0%float.
Proof.
  assert (H : _cosine_similarity [0%float] [1%float] = Ok nan) by reflexivity.
  split; [exact H|]. rewrite H. intros Heq.
  apply (f_equal (fun r => match r with Ok f => is_nan f | Raise _ => false end)) in Heq.
  vm_compute in Heq. discriminate.
Qed.

(** C4, amended.  For two embeddings of the same dimension the
    computation returns the float64 quotient of the dot product by the
    product of the norms, each of them as computed, and has no branch for
    a zero norm.  When one of the computed norms is zero the result is
    never [0]: it is [nan] or an infinity; when one of the vectors is a
    zero vector it is [nan].  [nan] fails both comparisons of the lookup,
    so an entry whose similarity is [nan] is never selected. *)
Theorem cosine_similarity_zero_norm (emb1 emb2 : list float) :
  length emb1 = length emb2 ->
  exists d, dot emb1 emb2 = Some d
    /\ _cosine_similarity emb1 emb2 = Ok (d / (norm emb1 * norm emb2))%float
    /\ (is_zero (norm emb1) || is_zero (norm emb2) = true ->
        exists s, _cosine_similarity emb1 emb2 = Ok s
                  /\ is_zero s = false
                  /\ (s = nan \/ s = infinity \/ s = neg_infinity))
    /\ (zero_vector emb1 || zero_vector emb2 = true ->
        _cosine_similarity emb1 emb2 = Ok nan)
    /\ (forall best thr, float_gt nan best && float_ge nan thr = false).
Proof.
  intros Hlen. destruct (dot_same_length emb1 emb2 Hlen) as [d Hd].
  exists d. split; [exact Hd|].
  assert (Hcos : _cosine_similarity emb1 emb2 = Ok (d / (norm emb1 * norm emb2))%float).
  { unfold _cosine_similarity. rewrite Hd. reflexivity. }
  split; [exact Hcos|]. split; [|split; [|apply nan_never_matches]].
  - intros Hnorm. rewrite Hcos. eexists. split; [reflexivity|].
    assert (Hprod : zero_or_nan (Prim2SF (norm emb1 * norm emb2)%float)).
    { rewrite mul_spec. apply orb_prop in Hnorm as [Hz|Hz];
        destruct (is_zero_spec _ Hz) as [s Hs]; rewrite Hs;
        [apply mul_zero_or_nan_l | apply mul_zero_or_nan_r]; auto. }
    pose proof (div_by_zero_or_nan (Prim2SF d) _ Hprod) as Hdiv.
    rewrite <- div_spec in Hdiv.
    destruct Hdiv as [Hnan | [s Hinf]].
    + rewrite (float_is_nan _ Hnan). split; [reflexivity | left; reflexivity].
    + split.
      * unfold is_zero. rewrite FloatAxioms.eqb_spec, Hinf. destruct s; reflexivity.
      * right. apply (float_is_infinity _ s Hinf).
  - intros Hzero. rewrite Hcos. f_equal. apply float_is_nan.
    rewrite div_spec. apply div_zero_or_nan.
    + apply orb_prop in Hzero as [Hz|Hz];
        [eapply dot_from_zero_l | eapply dot_from_zero_r]; try exact Hz; try exact Hd;
        change (Prim2SF 0) with (S754_zero false); auto.
    + rewrite mul_spec. apply orb_prop in Hzero as [Hz|Hz];
        destruct (norm_zero_vector _ Hz) as [s ->];
        [apply mul_zero_or_nan_l | apply mul_zero_or_nan_r]; auto.
Qed.

Lemma cosine_similarity_unit : _cosine_similarity [1%float] [1%float] = Ok 1%float.
Proof. reflexivity. Qed.

(** A norm that underflows to zero: the square of [2^-600] is below the
    smallest float.  Against itself the vector has similarity [nan], and
    against [2^500] an infinite one, which passes every threshold. *)
Example cosine_similarity_underflow :
  norm [0x1p-600%float] = 0%float
  /\ _cosine_similarity [0x1p-600%float] [0x1p-600%float] = Ok nan
  /\ _cosine_similarity [0x1p-600%float] [0x1p500%float] = Ok infinity
  /\ float_gt infinity 0 && float_ge infinity 0x1.e666666666666p-1 = true.
Proof. repeat split; reflexivity. Qed.

(** The zero vector against the vector (3, 4). *)
Lemma cosine_similarity_zero_norm_witness :
  length [0%float; 0%float] = length [3%float; 4%float]
  /\ is_zero (norm [0%float; 0%float]) || is_zero (norm [3%float; 4%float]) = true
  /\ zero_vector [0%float; 0%float] || zero_vector [3%float; 4%float] = true
  /\ (exists d, dot [0%float; 0%float] [3%float; 4%float] = Some d
        /\ _cosine_similarity [0%float; 0%float] [3%float; 4%float]
           = Ok (d / (norm [0%float; 0%float] * norm [3%float; 4%float]))%float)
  /\ (exists s, _cosine_similarity [0%float; 0%float] [3%float; 4%float] = Ok s
                /\ is_zero s = false
                /\ (s = nan \/ s = infinity \/ s = neg_infinity))
  /\ _cosine_similarity [0%float; 0%float] [3%float; 4%float] = Ok nan
  /\ (forall best thr, float_gt nan best && float_ge nan thr = false).
Proof.
  assert (Hlen : length [0%float; 0%float] = length [3%float; 4%float]) by reflexivity.
  destruct (cosine_similarity_zero_norm [0%float; 0%float] [3%float; 4%float] Hlen)
    as (d & Hd & Hcos & Hnorm & Hzero & Hnan).
  split; [exact Hlen|].
  split; [reflexivity|].
  split; [reflexivity|].
  split; [exists d; split; [exact Hd | exact Hcos]|].
  split; [apply Hnorm; reflexivity|].
  split; [apply Hzero; reflexivity | exact Hnan].
Defined.



(** ** Pruning and trimming *)

Lemma cleanup_fields (now : Z) (sc : SemanticCache) :
  threshold (_cleanup_old_entries now sc) = threshold sc
  /\ max_entries (_cleanup_old_entries now sc) = max_entries sc
  /\ ttl (_cleanup_old_entries now sc) = ttl sc
  /\ _embeddings_available (_cleanup_old_entries now sc) = _embeddings_available sc.
Proof.
  unfold _cleanup_old_entries.
  destruct (len _ >? max_entries sc); repeat split.
Qed.

(** Whatever survives the cleanup was in the cache and is younger than
    the time-to-live. *)
Lemma cleanup_keeps_fresh (now : Z) (sc : SemanticCache) (e : CacheEntry) :
  e ∈ cache (_cleanup_old_entries now sc) ->
  e ∈ cache sc /\ now - entry_timestamp e < ttl sc.
Proof.
  unfold _cleanup_old_entries.
  set (kept := List.filter _ (cache sc)).
  assert (Hkept : forall x, x ∈ kept -> x ∈ cache sc /\ now - entry_timestamp x < ttl sc).
  { intros x Hx. apply list_elem_of_In, filter_In in Hx as [Hin Hlt].
    split; [apply list_elem_of_In, Hin | apply Z.ltb_lt, Hlt]. }
  destruct (len kept >? max_entries sc); simpl; intros He; apply Hkept.
  - unfold slice_to in He. apply (subseteq_take _ _) in He.
    unfold sort_by_reverse in He. rewrite sort_by_perm in He. exact He.
  - exact He.
Qed.

Lemma cleanup_all_fresh (now : Z) (sc : SemanticCache) :
  Forall (fun e => now - entry_timestamp e < ttl sc) (cache (_cleanup_old_entries now sc)).
Proof.
  apply Forall_forall. intros e He. apply (cleanup_keeps_fresh now sc e He).
Qed.

(** The entry the lookup loop selects is the one stored at the position it
    reports. *)
Lemma find_best_sound (qe : list float) (thr : float) (entries : list CacheEntry) :
  forall (pre : list CacheEntry) (best : option (nat * CacheEntry)) (bs : float)
         (i : nat) (e : CacheEntry),
    (forall j x, best = Some (j, x) -> (pre ++ entries) !! j = Some x) ->
    find_best qe thr entries (length pre) best bs = Ok (Some (i, e)) ->
    (pre ++ entries) !! i = Some e.
Proof.
  induction entries as [|entry rest IH]; intros pre best bs i e Hbest Hfind.
  - simpl in Hfind. injection Hfind as Hfind. apply Hbest, Hfind.
  - simpl in Hfind.
    destruct (_cosine_similarity qe (embedding entry)) as [similarity|err];
      [|discriminate].
    replace (pre ++ entry :: rest) with ((pre ++ [entry]) ++ rest) in *
      by (rewrite <- app_assoc; reflexivity).
    replace (S (length pre)) with (length (pre ++ [entry])) in Hfind
      by (rewrite length_app; simpl; lia).
    destruct (float_gt similarity bs && float_ge similarity thr).
    + eapply IH; [|exact Hfind].
      intros j x [= <- <-]. rewrite lookup_app_l by (rewrite length_app; simpl; lia).
      rewrite lookup_app_r by lia. rewrite Nat.sub_diag. reflexivity.
    + eapply IH; [|exact Hfind]. exact Hbest.
Qed.

(** C5.  When [get_cached_response] returns a response, the similarity
    search ran on the cache as the cleanup left it, where every entry is
    younger than the time-to-live, and the response is that of an entry of
    the cache whose age is below the time-to-live: an expired entry is never
    the source of the answer, whatever its similarity with the query. *)
Theorem get_cached_response_never_stale `{Embedder}
    (q : string) (now : Z) (sc sc' : SemanticCache) (r : string) :
  get_cached_response q now sc = (Ok (Some r), sc') ->
  Forall (fun e => now - entry_timestamp e < ttl sc)
    (cache (_cleanup_old_entries now sc))
  /\ exists (query_embedding : list float) (i : nat) (best_match : CacheEntry),
      find_best query_embedding (threshold sc)
        (cache (_cleanup_old_entries now sc)) 0 None 0%float
      = Ok (Some (i, best_match))
      /\ cache (_cleanup_old_entries now sc) !! i = Some best_match
      /\ best_match ∈ cache sc
      /\ now - entry_timestamp best_match < ttl sc
      /\ response best_match = r
      /\ cache sc' = alter add_hit i (cache (_cleanup_old_entries now sc)).
Proof.
  intros Hget. split; [apply cleanup_all_fresh|].
  unfold get_cached_response in Hget.
  destruct (negb (_embeddings_available sc)); [discriminate|].
  destruct (_get_embedding (_cleanup_old_entries now sc) q) as [qe|]; [|discriminate].
  destruct (cleanup_fields now sc) as (Hthr & _).
  rewrite Hthr in Hget.
  destruct (find_best qe (threshold sc) (cache (_cleanup_old_entries now sc)) 0 None 0%float)
    as [[[i best_match]|]|err] eqn:Hfind; try discriminate.
  injection Hget as Hr Hsc'.
  assert (Hlook : cache (_cleanup_old_entries now sc) !! i = Some best_match).
  { apply (find_best_sound qe (threshold sc) _ [] None 0%float i best_match);
      [discriminate | exact Hfind]. }
  exists qe, i, best_match. split; [exact Hfind|]. split; [exact Hlook|].
  apply list_elem_of_lookup_2 in Hlook.
  destruct (cleanup_keeps_fresh now sc best_match Hlook) as [Hin Hfresh].
  repeat split; try assumption. rewrite <- Hsc'. reflexivity.
Qed.

(** The lookup on a cache that holds, once cleaned, a single entry with
    the embedding of the query: the entry is a hit. *)
Lemma find_best_unit_entry (resp : string) (created h : Z) :
  find_best [1%float] 0x1.e666666666666p-1%float [Fixtures.entry resp created h] 0 None 0%float
  = Ok (Some (0%nat, Fixtures.entry resp created h)).
Proof.
  unfold find_best.
  change (embedding (Fixtures.entry resp created h)) with [1%float].
  rewrite cosine_similarity_unit. reflexivity.
Qed.

Lemma get_cached_response_after_cleanup
    (q resp : string) (now capacity created h : Z)
    (entries : list CacheEntry) :
  _cleanup_old_entries now (Fixtures.cache_of capacity entries)
  = Fixtures.cache_of capacity [Fixtures.entry resp created h] ->
  @get_cached_response Fixtures.constant_embedder q now (Fixtures.cache_of capacity entries)
  = (Ok (Some resp),
     Fixtures.cache_of capacity [Fixtures.entry resp created (h + 1)]).
Proof.
  intros Hclean. unfold get_cached_response.
  change (negb (_embeddings_available (Fixtures.cache_of capacity entries)))
    with false. cbv iota.
  rewrite Hclean.
  change (@_get_embedding Fixtures.constant_embedder (Fixtures.cache_of capacity [Fixtures.entry resp created h]) q)
    with (Some [1%float]). cbv iota.
  change (threshold (Fixtures.cache_of capacity [Fixtures.entry resp created h]))
    with 0x1.e666666666666p-1%float.
  change (cache (Fixtures.cache_of capacity [Fixtures.entry resp created h]))
    with [Fixtures.entry resp created h].
  rewrite find_best_unit_entry. reflexivity.
Qed.

(** An expired entry with the very embedding of the query (similarity 1)
    is passed over: the answer comes from the fresh entry. *)
Lemma get_cached_response_never_stale_witness :
  @get_cached_response Fixtures.constant_embedder "ciao" 120
    (Fixtures.cache_of 1000 [Fixtures.entry "vecchia" 0 7; Fixtures.entry "nuova" 100 0])
  = (Ok (Some "nuova"%string), Fixtures.cache_of 1000 [Fixtures.entry "nuova" 100 1])
  /\ Forall (fun e => 120 - entry_timestamp e < 50)
       [Fixtures.entry "nuova" 100 0]
  /\ exists (query_embedding : list float) (i : nat) (best_match : CacheEntry),
      find_best query_embedding 0x1.e666666666666p-1%float [Fixtures.entry "nuova" 100 0] 0 None 0%float
      = Ok (Some (i, best_match))
      /\ [Fixtures.entry "nuova" 100 0] !! i = Some best_match
      /\ best_match ∈ [Fixtures.entry "vecchia" 0 7; Fixtures.entry "nuova" 100 0]
      /\ 120 - entry_timestamp best_match < 50
      /\ response best_match = "nuova"%string
      /\ [Fixtures.entry "nuova" 100 1]
         = alter add_hit i [Fixtures.entry "nuova" 100 0].
Proof.
  assert (Hget :
    @get_cached_response Fixtures.constant_embedder "ciao" 120
      (Fixtures.cache_of 1000 [Fixtures.entry "vecchia" 0 7; Fixtures.entry "nuova" 100 0])
    = (Ok (Some "nuova"%string), Fixtures.cache_of 1000 [Fixtures.entry "nuova" 100 1])).
  { apply (get_cached_response_after_cleanup "ciao" "nuova" 120 1000 100 0).
    reflexivity. }
  split; [exact Hget|].
  exact (@get_cached_response_never_stale Fixtures.constant_embedder "ciao" 120 _ _ "nuova" Hget).
Defined.

(** C7, as stated, fails for a cache built with a negative capacity:
    with [max_entries = -1] and three fresh entries, the trimming
    [cache[:-1]] drops the last entry of the sorted list only, and two
    entries stay, more than [max_entries]. *)
Lemma cleanup_negative_capacity :
  max_entries Fixtures.negative_capacity = -1
  /\ cache (_cleanup_old_entries 120 Fixtures.negative_capacity)
     = [Fixtures.entry "b" 100 5; Fixtures.entry "c" 100 3]
  /\ ~ len (cache (_cleanup_old_entries 120 Fixtures.negative_capacity))
       <= max_entries Fixtures.negative_capacity.
Proof.
  split; [reflexivity|]. split; [reflexivity|].
  vm_compute. intros H. apply H. reflexivity.
Qed.

(** C7, amended.  For a capacity [max_entries] that is not negative,
    after [_cleanup_old_entries] (pruning by age, then trimming to
    capacity) the cache holds as many entries as survived the pruning, or
    [max_entries] of them when more survived, hence at most
    [max_entries]; when no more than [max_entries] survived the cache is
    the list of survivors itself; the survivors are the retained entries
    together with the discarded ones, and no discarded entry has more hits
    than a retained one. *)
Theorem cleanup_retains_most_used (now : Z) (sc : SemanticCache) :
  0 <= max_entries sc ->
  len (cache (_cleanup_old_entries now sc))
  = Z.min (len (List.filter (fun e => now - entry_timestamp e <? ttl sc) (cache sc)))
          (max_entries sc)
  /\ len (cache (_cleanup_old_entries now sc)) <= max_entries sc
  /\ (len (List.filter (fun e => now - entry_timestamp e <? ttl sc) (cache sc))
        <= max_entries sc ->
      cache (_cleanup_old_entries now sc)
      = List.filter (fun e => now - entry_timestamp e <? ttl sc) (cache sc))
  /\ exists discarded : list CacheEntry,
      List.filter (fun e => now - entry_timestamp e <? ttl sc) (cache sc)
        ≡ₚ cache (_cleanup_old_entries now sc) ++ discarded
      /\ forall r d, r ∈ cache (_cleanup_old_entries now sc) -> d ∈ discarded ->
                     hits d <= hits r.
Proof.
  intros Hcap. unfold _cleanup_old_entries.
  set (kept := List.filter _ (cache sc)).
  destruct (Z.gtb_spec (len kept) (max_entries sc)) as [Hgt|Hle]; simpl.
  - set (sorted := sort_by_reverse hits kept).
    assert (Hperm : kept ≡ₚ sorted).
    { unfold sorted, sort_by_reverse. symmetry. apply sort_by_perm. }
    assert (Hlen : len sorted = len kept).
    { unfold len. rewrite (Permutation_length Hperm). reflexivity. }
    split; [rewrite slice_to_length_min by exact Hcap; lia|].
    split; [apply slice_to_length, Hcap|].
    split; [lia|].
    exists (drop (slice_index sorted (max_entries sc)) sorted). split.
    + rewrite <- slice_to_from. exact Hperm.
    + intros r d Hr Hd.
      pose proof (sorted_take_drop (fun x => - hits x) sorted
                    (slice_index sorted (max_entries sc)) r d
                    (sort_by_sorted _ kept) Hr Hd) as Hkey.
      simpl in Hkey. lia.
  - split; [lia|]. split; [exact Hle|]. split; [reflexivity|]. exists []. split.
    + rewrite app_nil_r. reflexivity.
    + intros r d _ Hd. inversion Hd.
Qed.

(** Three fresh entries with 1, 5 and 3 hits in a cache of capacity 2: the
    entries with 5 and 3 hits stay. *)
Lemma cleanup_retains_most_used_example :
  cache (_cleanup_old_entries 120 Fixtures.three_entries)
  = [Fixtures.entry "b" 100 5; Fixtures.entry "c" 100 3].
Proof. reflexivity. Qed.

Lemma cleanup_retains_most_used_witness :
  0 <= max_entries Fixtures.three_entries
  /\ len (cache (_cleanup_old_entries 120 Fixtures.three_entries))
     = Z.min (len (List.filter
                     (fun e => 120 - entry_timestamp e <? ttl Fixtures.three_entries)
                     (cache Fixtures.three_entries)))
             (max_entries Fixtures.three_entries)
  /\ len (cache (_cleanup_old_entries 120 Fixtures.three_entries))
     <= max_entries Fixtures.three_entries
  /\ (len (List.filter (fun e => 120 - entry_timestamp e <? ttl Fixtures.three_entries)
             (cache Fixtures.three_entries))
        <= max_entries Fixtures.three_entries ->
      cache (_cleanup_old_entries 120 Fixtures.three_entries)
      = List.filter (fun e => 120 - entry_timestamp e <? ttl Fixtures.three_entries)
          (cache Fixtures.three_entries))
  /\ exists discarded : list CacheEntry,
      List.filter (fun e => 120 - entry_timestamp e <? ttl Fixtures.three_entries)
        (cache Fixtures.three_entries)
        ≡ₚ cache (_cleanup_old_entries 120 Fixtures.three_entries) ++ discarded
      /\ forall r d, r ∈ cache (_cleanup_old_entries 120 Fixtures.three_entries) ->
                     d ∈ discarded -> hits d <= hits r.
Proof.
  assert (Hcap : 0 <= max_entries Fixtures.three_entries) by (simpl; lia).
  split; [exact Hcap|].
  exact (cleanup_retains_most_used 120 Fixtures.three_entries Hcap).
Defined.

(** ** Storing and finding again *)

Lemma cosine_similarity_defined (qe emb : list float) :
  length emb = length qe -> exists s, _cosine_similarity qe emb = Ok s.
Proof.
  intros Hlen. destruct (dot_same_length qe emb (eq_sym Hlen)) as [d Hd].
  unfold _cosine_similarity. rewrite Hd. eauto.
Qed.

(** Once the loop holds a match it ends with one, as long as the
    embeddings it meets have the dimension of the query. *)
Lemma find_best_stays (qe : list float) (thr : float) (entries : list CacheEntry) :
  forall (i : nat) (b : nat * CacheEntry) (bs : float),
    Forall (fun en => length (embedding en) = length qe) entries ->
    exists b', find_best qe thr entries i (Some b) bs = Ok (Some b').
Proof.
  induction entries as [|en rest IH]; intros i b bs Hdim; [simpl; eauto|].
  apply Forall_cons in Hdim as [Hen Hrest]. cbn [find_best].
  destruct (cosine_similarity_defined qe (embedding en) Hen) as [s ->].
  destruct (float_gt s bs && float_ge s thr); apply IH; assumption.
Qed.

(** The loop ends with a match when one of the entries has with the query
    a similarity that is positive and at least the threshold. *)
Lemma find_best_finds (qe : list float) (thr : float) (entries : list CacheEntry) :
  forall (i : nat) (best : option (nat * CacheEntry)) (bs : float),
    (best = None -> bs = 0%float) ->
    Forall (fun en => length (embedding en) = length qe) entries ->
    (exists en s, en ∈ entries /\ _cosine_similarity qe (embedding en) = Ok s
                  /\ float_gt s 0 = true /\ float_ge s thr = true) ->
    exists b', find_best qe thr entries i best bs = Ok (Some b').
Proof.
  induction entries as [|en rest IH];
    intros i best bs Hinv Hdim (good & s & Hin & Hgood & Hpos & Hthr).
  { inversion Hin. }
  apply Forall_cons in Hdim as [Hen Hrest]. cbn [find_best].
  apply elem_of_cons in Hin as [<-|Hin].
  - rewrite Hgood, Hthr, andb_true_r.
    destruct (float_gt s bs) eqn:Hgt; [apply find_best_stays, Hrest|].
    destruct best as [b|]; [apply find_best_stays, Hrest|].
    rewrite (Hinv eq_refl) in Hgt. congruence.
  - destruct (cosine_similarity_defined qe (embedding en) Hen) as [s' ->].
    destruct (float_gt s' bs && float_ge s' thr).
    + apply IH; eauto 10. discriminate.
    + apply IH; eauto 10.
Qed.

Lemma filter_all {A : Type} (f : A -> bool) (l : list A) :
  Forall (fun x => f x = true) l -> List.filter f l = l.
Proof.
  induction 1 as [|x l Hx _ IH]; [reflexivity|]. simpl. rewrite Hx, IH. reflexivity.
Qed.

Lemma cache_response_stores `{Embedder} (q resp : string) (now : Z)
    (sc : SemanticCache) (e : list float) :
  _embeddings_available sc = true -> encode q = Some e ->
  cache_response q resp now sc = set_cache (cache sc ++ [new_entry q resp e now]) sc.
Proof.
  intros Hav Henc. unfold cache_response, _get_embedding. rewrite Hav. cbn [negb].
  rewrite Henc. reflexivity.
Qed.

(** The same query stored and looked up with a threshold of 1.0, when
    the model embeds it to (1, 2): the similarity of the vector with
    itself comes out as 0.9999999999999998, and the lookup misses. *)
Example lookup_misses_at_threshold_one :
  _cosine_similarity [1%float; 2%float] [1%float; 2%float]
  = Ok 0x1.ffffffffffffep-1%float
  /\ fst (@get_cached_response Scenarios.two_component_embedder "ciao" 100
            (@cache_response Scenarios.two_component_embedder "ciao" "salve" 100
               Scenarios.exact_match_cache))
     = Ok None.
Proof. split; reflexivity. Qed.

(** X7.  Storing a response and looking the same query up at once is a
    hit, provided the similarity the code computes between the embedding
    of the query and itself is positive and at least the threshold, the
    time-to-live is positive, the cached embeddings have the dimension of
    the query and the cache had room for one more entry.  The response
    returned is the stored one when the cache was empty (otherwise it may
    be that of an older entry as similar). *)
Theorem cache_response_then_lookup_hits `{Embedder} (q resp : string) (now : Z)
    (sc : SemanticCache) (e : list float) (s : float) :
  _embeddings_available sc = true ->
  encode q = Some e ->
  _cosine_similarity e e = Ok s ->
  float_gt s 0 = true ->
  float_ge s (threshold sc) = true ->
  0 < ttl sc ->
  Forall (fun en => length (embedding en) = length e) (cache sc) ->
  len (cache sc) < max_entries sc ->
  exists found sc',
    get_cached_response q now (cache_response q resp now sc) = (Ok (Some found), sc')
    /\ (cache sc = [] ->
        found = resp /\ cache sc' = [add_hit (new_entry q resp e now)]).
Proof.
  intros Hav Henc Hself Hpos Hthr Httl Hdim Hroom.
  rewrite (cache_response_stores q resp now sc e Hav Henc).
  unfold get_cached_response, _get_embedding.
  cbn [_embeddings_available set_cache]. rewrite Hav. cbn [negb].
  unfold _cleanup_old_entries. cbn [cache ttl max_entries set_cache threshold
                                    _embeddings_available].
  set (kept := List.filter _ (cache sc ++ [new_entry q resp e now])).
  assert (Hkept : kept = List.filter (fun entry => now - entry_timestamp entry <? ttl sc)
                           (cache sc) ++ [new_entry q resp e now]).
  { unfold kept. rewrite List.filter_app. f_equal. simpl.
    replace (now - now) with 0 by lia.
    destruct (Z.ltb_spec 0 (ttl sc)); [reflexivity | lia]. }
  assert (Hlen : len kept <= max_entries sc).
  { rewrite Hkept. unfold len in *. rewrite length_app. simpl.
    pose proof (List.filter_length_le
                  (fun entry => now - entry_timestamp entry <? ttl sc) (cache sc)).
    lia. }
  destruct (Z.gtb_spec (len kept) (max_entries sc)) as [Hgt|_]; [lia|].
  cbn [cache ttl max_entries set_cache threshold _embeddings_available].
  rewrite Hav. cbn [negb]. rewrite Henc.
  destruct (cache sc) as [|en0 rest] eqn:Hcache.
  - simpl in Hkept. rewrite Hkept. cbn [find_best new_entry embedding].
    rewrite Hself, Hpos, Hthr. cbn [andb].
    eexists _, _. split; [reflexivity|]. intros _. split; reflexivity.
  - destruct (find_best_finds e (threshold sc) kept 0 None 0%float) as [[j b] Hfind].
    + reflexivity.
    + rewrite Hkept. apply Forall_app. split.
      * apply Forall_forall. intros en Hen.
        apply list_elem_of_In, filter_In in Hen as [Hen _].
        rewrite Forall_forall in Hdim. apply Hdim, list_elem_of_In, Hen.
      * repeat constructor.
    + exists (new_entry q resp e now), s. split; [|split; [exact Hself | split; assumption]].
      rewrite Hkept. apply elem_of_app. right. left.
    + rewrite Hfind. eexists _, _. split; [reflexivity|]. discriminate.
Qed.

Lemma cache_response_then_lookup_hits_witness :
  exists found sc',
    @get_cached_response Fixtures.constant_embedder "ciao" 100
      (@cache_response Fixtures.constant_embedder "ciao" "salve" 100
         (Fixtures.cache_of 1000 []))
    = (Ok (Some found), sc')
    /\ (cache (Fixtures.cache_of 1000 []) = [] ->
        found = "salve"%string
        /\ cache sc' = [add_hit (new_entry "ciao" "salve" [1%float] 100)]).
Proof.
  apply (@cache_response_then_lookup_hits Fixtures.constant_embedder "ciao" "salve" 100
           (Fixtures.cache_of 1000 []) [1%float] 1%float).
  - reflexivity.
  - reflexivity.
  - reflexivity.
  - reflexivity.
  - reflexivity.
  - simpl. lia.
  - constructor.
  - vm_compute. reflexivity.
Defined.

(** ** A cache at capacity *)

Lemma insert_by_snoc {A : Type} (key : A -> Z) (a x : A) (s : list A) :
  key a <= key x -> insert_by key a (s ++ [x]) = insert_by key a s ++ [x].
Proof.
  intros Hle. induction s as [|y s IH]; simpl.
  - destruct (Z.leb_spec (key a) (key x)); [reflexivity | lia].
  - destruct (key a <=? key y); [reflexivity|]. rewrite IH. reflexivity.
Qed.

(** An element whose key is not below any other, appended last, stays last
    under the stable sort. *)
Lemma sort_by_snoc {A : Type} (key : A -> Z) (x : A) (l : list A) :
  Forall (fun y => key y <= key x) l -> sort_by key (l ++ [x]) = sort_by key l ++ [x].
Proof.
  induction 1 as [|a l Ha _ IH]; [reflexivity|].
  simpl. rewrite IH. apply insert_by_snoc, Ha.
Qed.

Lemma sort_by_length {A : Type} (key : A -> Z) (l : list A) :
  length (sort_by key l) = length l.
Proof. apply Permutation_length, sort_by_perm. Qed.

(** X8.  In a cache that is exactly at capacity, with entries that are all
    fresh and have non-negative hit counters, a response just stored is the
    entry the next cleanup discards: it has no hit yet and comes last among
    equals.  The cache is left holding the old entries, sorted by
    decreasing hits. *)
Theorem stored_entry_trimmed_first `{Embedder} (q resp : string) (now : Z)
    (sc : SemanticCache) (e : list float) :
  _embeddings_available sc = true ->
  encode q = Some e ->
  0 < ttl sc ->
  Forall (fun en => now - entry_timestamp en < ttl sc) (cache sc) ->
  Forall (fun en => 0 <= hits en) (cache sc) ->
  len (cache sc) = max_entries sc ->
  cache (_cleanup_old_entries now (cache_response q resp now sc))
  = sort_by_reverse hits (cache sc).
Proof.
  intros Hav Henc Httl Hfresh Hhits Hfull.
  rewrite (cache_response_stores q resp now sc e Hav Henc).
  unfold _cleanup_old_entries. cbn [cache ttl max_entries set_cache].
  rewrite filter_all.
  2:{ apply Forall_app. split.
      - eapply Forall_impl; [exact Hfresh|]. intros en Hen. apply Z.ltb_lt, Hen.
      - repeat constructor. simpl. apply Z.ltb_lt. lia. }
  destruct (Z.gtb_spec (len (cache sc ++ [new_entry q resp e now])) (max_entries sc))
    as [_|Hle].
  2:{ unfold len in *. rewrite length_app in Hle. simpl in Hle. lia. }
  cbn [cache set_cache]. unfold sort_by_reverse.
  rewrite sort_by_snoc.
  2:{ eapply Forall_impl; [exact Hhits|]. intros en Hen. simpl in *. lia. }
  unfold slice_to, slice_index, len.
  rewrite length_app, sort_by_length. simpl.
  replace (Z.to_nat _) with (length (sort_by (fun x => - hits x) (cache sc))).
  - apply take_app_length.
  - rewrite sort_by_length. unfold len in Hfull.
    destruct (Z.ltb_spec (max_entries sc) 0); lia.
Qed.

Lemma stored_entry_trimmed_first_witness :
  cache (_cleanup_old_entries 120
           (@cache_response Fixtures.constant_embedder "ciao" "salve" 120
              (Fixtures.cache_of 2 [Fixtures.entry "a" 100 1; Fixtures.entry "b" 100 5])))
  = sort_by_reverse hits [Fixtures.entry "a" 100 1; Fixtures.entry "b" 100 5].
Proof.
  apply (@stored_entry_trimmed_first Fixtures.constant_embedder "ciao" "salve" 120
           (Fixtures.cache_of 2 [Fixtures.entry "a" 100 1; Fixtures.entry "b" 100 5])
           [1%float]).
  - reflexivity.
  - reflexivity.
  - simpl. lia.
  - repeat constructor; simpl; lia.
  - repeat constructor; simpl; lia.
  - reflexivity.
Defined.

(** X9.  Cleaning twice at the same instant is cleaning once, for a
    capacity that is not negative: what a cleanup leaves is fresh and within
    capacity, so a second one neither removes nor reorders anything. *)
Theorem cleanup_idempotent (now : Z) (sc : SemanticCache) :
  0 <= max_entries sc ->
  _cleanup_old_entries now (_cleanup_old_entries now sc) = _cleanup_old_entries now sc.
Proof.
  intros Hcap.
  pose proof (cleanup_all_fresh now sc) as Hfresh.
  assert (Hlen : len (cache (_cleanup_old_entries now sc)) <= max_entries sc).
  { unfold _cleanup_old_entries.
    destruct (Z.gtb_spec (len (List.filter (fun entry => now - entry_timestamp entry <? ttl sc)
                                 (cache sc))) (max_entries sc)) as [Hgt|Hle].
    - apply slice_to_length, Hcap.
    - exact Hle. }
  destruct (cleanup_fields now sc) as (_ & Hmax & Httl & _).
  unfold _cleanup_old_entries at 1. rewrite Httl, Hmax.
  rewrite filter_all.
  2:{ eapply Forall_impl; [exact Hfresh|]. intros en Hen. apply Z.ltb_lt, Hen. }
  destruct (Z.gtb_spec (len (cache (_cleanup_old_entries now sc))) (max_entries sc))
    as [Hgt|_]; [lia|].
  unfold _cleanup_old_entries.
  destruct (len _ >? max_entries sc); reflexivity.
Qed.

Lemma cleanup_idempotent_witness :
  0 <= max_entries Fixtures.three_entries
  /\ _cleanup_old_entries 120 (_cleanup_old_entries 120 Fixtures.three_entries)
     = _cleanup_old_entries 120 Fixtures.three_entries.
Proof.
  assert (H : 0 <= max_entries Fixtures.three_entries) by (simpl; lia).
  split; [exact H | exact (cleanup_idempotent 120 Fixtures.three_entries H)].
Defined.

(** ** Hit counters *)

Lemma total_hits_alter (l : list CacheEntry) (i : nat) (e : CacheEntry) :
  l !! i = Some e -> total_hits (alter add_hit i l) = total_hits l + 1.
Proof.
  revert i. induction l as [|x l IH]; intros [|i] Hl; try discriminate.
  - simpl in *. unfold total_hits. simpl. lia.
  - simpl in Hl. change (alter add_hit (S i) (x :: l)) with (x :: alter add_hit i l).
    unfold total_hits in *. simpl. rewrite (IH i Hl). lia.
Qed.

(** X10.  A lookup touches the hit counters only on a hit, and then adds
    exactly one hit in total: with [cleaned] the cache the lookup searches
    (the cache after cleanup, or the cache itself when embeddings are
    unavailable), the cache it leaves has as many entries as [cleaned] and
    its total hits are those of [cleaned], plus one when a response is
    returned. *)
Theorem lookup_counts_one_hit `{Embedder} (q : string) (now : Z) (sc : SemanticCache) :
  let cleaned := if _embeddings_available sc
                 then cache (_cleanup_old_entries now sc) else cache sc in
  length (cache (snd (get_cached_response q now sc))) = length cleaned
  /\ total_hits (cache (snd (get_cached_response q now sc)))
     = total_hits cleaned
       + match fst (get_cached_response q now sc) with
         | Ok (Some _) => 1
         | _ => 0
         end.
Proof.
  unfold get_cached_response.
  destruct (_embeddings_available sc); cbn [negb]; [|simpl; split; [reflexivity|lia]].
  destruct (_get_embedding (_cleanup_old_entries now sc) q) as [qe|];
    [|simpl; split; [reflexivity|lia]].
  destruct (find_best qe (threshold (_cleanup_old_entries now sc))
              (cache (_cleanup_old_entries now sc)) 0 None 0%float)
    as [[[i b]|]|err] eqn:Hfind; cbn [fst snd cache set_cache];
    try (split; [reflexivity|lia]).
  assert (Hlook : cache (_cleanup_old_entries now sc) !! i = Some b).
  { apply (find_best_sound qe (threshold (_cleanup_old_entries now sc))
             (cache (_cleanup_old_entries now sc)) [] None 0%float i b);
      [discriminate | exact Hfind]. }
  split; [apply length_alter | apply (total_hits_alter _ i b Hlook)].
Qed.

(** ** The statistics dictionary *)

(** X11.  [get_stats] always reports ["size"] (the number of entries),
    ["total_hits"] (the sum of the hit counters) and ["enabled"]; the keys
    ["max_size"], ["threshold"] and ["ttl_hours"] are present exactly when
    the cache is not empty, so the dictionary of an empty cache does not
    tell the configured limits. *)
Theorem get_stats_keys (sc : SemanticCache) :
  get_stats sc !! "size" = Some (SInt (len (cache sc)))
  /\ get_stats sc !! "total_hits" = Some (SInt (total_hits (cache sc)))
  /\ get_stats sc !! "enabled" = Some (SBool (_embeddings_available sc))
  /\ (is_Some (get_stats sc !! "max_size") <-> cache sc <> [])
  /\ (is_Some (get_stats sc !! "threshold") <-> cache sc <> [])
  /\ (is_Some (get_stats sc !! "ttl_hours") <-> cache sc <> [])
  /\ (cache sc <> [] -> get_stats sc !! "max_size" = Some (SInt (max_entries sc))).
Proof.
  unfold get_stats. destruct (cache sc) as [|en rest].
  - repeat split; try reflexivity; try (intros [v Hv]; discriminate Hv);
      try (intros Hne; contradiction).
  - repeat split; try reflexivity; try discriminate; try (intros _; eexists; reflexivity).
Qed.

End SemanticCacheFacts.

Module CoreFacts.
Import Core PyFacts.

(** ** The retry loop on one provider *)

Lemma add_failures_zero (s : ProviderStats) : add_failures 0 s = s.
Proof. destruct s as [r su f]. unfold add_failures. simpl. f_equal; lia. Qed.

Lemma stats_ext (s1 s2 : ProviderStats) :
  requests s1 = requests s2 -> successes s1 = successes s2 ->
  failures s1 = failures s2 -> s1 = s2.
Proof. destruct s1, s2. simpl. intros -> -> ->. reflexivity. Qed.

(** The loop either stops at the first attempt that succeeds, having
    counted the failures before it, or fails at every attempt of the
    range.  [attempt + remaining = max_retries] is the relation between the
    loop variable and what [range] has left. *)
Lemma attempts_spec (p : BaseProvider) (messages : list Message)
    (params : GenerationParams) (max_retries : Z) :
  forall (remaining attempt : nat) (stats : ProviderStats),
    remaining = 0%nat \/ Z.of_nat attempt + Z.of_nat remaining = max_retries ->
    (exists (k : nat) (r : AIResponse),
        (k < remaining)%nat
        /\ (forall i, (attempt <= i < attempt + k)%nat ->
                      exists e, provider_chat p i messages params = Raise e)
        /\ provider_chat p (attempt + k) messages params = Ok r
        /\ attempts p messages params max_retries remaining attempt stats
           = (Some r, {| requests := requests stats + Z.of_nat k + 1;
                         successes := successes stats + 1;
                         failures := failures stats + Z.of_nat k |}))
    \/ ((forall i, (attempt <= i < attempt + remaining)%nat ->
                   exists e, provider_chat p i messages params = Raise e)
        /\ attempts p messages params max_retries remaining attempt stats
           = (None, add_failures (Z.of_nat remaining) stats)).
Proof.
  induction remaining as [|remaining IH]; intros attempt stats Hinv.
  - right. split; [intros i Hi; lia|]. simpl. rewrite add_failures_zero. reflexivity.
  - destruct Hinv as [Hinv|Hinv]; [discriminate|].
    cbn [attempts]. cbn [requests successes failures].
    destruct (provider_chat p attempt messages params) as [r|e] eqn:Hchat.
    + left. exists 0%nat, r. split; [lia|]. split; [intros i Hi; lia|].
      rewrite Nat.add_0_r. split; [exact Hchat|].
      f_equal. apply stats_ext; simpl; lia.
    + destruct (Z.ltb_spec (Z.of_nat attempt) (max_retries - 1)) as [Hlt|Hge].
      * assert (Hinv' : remaining = 0%nat
                        \/ Z.of_nat (S attempt) + Z.of_nat remaining = max_retries)
          by (right; lia).
        specialize (IH (S attempt)
                      {| requests := requests stats + 1; successes := successes stats;
                         failures := failures stats + 1 |} Hinv').
        destruct IH as [(k & r & Hk & Hfail & Hok & Hres)|[Hfail Hres]].
        -- left. exists (S k), r. split; [lia|]. split.
           ++ intros i Hi. destruct (decide (i = attempt)) as [->|Hne]; [eauto|].
              apply Hfail. lia.
           ++ replace (attempt + S k)%nat with (S attempt + k)%nat by lia.
              split; [exact Hok|]. rewrite Hres. f_equal.
              apply stats_ext; simpl; lia.
        -- right. split.
           ++ intros i Hi. destruct (decide (i = attempt)) as [->|Hne]; [eauto|].
              apply Hfail. lia.
           ++ rewrite Hres. f_equal. apply stats_ext; simpl; lia.
      * assert (remaining = 0%nat) as -> by lia.
        right. split.
        -- intros i Hi. assert (i = attempt) as -> by lia. eauto.
        -- reflexivity.
Qed.

Lemma range_relation (max_retries : Z) :
  Z.to_nat max_retries = 0%nat
  \/ Z.of_nat 0 + Z.of_nat (Z.to_nat max_retries) = max_retries.
Proof. destruct (Z.le_gt_cases max_retries 0); [left|right]; lia. Qed.

(** ** The loop over the providers *)

Lemma try_providers_skip (pre ps : list BaseProvider) (messages : list Message)
    (params : GenerationParams) (max_retries : Z) (st : gmap string ProviderStats) :
  Forall (fun p => is_available p = false) pre ->
  try_providers (pre ++ ps) messages params max_retries st
  = try_providers ps messages params max_retries st.
Proof.
  induction 1 as [|p pre Hp _ IH]; [reflexivity|].
  simpl. rewrite Hp. simpl. exact IH.
Qed.

(** The failover fails only with [AllProvidersFailedException], only when
    no attempt could succeed, and then every available provider has been
    charged [max_retries] failures; when it succeeds, the response is that
    of an attempt within the retry budget of an available provider. *)
Lemma try_providers_spec (messages : list Message) (params : GenerationParams)
    (max_retries : Z) (ps : list BaseProvider) :
  forall st : gmap string ProviderStats,
    (forall p, p ∈ ps -> is_Some (st !! name p)) ->
    match try_providers ps messages params max_retries st with
    | (Raise e, st') =>
        (exists msg, e = AllProvidersFailedException msg)
        /\ no_attempt_succeeds ps messages params max_retries
        /\ st' = exhausted ps max_retries st
    | (Ok r, st') =>
        exists p i, p ∈ ps /\ is_available p = true /\ Z.of_nat i < max_retries
                    /\ provider_chat p i messages params = Ok r
    end.
Proof.
  induction ps as [|p ps IH]; intros st Hreg.
  - simpl. split; [eauto|]. split; [|reflexivity].
    intros p i Hp. inversion Hp.
  - assert (Hreg' : forall s', forall q, q ∈ ps -> is_Some (<[name p := s']> st !! name q)).
    { intros s' q Hq. destruct (decide (name p = name q)) as [Heq|Hne].
      - rewrite Heq, lookup_insert_eq. eauto.
      - rewrite lookup_insert_ne by exact Hne. apply Hreg. right. exact Hq. }
    cbn [try_providers exhausted].
    destruct (is_available p) eqn:Hav; cbn [negb].
    + destruct (Hreg p ltac:(left)) as [stats Hstats]. rewrite Hstats.
      destruct (attempts_spec p messages params max_retries (Z.to_nat max_retries) 0 stats
                  (range_relation max_retries))
        as [(k & r & Hk & _ & Hok & Hres)|[Hfail Hres]]; rewrite Hres.
      * exists p, k. split; [left|]. split; [exact Hav|]. split; [lia|exact Hok].
      * specialize (IH (<[name p := add_failures (Z.of_nat (Z.to_nat max_retries)) stats]> st)
                      (Hreg' _)).
        replace (Z.max 0 max_retries) with (Z.of_nat (Z.to_nat max_retries)) by lia.
        destruct (try_providers ps messages params max_retries _) as [[r|e] st'].
        -- destruct IH as (q & i & Hq & Hrest). exists q, i. split; [right; exact Hq|exact Hrest].
        -- destruct IH as (Hmsg & Hnone & Hst'). split; [exact Hmsg|]. split; [|exact Hst'].
           intros q i Hq Hqav Hi. apply elem_of_cons in Hq as [->|Hq].
           ++ apply Hfail. lia.
           ++ apply Hnone; assumption.
    + specialize (IH st (fun q Hq => Hreg q ltac:(right; exact Hq))).
      destruct (try_providers ps messages params max_retries st) as [[r|e] st'].
      * destruct IH as (q & i & Hq & Hrest). exists q, i. split; [right; exact Hq|exact Hrest].
      * destruct IH as (Hmsg & Hnone & Hst'). split; [exact Hmsg|]. split; [|exact Hst'].
        intros q i Hq Hqav Hi. apply elem_of_cons in Hq as [->|Hq]; [congruence|].
        apply Hnone; assumption.
Qed.

Section Failover.
Context `{CostControl} `{Tools}.

(** X12.  [register_provider] maintains what the failover relies on: it
    completes, every provider of the list has its priority and its
    counters, and the list holds the providers registered so far in
    ascending order of priority. *)
Lemma register_provider_spec (p : BaseProvider) (priority : Z) (o : AIOrchestrator) :
  registered o -> priorities_known o ->
  exists o',
    register_provider p priority o = (Ok tt, o')
    /\ registered o' /\ priorities_known o'
    /\ providers o' ≡ₚ providers o ++ [p]
    /\ StronglySorted (key_le (fun q => default 0 (provider_priority o' !! name q)))
         (providers o').
Proof.
  intros Hreg Hprio. unfold register_provider.
  set (ps := providers o ++ [p]).
  set (prio := <[name p := priority]> (provider_priority o)).
  assert (Hknown : forall q, q ∈ ps -> is_Some (prio !! name q)).
  { intros q Hq. unfold prio. destruct (decide (name p = name q)) as [Heq|Hne].
    - rewrite Heq, lookup_insert_eq. eauto.
    - rewrite lookup_insert_ne by exact Hne.
      apply elem_of_app in Hq as [Hq|Hq]; [apply Hprio, Hq|].
      apply list_elem_of_singleton in Hq. congruence. }
  assert (Hfind : list_find (fun q => prio !! name q = None) ps = None).
  { apply list_find_None, Forall_forall. intros q Hq.
    apply not_eq_None_Some, Hknown, Hq. }
  rewrite Hfind.
  set (sorted := sort_by (fun q => default 0 (prio !! name q)) ps).
  assert (Hperm : sorted ≡ₚ ps) by apply sort_by_perm.
  assert (Hsorted : StronglySorted (key_le (fun q => default 0 (prio !! name q))) sorted)
    by apply sort_by_sorted.
  assert (Hin : forall q, q ∈ sorted -> q ∈ ps).
  { intros q Hq. rewrite <- Hperm. exact Hq. }
  cbn [provider_stats set_providers].
  destruct (provider_stats o !! name p) as [s|] eqn:Hs.
  - eexists. split; [reflexivity|]. unfold registered, priorities_known.
    cbn [providers provider_stats provider_priority set_providers].
    split; [|split; [|split; assumption]].
    + intros q Hq. apply Hin in Hq.
      apply elem_of_app in Hq as [Hq|Hq]; [apply Hreg, Hq|].
      apply list_elem_of_singleton in Hq as ->. rewrite Hs. eauto.
    + intros q Hq. apply Hin in Hq. apply Hknown, Hq.
  - eexists. split; [reflexivity|]. unfold registered, priorities_known.
    cbn [providers provider_stats provider_priority set_providers set_provider_stats].
    split; [|split; [|split; assumption]].
    + intros q Hq. apply Hin in Hq.
      destruct (decide (name p = name q)) as [Heq|Hne].
      * rewrite Heq, lookup_insert_eq. eauto.
      * rewrite lookup_insert_ne by exact Hne.
        apply elem_of_app in Hq as [Hq|Hq]; [apply Hreg, Hq|].
        apply list_elem_of_singleton in Hq. congruence.
    + intros q Hq. apply Hin in Hq. apply Hknown, Hq.
Qed.

(** C1, amended.  Let the providers be tried in the order of the list, A
    be the first available one and B the second, the chat of A always fail
    and that of B always answer [resp], and the counters of both be at zero.
    For [max_retries >= 1], [_execute_with_fallback] returns [resp], the
    failure counter of A equals [max_retries] and the success counter of B
    equals 1; when the two do not share their counters, A has been requested
    [max_retries] times and B once. *)
Theorem execute_with_fallback_second_provider
    (o : AIOrchestrator) (pre mid post : list BaseProvider) (A B : BaseProvider)
    (resp : AIResponse) (messages : list Message) (params : GenerationParams)
    (max_retries : Z) :
  providers o = pre ++ A :: mid ++ B :: post ->
  Forall (fun p => is_available p = false) pre ->
  Forall (fun p => is_available p = false) mid ->
  is_available A = true -> is_available B = true ->
  always_fails A -> always_answers B resp ->
  provider_stats o !! name A = Some stats_zero ->
  provider_stats o !! name B = Some stats_zero ->
  1 <= max_retries ->
  exists st' sA sB,
    _execute_with_fallback messages params max_retries o
    = (Ok resp, set_provider_stats st' o)
    /\ st' !! name A = Some sA /\ st' !! name B = Some sB
    /\ failures sA = max_retries /\ successes sB = 1
    /\ (name A <> name B ->
        requests sA = max_retries /\ successes sA = 0
        /\ requests sB = 1 /\ failures sB = 0)
    /\ (name A = name B -> requests sA = max_retries + 1).
Proof.
  intros Hps Hpre Hmid HavA HavB HfailA HokB HstA HstB Hmax.
  unfold _execute_with_fallback.
  destruct (providers o) as [|p0 ps0] eqn:Hprov.
  { destruct pre; discriminate. }
  rewrite Hps, try_providers_skip by exact Hpre.
  cbn [try_providers]. rewrite HavA. cbn [negb]. rewrite HstA.
  destruct (attempts_spec A messages params max_retries (Z.to_nat max_retries) 0 stats_zero
              (range_relation max_retries))
    as [(k & r & _ & _ & Hok & _)|[_ HresA]].
  { destruct (HfailA (0 + k)%nat messages params) as [e He]. congruence. }
  rewrite HresA, try_providers_skip by exact Hmid.
  cbn [try_providers]. rewrite HavB. cbn [negb].
  set (sA := add_failures (Z.of_nat (Z.to_nat max_retries)) stats_zero).
  assert (HlookB : exists s0, <[name A := sA]> (provider_stats o) !! name B = Some s0
                              /\ (name A = name B -> s0 = sA)
                              /\ (name A <> name B -> s0 = stats_zero)).
  { destruct (decide (name A = name B)) as [Heq|Hne].
    - exists sA. rewrite Heq, lookup_insert_eq. repeat split; congruence.
    - exists stats_zero. rewrite lookup_insert_ne by exact Hne.
      repeat split; congruence. }
  destruct HlookB as (s0 & Hlook & Hsame & Hdiff). rewrite Hlook.
  destruct (Z.to_nat max_retries) as [|n] eqn:Hn; [lia|].
  cbn [attempts]. rewrite (HokB 0%nat messages params).
  cbn [requests successes failures].
  set (sB := {| requests := requests s0 + 1; successes := successes s0 + 1;
                failures := failures s0 |}).
  destruct (decide (name A = name B)) as [Heq|Hne].
  - exists (<[name B := sB]> (<[name A := sA]> (provider_stats o))), sB, sB.
    split; [reflexivity|].
    rewrite Heq, lookup_insert_eq. split; [reflexivity|]. split; [reflexivity|].
    unfold sB. rewrite (Hsame Heq). unfold sA. simpl.
    split; [lia|]. split; [lia|].
    split; [intros Hne; contradiction | intros _; lia].
  - exists (<[name B := sB]> (<[name A := sA]> (provider_stats o))), sA, sB.
    split; [reflexivity|].
    rewrite lookup_insert_ne by congruence. rewrite !lookup_insert_eq.
    split; [reflexivity|]. split; [reflexivity|].
    unfold sB. rewrite (Hdiff Hne). unfold sA. simpl.
    split; [lia|]. split; [lia|].
    split; [intros _; lia | intros Heq; contradiction].
Qed.

(** C3, amended.  On an orchestrator whose providers all have their
    counters, [_execute_with_fallback] ends with [ValueError] when the
    provider list is empty.  When it is not, the call ends with
    [AllProvidersFailedException] exactly when no attempt of an available
    provider succeeds (in particular when no provider is available); no
    other exception comes out of it, and it fails only after every
    available provider of the list has been charged [max_retries] failed
    attempts. *)
Theorem execute_with_fallback_failure
    (o : AIOrchestrator) (messages : list Message) (params : GenerationParams)
    (max_retries : Z) :
  registered o ->
  (providers o = [] ->
   _execute_with_fallback messages params max_retries o
   = (Raise (ValueError "Nessun provider configurato"), o))
  /\ (providers o <> [] ->
      ((exists msg, fst (_execute_with_fallback messages params max_retries o)
                    = Raise (AllProvidersFailedException msg))
       <-> no_attempt_succeeds (providers o) messages params max_retries)
      /\ (forall e, fst (_execute_with_fallback messages params max_retries o) = Raise e ->
                    (exists msg, e = AllProvidersFailedException msg)
                    /\ provider_stats (snd (_execute_with_fallback messages params max_retries o))
                       = exhausted (providers o) max_retries (provider_stats o))).
Proof.
  intros Hreg. split.
  - intros Hnil. unfold _execute_with_fallback. rewrite Hnil. reflexivity.
  - intros Hne. unfold _execute_with_fallback.
    pose proof (try_providers_spec messages params max_retries (providers o)
                  (provider_stats o) Hreg) as Hspec.
    destruct (providers o) as [|p0 ps0] eqn:Hprov; [contradiction|].
    destruct (try_providers (p0 :: ps0) messages params max_retries (provider_stats o))
      as [[r|e] st']; cbn [fst snd].
    + destruct Hspec as (p & i & Hp & Hav & Hi & Hok). split.
      * split.
        -- intros [msg Hmsg]. discriminate.
        -- intros Hnone. destruct (Hnone p i Hp Hav Hi) as [e He]. congruence.
      * intros e He. discriminate.
    + destruct Hspec as ([msg ->] & Hnone & Hst'). split.
      * split; [intros _; exact Hnone | intros _; eauto].
      * intros e [= <-]. split; [eauto|]. exact Hst'.
Qed.

End Failover.

(** ** The failover on concrete providers *)

(** C1, as stated, fails for [maxRetries = 0]: no attempt is made on any
    provider, so B never answers and the call ends with
    [AllProvidersFailedException]. *)
Lemma execute_with_fallback_zero_retries :
  Fixtures.provider_A ∈ providers (Fixtures.with_A_and_B None)
  /\ Fixtures.provider_B ∈ providers (Fixtures.with_A_and_B None)
  /\ _execute_with_fallback Fixtures.hello (GenerationParams_of_model "deepseek-chat") 0
       (Fixtures.with_A_and_B None)
     = (Raise (AllProvidersFailedException
                 "Tutti i provider AI hanno fallito. Verifica la connessione e le API keys."),
        Fixtures.with_A_and_B None).
Proof.
  split; [|split].
  - change (providers (Fixtures.with_A_and_B None))
      with [Fixtures.provider_A; Fixtures.provider_B]. left.
  - change (providers (Fixtures.with_A_and_B None))
      with [Fixtures.provider_A; Fixtures.provider_B]. right. left.
  - vm_compute. reflexivity.
Qed.

(** C3, as stated, fails for an empty provider list: the call does not end
    with [AllProvidersFailedException] but with [ValueError]. *)
Lemma execute_with_fallback_no_provider :
  providers (Fixtures.fresh None) = []
  /\ _execute_with_fallback Fixtures.hello (GenerationParams_of_model "deepseek-chat") 3
       (Fixtures.fresh None)
     = (Raise (ValueError "Nessun provider configurato"), Fixtures.fresh None)
  /\ ~ exists msg,
        fst (_execute_with_fallback Fixtures.hello
               (GenerationParams_of_model "deepseek-chat") 3 (Fixtures.fresh None))
        = Raise (AllProvidersFailedException msg).
Proof.
  split; [reflexivity|]. split; [reflexivity|].
  intros [msg Hmsg]. discriminate Hmsg.
Qed.

Lemma with_A_and_B_providers (sc : option SemanticCache.SemanticCache) :
  providers (Fixtures.with_A_and_B sc) = [Fixtures.provider_A; Fixtures.provider_B].
Proof. reflexivity. Qed.

Lemma with_A_and_B_registered (sc : option SemanticCache.SemanticCache) :
  registered (Fixtures.with_A_and_B sc).
Proof.
  intros p Hp. rewrite with_A_and_B_providers in Hp.
  apply elem_of_cons in Hp as [->|Hp]; [eexists; reflexivity|].
  apply elem_of_cons in Hp as [->|Hp]; [eexists; reflexivity|].
  inversion Hp.
Qed.

(** The scenario of the specification: A (priority 1) always fails, B
    (priority 2) answers ["ok"] for 10 tokens, [max_retries = 2]. *)
Lemma failover_scenario :
  fst (_execute_with_fallback Fixtures.hello (GenerationParams_of_model "deepseek-chat") 2
         (Fixtures.with_A_and_B None))
  = Ok Fixtures.response_B
  /\ provider_stats
       (snd (_execute_with_fallback Fixtures.hello
               (GenerationParams_of_model "deepseek-chat") 2 (Fixtures.with_A_and_B None)))
     = <["B" := {| requests := 1; successes := 1; failures := 0 |}]>
         (<["A" := {| requests := 2; successes := 0; failures := 2 |}]> ∅).
Proof. split; vm_compute; reflexivity. Qed.

Lemma execute_with_fallback_second_provider_witness :
  providers (Fixtures.with_A_and_B None) = [] ++ Fixtures.provider_A :: [] ++ Fixtures.provider_B :: []
  /\ always_fails Fixtures.provider_A
  /\ always_answers Fixtures.provider_B Fixtures.response_B
  /\ 1 <= 2
  /\ exists st' sA sB,
      _execute_with_fallback Fixtures.hello (GenerationParams_of_model "deepseek-chat") 2
        (Fixtures.with_A_and_B None)
      = (Ok Fixtures.response_B, set_provider_stats st' (Fixtures.with_A_and_B None))
      /\ st' !! name Fixtures.provider_A = Some sA
      /\ st' !! name Fixtures.provider_B = Some sB
      /\ failures sA = 2 /\ successes sB = 1
      /\ (name Fixtures.provider_A <> name Fixtures.provider_B ->
          requests sA = 2 /\ successes sA = 0 /\ requests sB = 1 /\ failures sB = 0)
      /\ (name Fixtures.provider_A = name Fixtures.provider_B -> requests sA = 2 + 1).
Proof.
  assert (HA : always_fails Fixtures.provider_A)
    by (intros attempt messages params; eexists; reflexivity).
  assert (HB : always_answers Fixtures.provider_B Fixtures.response_B)
    by (intros attempt messages params; reflexivity).
  assert (Hmax : 1 <= 2) by lia.
  split; [reflexivity|]. split; [exact HA|]. split; [exact HB|]. split; [exact Hmax|].
  exact (execute_with_fallback_second_provider
           (Fixtures.with_A_and_B None) [] [] [] Fixtures.provider_A Fixtures.provider_B
           Fixtures.response_B Fixtures.hello (GenerationParams_of_model "deepseek-chat") 2
           eq_refl (List.Forall_nil _) (List.Forall_nil _) eq_refl eq_refl HA HB
           eq_refl eq_refl Hmax).
Defined.

Lemma execute_with_fallback_failure_witness :
  registered (Fixtures.with_A_and_B None)
  /\ (providers (Fixtures.with_A_and_B None) <> [] ->
      ((exists msg,
           fst (_execute_with_fallback Fixtures.hello
                  (GenerationParams_of_model "deepseek-chat") 2 (Fixtures.with_A_and_B None))
           = Raise (AllProvidersFailedException msg))
       <-> no_attempt_succeeds (providers (Fixtures.with_A_and_B None)) Fixtures.hello
             (GenerationParams_of_model "deepseek-chat") 2)
      /\ (forall e,
            fst (_execute_with_fallback Fixtures.hello
                   (GenerationParams_of_model "deepseek-chat") 2 (Fixtures.with_A_and_B None))
            = Raise e ->
            (exists msg, e = AllProvidersFailedException msg)
            /\ provider_stats
                 (snd (_execute_with_fallback Fixtures.hello
                         (GenerationParams_of_model "deepseek-chat") 2
                         (Fixtures.with_A_and_B None)))
               = exhausted (providers (Fixtures.with_A_and_B None)) 2
                   (provider_stats (Fixtures.with_A_and_B None)))).
Proof.
  split; [apply with_A_and_B_registered|].
  exact (proj2 (execute_with_fallback_failure (Fixtures.with_A_and_B None) Fixtures.hello
                  (GenerationParams_of_model "deepseek-chat") 2
                  (with_A_and_B_registered None))).
Defined.

(** ** Routing *)

Lemma any_contains_mentions (keywords : list string) (text : string) :
  any (fun keyword => contains keyword text) keywords = true <-> mentions keywords text.
Proof.
  unfold any, mentions. rewrite existsb_exists. split.
  - intros (kw & Hin & Hc). apply contains_spec in Hc as (pre & post & Hc).
    exists kw, pre, post. split; [apply list_elem_of_In, Hin | exact Hc].
  - intros (kw & pre & post & Hin & Hc). exists kw.
    split; [apply list_elem_of_In, Hin|]. apply contains_spec. eauto.
Qed.

Section Routing.
Context `{StrOps}.

(** C6.  [_smart_route_model] is a function of the lowercased prompt
    alone: it returns the reasoning tier whenever a reasoning keyword
    occurs in the lowercased prompt, and the fast tier otherwise, whether
    or not a keyword of the simple table occurs; two prompts with the same
    lowercased form, such as two spellings that differ in letter case, get
    the same tier. *)
Theorem smart_route_model_spec (prompt : string) :
  (mentions reasoning_keywords (lower prompt) ->
   _smart_route_model prompt = "deepseek-reasoner"%string)
  /\ (~ mentions reasoning_keywords (lower prompt) ->
      _smart_route_model prompt = "deepseek-chat"%string)
  /\ (forall prompt', lower prompt' = lower prompt ->
                      _smart_route_model prompt' = _smart_route_model prompt).
Proof.
  unfold _smart_route_model. split; [|split].
  - intros Hm. apply any_contains_mentions in Hm. rewrite Hm. reflexivity.
  - intros Hm.
    destruct (any (fun keyword => contains keyword (lower prompt)) reasoning_keywords)
      eqn:Hany.
    + exfalso. apply Hm, any_contains_mentions, Hany.
    + destruct (any _ simple_keywords); reflexivity.
  - intros prompt' ->. reflexivity.
Qed.

End Routing.

Lemma smart_route_model_spec_witness :
  mentions reasoning_keywords (Fixtures.ascii_lower "ANALIZZA i dati di vendita")
  /\ @_smart_route_model Fixtures.ascii_strops "ANALIZZA i dati di vendita"
     = "deepseek-reasoner"%string
  /\ @_smart_route_model Fixtures.ascii_strops "Traduci questo testo"
     = "deepseek-chat"%string
  /\ @_smart_route_model Fixtures.ascii_strops "Buongiorno"
     = "deepseek-chat"%string.
Proof.
  assert (Hm : mentions reasoning_keywords
                 (@lower Fixtures.ascii_strops "ANALIZZA i dati di vendita")).
  { exists "analizza"%string, ""%string, " i dati di vendita"%string.
    split; [left | reflexivity]. }
  split; [exact Hm|].
  split; [exact (proj1 (@smart_route_model_spec Fixtures.ascii_strops _) Hm)|].
  split; reflexivity.
Defined.

(** ** The cache probe of [chat] *)

Section Chat.
Context `{SemanticCache.Embedder} `{StrOps} `{CostControl} `{Tools}.

Lemma chat_lookup_hit (prompt : string) (now : Z) (o : AIOrchestrator)
    (sc sc' : SemanticCache.SemanticCache) (found : option string) :
  semantic_cache o = Some sc ->
  SemanticCache.get_cached_response prompt now sc = (Ok found, sc') ->
  chat_lookup prompt true now o = (Ok found, set_semantic_cache (Some sc') o).
Proof.
  intros Hsc Hget. unfold chat_lookup, bind, get, cache_get.
  rewrite Hsc. cbv iota beta. rewrite Hget. reflexivity.
Qed.

(** A cache hit with a text that is not empty: [chat] returns the cached
    response at once, and of the orchestrator only the cache has changed. *)
Lemma chat_cache_hit (prompt text : string) (model_ : option string)
    (use_conversation use_tools : bool) (max_retries now : Z) (o : AIOrchestrator)
    (sc sc' : SemanticCache.SemanticCache) :
  semantic_cache o = Some sc ->
  SemanticCache.get_cached_response prompt now sc = (Ok (Some text), sc') ->
  text <> EmptyString ->
  chat prompt model_ use_conversation true use_tools max_retries now o
  = (Ok (cached_response text), set_semantic_cache (Some sc') o).
Proof.
  intros Hsc Hget Htext. unfold chat, bind.
  rewrite (chat_lookup_hit prompt now o sc sc' (Some text) Hsc Hget).
  destruct text as [|c text]; [contradiction|]. reflexivity.
Qed.

(** X16.  On a cache hit with a text that is not empty, [chat] returns
    the cached response, marked as cached and attributed to the provider
    ["cache"], and leaves the conversation window, the budget governor, the
    request history, the provider counters and the provider list as they
    were: no message is appended, no usage recorded, no request logged. *)
Lemma chat_cache_hit_frame (prompt text : string) (model_ : option string)
    (use_conversation use_tools : bool) (max_retries now : Z) (o : AIOrchestrator)
    (sc sc' : SemanticCache.SemanticCache) :
  semantic_cache o = Some sc ->
  SemanticCache.get_cached_response prompt now sc = (Ok (Some text), sc') ->
  text <> EmptyString ->
  exists o',
    chat prompt model_ use_conversation true use_tools max_retries now o
    = (Ok (cached_response text), o')
    /\ conversation o' = conversation o
    /\ cost_controller o' = cost_controller o
    /\ request_history o' = request_history o
    /\ provider_stats o' = provider_stats o
    /\ providers o' = providers o.
Proof.
  intros Hsc Hget Htext. exists (set_semantic_cache (Some sc') o).
  split; [eapply chat_cache_hit; eassumption|]. repeat split.
Qed.

(** A cache hit with the empty text: the text is falsy, and [chat] goes on
    with steps 2 to 11 as after a miss. *)
Lemma chat_empty_cache_hit (prompt : string) (model_ : option string)
    (use_conversation use_tools : bool) (max_retries now : Z) (o : AIOrchestrator)
    (sc sc' : SemanticCache.SemanticCache) :
  semantic_cache o = Some sc ->
  SemanticCache.get_cached_response prompt now sc = (Ok (Some EmptyString), sc') ->
  chat prompt model_ use_conversation true use_tools max_retries now o
  = chat_uncached prompt model_ use_conversation true use_tools max_retries now
      (set_semantic_cache (Some sc') o).
Proof.
  intros Hsc Hget. unfold chat, bind.
  rewrite (chat_lookup_hit prompt now o sc sc' (Some EmptyString) Hsc Hget).
  reflexivity.
Qed.

End Chat.

(** The lookup of ["ciao"] at time 120 in the cache that holds the empty
    response is a hit: the entry is selected and its hit counter goes from
    0 to 1. *)
Lemma empty_response_is_a_hit :
  @SemanticCache.get_cached_response Fixtures.constant_embedder "ciao" 120
    Fixtures.empty_response_cache
  = (Ok (Some EmptyString), Fixtures.cache_of 1000 [Fixtures.entry "" 100 1]).
Proof.
  apply (SemanticCacheFacts.get_cached_response_after_cleanup "ciao" "" 120 1000 100 0).
  reflexivity.
Qed.

#[local] Existing Instance Fixtures.constant_embedder.
#[local] Existing Instance Fixtures.ascii_strops.

(** The empty response gets into the cache through [chat] itself: after a
    miss answered by E, step 9 stores the empty text for the prompt. *)
Lemma chat_stores_empty_response :
  fst (chat "ciao" None true true false 3 100 Fixtures.with_E) = Ok Fixtures.response_E
  /\ semantic_cache (snd (chat "ciao" None true true false 3 100 Fixtures.with_E))
     = Some Fixtures.empty_response_cache.
Proof. split; vm_compute; reflexivity. Qed.

(** C10.  With caching enabled and a cache hit whose stored response is
    the empty string, [chat] does not return a cached response: it appends
    the prompt and the answer to the conversation, runs the failover (three
    failures of A, one success of B), records 10 tokens of usage and adds an
    entry to the request history. *)
Theorem chat_empty_cached_response_falls_through :
  fst (@SemanticCache.get_cached_response Fixtures.constant_embedder "ciao" 120
         Fixtures.empty_response_cache)
  = Ok (Some EmptyString)
  /\ fst (chat "ciao" None true true false 3 120 Fixtures.with_empty_response_cached)
     = Ok Fixtures.response_B
  /\ cached Fixtures.response_B = false
  /\ Conversation.history (conversation Fixtures.with_empty_response_cached) = []
  /\ Conversation.history
       (conversation
          (snd (chat "ciao" None true true false 3 120 Fixtures.with_empty_response_cached)))
     = [ {| role := user; content := "ciao"; timestamp := 120; tokens := None |};
         {| role := assistant; content := "ok"; timestamp := 120; tokens := Some 10 |} ]
  /\ cost_controller Fixtures.with_empty_response_cached = 0
  /\ cost_controller
       (snd (chat "ciao" None true true false 3 120 Fixtures.with_empty_response_cached))
     = 10
  /\ total_requests Fixtures.with_empty_response_cached = 0
  /\ total_requests
       (snd (chat "ciao" None true true false 3 120 Fixtures.with_empty_response_cached))
     = 1.
Proof.
  split; [rewrite empty_response_is_a_hit; reflexivity|].
  rewrite (chat_empty_cache_hit "ciao" None true false 3 120
             Fixtures.with_empty_response_cached Fixtures.empty_response_cache
             (Fixtures.cache_of 1000 [Fixtures.entry "" 100 1])
             eq_refl empty_response_is_a_hit).
  repeat split; vm_compute; reflexivity.
Qed.

(** ** Registration and the counters *)

Lemma register_provider_spec_witness :
  registered (Fixtures.fresh None)
  /\ priorities_known (Fixtures.fresh None)
  /\ exists o',
      register_provider Fixtures.provider_A 1 (Fixtures.fresh None) = (Ok tt, o')
      /\ registered o' /\ priorities_known o'
      /\ providers o' ≡ₚ providers (Fixtures.fresh None) ++ [Fixtures.provider_A]
      /\ StronglySorted (key_le (fun q => default 0 (provider_priority o' !! name q)))
           (providers o').
Proof.
  assert (Hreg : registered (Fixtures.fresh None)) by (intros p Hp; inversion Hp).
  assert (Hprio : priorities_known (Fixtures.fresh None)) by (intros p Hp; inversion Hp).
  split; [exact Hreg|]. split; [exact Hprio|].
  exact (register_provider_spec Fixtures.provider_A 1 (Fixtures.fresh None) Hreg Hprio).
Defined.

Section Counters.
Context `{CostControl} `{Tools}.

(** X13.  [register_provider] never resets counters: on an orchestrator
    whose providers all have a priority, the counters stored under the name
    of the registered provider are kept when the name is already known and
    start at zero otherwise, and the counters of every other name are left
    as they were. *)
Theorem register_provider_keeps_counters (p : BaseProvider) (priority : Z)
    (o : AIOrchestrator) (k : string) :
  priorities_known o ->
  provider_stats (snd (register_provider p priority o)) !! k
  = if decide (k = name p)
    then Some (default stats_zero (provider_stats o !! k))
    else provider_stats o !! k.
Proof.
  intros Hprio. unfold register_provider.
  set (ps := providers o ++ [p]).
  set (prio := <[name p := priority]> (provider_priority o)).
  assert (Hfind : list_find (fun q => prio !! name q = None) ps = None).
  { apply list_find_None, Forall_forall. intros q Hq. apply not_eq_None_Some.
    unfold prio. destruct (decide (name p = name q)) as [Heq|Hne].
    - rewrite Heq, lookup_insert_eq. eauto.
    - rewrite lookup_insert_ne by exact Hne.
      apply elem_of_app in Hq as [Hq|Hq]; [apply Hprio, Hq|].
      apply list_elem_of_singleton in Hq. congruence. }
  rewrite Hfind. cbn [provider_stats set_providers].
  destruct (provider_stats o !! name p) as [s|] eqn:Hs;
    cbn [snd provider_stats set_providers set_provider_stats].
  - destruct (decide (k = name p)) as [->|Hne]; [rewrite Hs|]; reflexivity.
  - destruct (decide (k = name p)) as [->|Hne].
    + rewrite lookup_insert_eq, Hs. reflexivity.
    + rewrite lookup_insert_ne by congruence. reflexivity.
Qed.

Lemma attempts_balanced (p : BaseProvider) (messages : list Message)
    (params : GenerationParams) (max_retries : Z) :
  forall (remaining attempt : nat) (stats : ProviderStats),
    balanced stats ->
    balanced (snd (attempts p messages params max_retries remaining attempt stats)).
Proof.
  unfold balanced.
  induction remaining as [|remaining IH]; intros attempt stats Hb; [exact Hb|].
  cbn [attempts]. cbn [requests successes failures].
  destruct (provider_chat p attempt messages params) as [r|e].
  - simpl. lia.
  - destruct (Z.of_nat attempt <? max_retries - 1).
    + apply IH. simpl. lia.
    + simpl. lia.
Qed.

Lemma try_providers_balanced (messages : list Message) (params : GenerationParams)
    (max_retries : Z) (ps : list BaseProvider) :
  forall st : gmap string ProviderStats,
    (forall k s, st !! k = Some s -> balanced s) ->
    forall k s, snd (try_providers ps messages params max_retries st) !! k = Some s ->
                balanced s.
Proof.
  induction ps as [|p ps IH]; intros st Hst; [exact Hst|].
  cbn [try_providers]. destruct (negb (is_available p)); [apply IH, Hst|].
  destruct (st !! name p) as [stats|] eqn:Hstats; [|exact Hst].
  pose proof (attempts_balanced p messages params max_retries (Z.to_nat max_retries) 0
                stats (Hst _ _ Hstats)) as Hb.
  assert (Hst' : forall k s,
             <[name p := snd (attempts p messages params max_retries
                                (Z.to_nat max_retries) 0 stats)]> st !! k = Some s ->
             balanced s).
  { intros k s Hk. apply lookup_insert_Some in Hk as [[_ <-]|[_ Hk]];
      [exact Hb | exact (Hst _ _ Hk)]. }
  destruct (attempts p messages params max_retries (Z.to_nat max_retries) 0 stats)
    as [[resp|] stats']; cbn [snd] in *; [exact Hst' | apply IH, Hst'].
Qed.

(** X14.  [_execute_with_fallback] keeps the counters balanced: if, for
    every provider name, the requests counted so far are the successes plus
    the failures, the same holds after the call, however it ends. *)
Theorem execute_with_fallback_keeps_balance (o : AIOrchestrator)
    (messages : list Message) (params : GenerationParams) (max_retries : Z) :
  (forall k s, provider_stats o !! k = Some s -> balanced s) ->
  forall k s,
    provider_stats (snd (_execute_with_fallback messages params max_retries o)) !! k
    = Some s ->
    balanced s.
Proof.
  intros Hst k s. unfold _execute_with_fallback.
  destruct (providers o) as [|p0 ps0] eqn:Hps; [apply Hst|].
  pose proof (try_providers_balanced messages params max_retries (p0 :: ps0)
                (provider_stats o) Hst k s) as Hb.
  destruct (try_providers (p0 :: ps0) messages params max_retries (provider_stats o))
    as [r st']. exact Hb.
Qed.

(** X15.  A provider of last resort guarantees an answer: when the
    providers all have their counters, one of them is available and its
    first attempt on the request succeeds (as the chat of a local provider
    always does), [_execute_with_fallback] with at least one attempt allowed
    returns a response, whatever the providers tried before it do. *)
Theorem fallback_provider_guarantees_answer (o : AIOrchestrator) (p : BaseProvider)
    (messages : list Message) (params : GenerationParams) (max_retries : Z) :
  registered o ->
  p ∈ providers o ->
  is_available p = true ->
  (exists r, provider_chat p 0 messages params = Ok r) ->
  1 <= max_retries ->
  exists r o', _execute_with_fallback messages params max_retries o = (Ok r, o').
Proof.
  intros Hreg Hp Hav [r0 Hr0] Hmax. unfold _execute_with_fallback.
  pose proof (try_providers_spec messages params max_retries (providers o)
                (provider_stats o) Hreg) as Hspec.
  destruct (providers o) as [|p0 ps0] eqn:Hps; [inversion Hp|].
  destruct (try_providers (p0 :: ps0) messages params max_retries (provider_stats o))
    as [[r|e] st'].
  - eauto.
  - destruct Hspec as (_ & Hnone & _).
    destruct (Hnone p 0%nat Hp Hav ltac:(lia)) as [e' He']. congruence.
Qed.

End Counters.

Lemma with_A_and_B_balanced (k : string) (s : ProviderStats) :
  provider_stats (Fixtures.with_A_and_B None) !! k = Some s -> balanced s.
Proof.
  change (provider_stats (Fixtures.with_A_and_B None))
    with (<["B" := stats_zero]> (<["A" := stats_zero]> (∅ : gmap string ProviderStats))).
  intros Hk.
  apply lookup_insert_Some in Hk as [[_ <-]|[_ Hk]]; [reflexivity|].
  apply lookup_insert_Some in Hk as [[_ <-]|[_ Hk]]; [reflexivity|].
  rewrite lookup_empty in Hk. discriminate.
Qed.

Lemma register_provider_keeps_counters_witness :
  priorities_known
    (snd (_execute_with_fallback Fixtures.hello
            (GenerationParams_of_model "deepseek-chat") 2 (Fixtures.with_A_and_B None)))
  /\ provider_stats
       (snd (register_provider Fixtures.provider_A 7
               (snd (_execute_with_fallback Fixtures.hello
                       (GenerationParams_of_model "deepseek-chat") 2
                       (Fixtures.with_A_and_B None))))) !! "A"
     = Some {| requests := 2; successes := 0; failures := 2 |}.
Proof.
  assert (Hprio : priorities_known
                    (snd (_execute_with_fallback Fixtures.hello
                            (GenerationParams_of_model "deepseek-chat") 2
                            (Fixtures.with_A_and_B None)))).
  { intros p Hp.
    change (p ∈ [Fixtures.provider_A; Fixtures.provider_B]) in Hp.
    apply elem_of_cons in Hp as [->|Hp]; [eexists; reflexivity|].
    apply elem_of_cons in Hp as [->|Hp]; [eexists; reflexivity|]. inversion Hp. }
  split; [exact Hprio|].
  rewrite (register_provider_keeps_counters Fixtures.provider_A 7 _ "A" Hprio).
  vm_compute. reflexivity.
Defined.

Lemma execute_with_fallback_keeps_balance_witness :
  (forall k s, provider_stats (Fixtures.with_A_and_B None) !! k = Some s -> balanced s)
  /\ balanced {| requests := 2; successes := 0; failures := 2 |}.
Proof.
  split; [exact with_A_and_B_balanced|].
  apply (execute_with_fallback_keeps_balance (Fixtures.with_A_and_B None) Fixtures.hello
           (GenerationParams_of_model "deepseek-chat") 2 with_A_and_B_balanced "A").
  vm_compute. reflexivity.
Defined.

Lemma with_A_and_local_registered : registered Scenarios.with_A_and_local.
Proof.
  intros p Hp.
  change (providers Scenarios.with_A_and_local)
    with [Fixtures.provider_A; LocalProvider "local"] in Hp.
  apply elem_of_cons in Hp as [->|Hp]; [eexists; reflexivity|].
  apply elem_of_cons in Hp as [->|Hp]; [eexists; reflexivity|].
  inversion Hp.
Qed.

Lemma fallback_provider_guarantees_answer_witness :
  LocalProvider "local" ∈ providers Scenarios.with_A_and_local
  /\ 1 <= 1
  /\ exists r o',
      _execute_with_fallback Fixtures.hello (GenerationParams_of_model "deepseek-chat") 1
        Scenarios.with_A_and_local
      = (Ok r, o').
Proof.
  assert (Hin : LocalProvider "local" ∈ providers Scenarios.with_A_and_local)
    by (right; left).
  assert (Hmax : 1 <= 1) by lia.
  split; [exact Hin|]. split; [exact Hmax|].
  exact (fallback_provider_guarantees_answer Scenarios.with_A_and_local
           (LocalProvider "local") Fixtures.hello
           (GenerationParams_of_model "deepseek-chat") 1
           with_A_and_local_registered Hin eq_refl (ex_intro _ _ eq_refl) Hmax).
Defined.

Lemma chat_cache_hit_frame_witness :
  exists o',
    @chat Fixtures.constant_embedder Fixtures.ascii_strops _ _
      "ciao" None true true false 3 120 Scenarios.with_answer_cached
    = (Ok (cached_response "nuova"), o')
    /\ conversation o' = conversation Scenarios.with_answer_cached
    /\ cost_controller o' = cost_controller Scenarios.with_answer_cached
    /\ request_history o' = request_history Scenarios.with_answer_cached
    /\ provider_stats o' = provider_stats Scenarios.with_answer_cached
    /\ providers o' = providers Scenarios.with_answer_cached.
Proof.
  apply (@chat_cache_hit_frame Fixtures.constant_embedder Fixtures.ascii_strops _ _
           "ciao" "nuova" None true false 3 120 Scenarios.with_answer_cached
           (Fixtures.cache_of 1000 [Fixtures.entry "nuova" 100 0])
           (Fixtures.cache_of 1000 [Fixtures.entry "nuova" 100 1])).
  - reflexivity.
  - apply (SemanticCacheFacts.get_cached_response_after_cleanup
             "ciao" "nuova" 120 1000 100 0). reflexivity.
  - discriminate.
Defined.

(** ** Reasoning along the steps of [chat] *)

Section Steps.
Context `{SemanticCache.Embedder} `{StrOps} `{CostControl} `{Tools}.

(** The rule for [bind]: an assertion [I] before, an assertion [I'] on
    the value and the state between the two steps, and [Q] on the outcome,
    which an exception of the first step must establish by itself. *)
Lemma bind_rule {A B : Type} (I : AIOrchestrator -> Prop)
    (I' : A -> AIOrchestrator -> Prop)
    (Q : result B -> AIOrchestrator -> Prop) (m : M A) (k : A -> M B)
    (o : AIOrchestrator) :
  I o ->
  (forall o0, I o0 ->
     match m o0 with
     | (Ok a, o') => I' a o'
     | (Raise e, o') => Q (Raise e) o'
     end) ->
  (forall a o', I' a o' -> Q (fst (k a o')) (snd (k a o'))) ->
  Q (fst (bind m k o)) (snd (bind m k o)).
Proof.
  intros HI Hm Hk. unfold bind. specialize (Hm o HI).
  destruct (m o) as [[a|e] o']; [apply Hk, Hm | exact Hm].
Qed.

Lemma preserves_bind {A B C : Type} (f : AIOrchestrator -> C) (m : M A) (k : A -> M B) :
  preserves f m -> (forall a, preserves f (k a)) -> preserves f (bind m k).
Proof.
  intros Hm Hk o. unfold bind. specialize (Hm o).
  destruct (m o) as [[a|e] o']; cbn [snd] in *; [rewrite Hk|]; exact Hm.
Qed.

Lemma preserves_ret {A C : Type} (f : AIOrchestrator -> C) (a : A) : preserves f (ret a).
Proof. intros o. reflexivity. Qed.

Lemma preserves_get {A C : Type} (f : AIOrchestrator -> C) (g : AIOrchestrator -> A) :
  preserves f (get g).
Proof. intros o. reflexivity. Qed.

Lemma preserves_conversation_add_message {C : Type} (f : AIOrchestrator -> C)
    (r : Role) (text : string) (tok : option Z) (now : Z) :
  (forall c o, f (set_conversation c o) = f o) ->
  preserves f (conversation_add_message r text tok now).
Proof.
  intros Hf o. unfold conversation_add_message.
  destruct (Conversation.add_message r text tok now (conversation o)) as [res c].
  apply Hf.
Qed.

Lemma preserves_conversation_get_messages {C : Type} (f : AIOrchestrator -> C) :
  preserves f conversation_get_messages.
Proof. intros o. reflexivity. Qed.

Lemma preserves_cache_get {C : Type} (f : AIOrchestrator -> C)
    (prompt : string) (now : Z) (sc : SemanticCache.SemanticCache) :
  (forall sc' o, f (set_semantic_cache sc' o) = f o) ->
  preserves f (cache_get prompt now sc).
Proof.
  intros Hf o. unfold cache_get.
  destruct (SemanticCache.get_cached_response prompt now sc) as [res sc'].
  apply Hf.
Qed.

Lemma preserves_cache_put {C : Type} (f : AIOrchestrator -> C)
    (prompt text : string) (now : Z) (sc : SemanticCache.SemanticCache) :
  (forall sc' o, f (set_semantic_cache sc' o) = f o) ->
  preserves f (cache_put prompt text now sc).
Proof. intros Hf o. apply Hf. Qed.

Lemma preserves_cost_check {C : Type} (f : AIOrchestrator -> C)
    (estimated : Z) (mdl : string) (now : Z) :
  (forall cc o, f (set_cost_controller cc o) = f o) ->
  preserves f (cost_check estimated mdl now).
Proof.
  intros Hf o. unfold cost_check.
  destruct (check_budget estimated mdl now (cost_controller o)) as [res cc]. apply Hf.
Qed.

Lemma preserves_cost_record {C : Type} (f : AIOrchestrator -> C)
    (actual : Z) (mdl : string) (now : Z) :
  (forall cc o, f (set_cost_controller cc o) = f o) ->
  preserves f (cost_record actual mdl now).
Proof.
  intros Hf o. unfold cost_record.
  destruct (record_usage actual mdl now (cost_controller o)) as [res cc]. apply Hf.
Qed.

Lemma preserves_execute_with_fallback {C : Type} (f : AIOrchestrator -> C)
    (messages : list Message) (params : GenerationParams) (max_retries : Z) :
  (forall st o, f (set_provider_stats st o) = f o) ->
  preserves f (_execute_with_fallback messages params max_retries).
Proof.
  intros Hf o. unfold _execute_with_fallback.
  destruct (providers o); [reflexivity|].
  destruct (try_providers _ _ _ _ _) as [res st]. apply Hf.
Qed.

(** A response that carries a tool call ends the tool round at the first
    subscript. *)
Lemma run_tools_raises (tc : ToolCall) (tcs : list ToolCall) (tm : ToolsManager) :
  run_tools (tc :: tcs) tm
  = (Raise (TypeError "'ToolCall' object is not subscriptable"), tm).
Proof. reflexivity. Qed.

Lemma preserves_handle_tool_calls {C : Type} (f : AIOrchestrator -> C)
    (tcs : list ToolCall) :
  (forall tm o, f (set_tools_manager tm o) = f o) ->
  preserves f (_handle_tool_calls tcs).
Proof.
  intros Hf o. unfold _handle_tool_calls.
  destruct (tools_manager o) as [tm|]; [|reflexivity].
  destruct (run_tools tcs tm) as [[rs|e] tm']; apply Hf.
Qed.

Lemma preserves_chat_lookup {C : Type} (f : AIOrchestrator -> C)
    (prompt : string) (use_cache : bool) (now : Z) :
  (forall sc' o, f (set_semantic_cache sc' o) = f o) ->
  preserves f (chat_lookup prompt use_cache now).
Proof.
  intros Hf. unfold chat_lookup. apply preserves_bind; [apply preserves_get|].
  intros [sc|]; destruct use_cache;
    first [apply preserves_cache_get, Hf | apply preserves_ret].
Qed.

End Steps.

(** Splits a goal [preserves f m] along the structure of [m]; what is left
    are the steps that may touch [f]. *)
Ltac frame :=
  repeat first
    [ apply preserves_ret
    | apply preserves_get
    | apply preserves_conversation_get_messages
    | apply preserves_bind; [|intros ?]
    | apply preserves_conversation_add_message; intros; reflexivity
    | apply preserves_cache_get; intros; reflexivity
    | apply preserves_cache_put; intros; reflexivity
    | apply preserves_cost_check; intros; reflexivity
    | apply preserves_cost_record; intros; reflexivity
    | apply preserves_execute_with_fallback; intros; reflexivity
    | apply preserves_handle_tool_calls; intros; reflexivity
    | apply preserves_chat_lookup; intros; reflexivity
    | match goal with
      | |- preserves _ (if ?b then _ else _) => destruct b
      | |- preserves _ (match ?x with _ => _ end) => destruct x
      end ].

(** ** What [chat] leaves behind *)

Section ChatOutcome.
Context `{SemanticCache.Embedder} `{StrOps} `{CostControl} `{Tools}.

Lemma keeps_two {A C D : Type} (f : AIOrchestrator -> C) (g : AIOrchestrator -> D)
    (m : M A) (c : C) (d : D) :
  preserves f m -> preserves g m ->
  forall o0, f o0 = c /\ g o0 = d ->
    match m o0 with
    | (Ok _, o') => f o' = c /\ g o' = d
    | (Raise _, o') => f o' = c /\ g o' = d
    end.
Proof.
  intros Hf Hg o0 [Hc Hd]. specialize (Hf o0). specialize (Hg o0).
  destruct (m o0) as [[a|e] o']; cbn [snd] in *; split; congruence.
Qed.

(** Steps 2 to 11: the providers stay, and the request history gets one
    entry, for the response returned and the model chosen at step 3,
    exactly when the steps complete. *)
Lemma chat_uncached_records (prompt : string) (model_ : option string)
    (use_conversation use_cache use_tools : bool) (max_retries now : Z)
    (o : AIOrchestrator) :
  providers (snd (chat_uncached prompt model_ use_conversation use_cache use_tools
                    max_retries now o))
  = providers o
  /\ match fst (chat_uncached prompt model_ use_conversation use_cache use_tools
                 max_retries now o) with
     | Raise _ =>
         request_history (snd (chat_uncached prompt model_ use_conversation use_cache
                                 use_tools max_retries now o))
         = request_history o
     | Ok resp =>
         request_history (snd (chat_uncached prompt model_ use_conversation use_cache
                                 use_tools max_retries now o))
         = request_history o
           ++ [ {| rec_prompt := prompt;
                   rec_model := if truthy_str model_ then default ""%string model_
                                else _smart_route_model prompt;
                   rec_provider := provider resp; rec_tokens := tokens_used resp;
                   rec_cached := cached resp |} ]
     end.
Proof.
  pose (I := fun o' : AIOrchestrator =>
               request_history o' = request_history o /\ providers o' = providers o).
  pose (Q := fun (r : result AIResponse) (o' : AIOrchestrator) =>
               providers o' = providers o
               /\ match r with
                  | Raise _ => request_history o' = request_history o
                  | Ok resp =>
                      request_history o'
                      = request_history o
                        ++ [ {| rec_prompt := prompt;
                                rec_model := if truthy_str model_
                                             then default ""%string model_
                                             else _smart_route_model prompt;
                                rec_provider := provider resp;
                                rec_tokens := tokens_used resp;
                                rec_cached := cached resp |} ]
                  end).
  assert (HQ : forall e o', I o' -> Q (Raise e) o').
  { intros e o' [Hh Hp]. split; assumption. }
  assert (Hkeep : forall (A : Type) (m : M A),
             preserves request_history m -> preserves providers m ->
             forall o0, I o0 ->
               match m o0 with
               | (Ok _, o') => I o'
               | (Raise e, o') => Q (Raise e) o'
               end).
  { intros A m Hh Hp o0 HI.
    pose proof (keeps_two request_history providers m _ _ Hh Hp o0 HI) as Hk.
    destruct (m o0) as [[a|e] o']; [exact Hk | apply HQ, Hk]. }
  assert (HI : I o) by (split; reflexivity).
  change (Q (fst (chat_uncached prompt model_ use_conversation use_cache use_tools
                    max_retries now o))
            (snd (chat_uncached prompt model_ use_conversation use_cache use_tools
                    max_retries now o))).
  unfold chat_uncached.
  apply (bind_rule I (fun _ => I) Q); [exact HI | apply Hkeep; frame |].
  intros messages o1 HI1. cbv zeta.
  apply (bind_rule I (fun _ => I) Q); [exact HI1 | apply Hkeep; frame |].
  intros _ o2 HI2.
  apply (bind_rule I (fun _ => I) Q); [exact HI2 | apply Hkeep; frame |].
  intros tm_ o3 HI3. cbv zeta.
  apply (bind_rule I (fun _ => I) Q); [exact HI3 | apply Hkeep; frame |].
  intros response0 o4 HI4.
  apply (bind_rule I (fun _ => I) Q); [exact HI4 | apply Hkeep; frame |].
  intros response1 o5 HI5.
  apply (bind_rule I (fun _ => I) Q); [exact HI5 | apply Hkeep; frame |].
  intros _ o6 HI6.
  apply (bind_rule I (fun _ => I) Q); [exact HI6 | apply Hkeep; frame |].
  intros sc_ o7 HI7.
  apply (bind_rule I (fun _ => I) Q); [exact HI7 | apply Hkeep; frame |].
  intros _ o8 HI8.
  apply (bind_rule I (fun _ => I) Q); [exact HI8 | apply Hkeep; frame |].
  intros _ o9 HI9.
  apply (bind_rule I (fun hist o' => hist = request_history o /\ I o') Q);
    [exact HI9 | intros o0 HI0; cbn; split; [apply HI0 | exact HI0] |].
  intros hist o10 [-> [Hh Hp]].
  unfold bind, ret. cbn. split; [exact Hp|]. reflexivity.
Qed.

(** X17.  [chat] never touches the provider list, and what it does to the
    request history is decided by the cache lookup of step 1.  When the
    lookup finds a non-empty text, [chat] returns the cached response built
    from it, in the state the lookup left, and the request history is as
    it was: a cache hit is not recorded.  When the lookup finds nothing
    (or an empty text), the request history grows by exactly one entry,
    carrying the prompt, the model chosen and the provider, tokens and
    cached flag of the response returned, if [chat] returns, and is as it
    was if [chat] raises.  When the lookup itself raises, [chat] raises
    the same exception and the request history is as it was.  A request
    that fails leaves no trace in the analytics. *)
Theorem chat_records_completed_requests (prompt : string) (model_ : option string)
    (use_conversation use_cache use_tools : bool) (max_retries now : Z)
    (o : AIOrchestrator) :
  providers (snd (chat prompt model_ use_conversation use_cache use_tools
                    max_retries now o))
  = providers o
  /\ match chat_lookup prompt use_cache now o with
     | (Raise e, o1) =>
         chat prompt model_ use_conversation use_cache use_tools max_retries now o
         = (Raise e, o1)
         /\ request_history o1 = request_history o
     | (Ok found, o1) =>
         if truthy_str found then
           chat prompt model_ use_conversation use_cache use_tools max_retries now o
           = (Ok (cached_response (default ""%string found)), o1)
           /\ request_history o1 = request_history o
         else
           match fst (chat prompt model_ use_conversation use_cache use_tools
                        max_retries now o) with
           | Raise _ =>
               request_history (snd (chat prompt model_ use_conversation use_cache
                                       use_tools max_retries now o))
               = request_history o
           | Ok resp =>
               request_history (snd (chat prompt model_ use_conversation use_cache
                                       use_tools max_retries now o))
               = request_history o
                 ++ [ {| rec_prompt := prompt;
                         rec_model := if truthy_str model_
                                      then default ""%string model_
                                      else _smart_route_model prompt;
                         rec_provider := provider resp;
                         rec_tokens := tokens_used resp;
                         rec_cached := cached resp |} ]
           end
     end.
Proof.
  unfold chat, bind.
  pose proof (preserves_chat_lookup request_history prompt use_cache now
                (fun _ _ => eq_refl) o) as Hh.
  pose proof (preserves_chat_lookup providers prompt use_cache now
                (fun _ _ => eq_refl) o) as Hp.
  destruct (chat_lookup prompt use_cache now o) as [[found|e] o1]; cbn [snd] in Hh, Hp.
  - destruct (truthy_str found).
    + cbn. split; [exact Hp|]. split; [reflexivity | exact Hh].
    + pose proof (chat_uncached_records prompt model_ use_conversation use_cache
                    use_tools max_retries now o1) as [Hps Hrec].
      rewrite Hp in Hps. rewrite Hh in Hrec. split; [exact Hps|]. exact Hrec.
  - cbn. split; [exact Hp|]. split; [reflexivity | exact Hh].
Qed.

End ChatOutcome.

Section ChatFrames.
Context `{SemanticCache.Embedder} `{StrOps} `{CostControl} `{Tools}.

(** A response the failover returns is the answer of one of the providers
    of the list. *)
Lemma attempts_answer_source (p : BaseProvider) (messages : list Message)
    (params : GenerationParams) (max_retries : Z) :
  forall (remaining attempt : nat) (stats stats' : ProviderStats) (r : AIResponse),
    attempts p messages params max_retries remaining attempt stats = (Some r, stats') ->
    exists i, provider_chat p i messages params = Ok r.
Proof.
  induction remaining as [|remaining IH]; intros attempt stats stats' r Hr;
    [discriminate|].
  cbn [attempts] in Hr.
  destruct (provider_chat p attempt messages params) as [r'|e] eqn:Hchat.
  - injection Hr as <- _. eauto.
  - destruct (Z.of_nat attempt <? max_retries - 1); [eapply IH, Hr | discriminate].
Qed.

Lemma try_providers_answer_source (messages : list Message) (params : GenerationParams)
    (max_retries : Z) (ps : list BaseProvider) :
  forall (st st' : gmap string ProviderStats) (r : AIResponse),
    try_providers ps messages params max_retries st = (Ok r, st') ->
    exists p i, p ∈ ps /\ provider_chat p i messages params = Ok r.
Proof.
  induction ps as [|p ps IH]; intros st st' r Hr; [discriminate|].
  cbn [try_providers] in Hr.
  destruct (negb (is_available p)).
  { destruct (IH _ _ _ Hr) as (q & i & Hq & Hi). exists q, i. split; [right|]; assumption. }
  destruct (st !! name p) as [stats|]; [|discriminate].
  destruct (attempts p messages params max_retries (Z.to_nat max_retries) 0 stats)
    as [[resp|] stats'] eqn:Hatt.
  - injection Hr as <- _. destruct (attempts_answer_source _ _ _ _ _ _ _ _ _ Hatt) as [i Hi].
    exists p, i. split; [left | exact Hi].
  - destruct (IH _ _ _ Hr) as (q & i & Hq & Hi). exists q, i. split; [right|]; assumption.
Qed.

Lemma execute_with_fallback_answer_source (messages : list Message)
    (params : GenerationParams) (max_retries : Z) (o o' : AIOrchestrator)
    (r : AIResponse) :
  _execute_with_fallback messages params max_retries o = (Ok r, o') ->
  exists p i, p ∈ providers o /\ provider_chat p i messages params = Ok r.
Proof.
  unfold _execute_with_fallback. destruct (providers o) as [|p0 ps0]; [discriminate|].
  destruct (try_providers (p0 :: ps0) messages params max_retries (provider_stats o))
    as [res st'] eqn:Htry.
  intros [= -> _]. eapply try_providers_answer_source, Htry.
Qed.

(** X18.  With [use_conversation=False], as the helpers of [utils.py] call
    it, [chat] leaves the conversation window exactly as it was, provided
    no provider answers with tool calls: neither the prompt nor the answer
    is appended. *)
Theorem chat_without_conversation (prompt : string) (model_ : option string)
    (use_cache use_tools : bool) (max_retries now : Z) (o : AIOrchestrator) :
  (forall p i messages params r,
      p ∈ providers o -> provider_chat p i messages params = Ok r ->
      truthy_list (tool_calls r) = false) ->
  conversation (snd (chat prompt model_ false use_cache use_tools max_retries now o))
  = conversation o.
Proof.
  intros Hplain.
  pose (I := fun o' : AIOrchestrator =>
               conversation o' = conversation o /\ providers o' = providers o).
  pose (Q := fun (_ : result AIResponse) (o' : AIOrchestrator) =>
               conversation o' = conversation o).
  assert (Hkeep : forall (A : Type) (m : M A),
             preserves conversation m -> preserves providers m ->
             forall o0, I o0 ->
               match m o0 with
               | (Ok _, o') => I o'
               | (Raise e, o') => Q (Raise e) o'
               end).
  { intros A m Hc Hp o0 HI.
    pose proof (keeps_two conversation providers m _ _ Hc Hp o0 HI) as Hk.
    destruct (m o0) as [[a|e] o']; [exact Hk | apply Hk]. }
  assert (HI : I o) by (split; reflexivity).
  change (Q (fst (chat prompt model_ false use_cache use_tools max_retries now o))
            (snd (chat prompt model_ false use_cache use_tools max_retries now o))).
  unfold chat.
  apply (bind_rule I (fun _ => I) Q); [exact HI | apply Hkeep; frame |].
  intros found o0 HI0.
  destruct (truthy_str found); [apply HI0|].
  unfold chat_uncached.
  apply (bind_rule I (fun _ => I) Q); [exact HI0 | apply Hkeep; frame |].
  intros messages o1 HI1. cbv zeta.
  apply (bind_rule I (fun _ => I) Q); [exact HI1 | apply Hkeep; frame |].
  intros _ o2 HI2.
  apply (bind_rule I (fun _ => I) Q); [exact HI2 | apply Hkeep; frame |].
  intros tm_ o3 HI3. cbv zeta.
  apply (bind_rule I (fun r o' => I o' /\ truthy_list (tool_calls r) = false) Q);
    [exact HI3 | |].
  { intros o4 HI4.
    pose proof (Hkeep _ (_execute_with_fallback messages
                           match use_tools, tm_ with
                           | true, Some tm =>
                               {| model := if truthy_str model_
                                           then default ""%string model_
                                           else _smart_route_model prompt;
                                  max_tokens := 1000; stream := false;
                                  temperature := 0x1.6666666666666p-1%float;
                                  tools := Some (get_tool_definitions tm) |}
                           | _, _ =>
                               GenerationParams_of_model
                                 (if truthy_str model_ then default ""%string model_
                                  else _smart_route_model prompt)
                           end max_retries)
                  ltac:(frame) ltac:(frame) o4 HI4) as Hk.
    destruct (_execute_with_fallback messages _ max_retries o4) as [[r|e] o5] eqn:Hexec;
      [|exact Hk].
    split; [exact Hk|].
    destruct (execute_with_fallback_answer_source _ _ _ _ _ _ Hexec) as (p & i & Hp & Hi).
    destruct HI4 as [_ Hps]. rewrite Hps in Hp. exact (Hplain p i _ _ r Hp Hi). }
  intros response0 o5 [HI5 Hno]. rewrite Hno. cbn [andb].
  apply (bind_rule I (fun _ => I) Q); [exact HI5 | apply Hkeep; frame |].
  intros response1 o6 HI6.
  apply (bind_rule I (fun _ => I) Q); [exact HI6 | apply Hkeep; frame |].
  intros _ o7 HI7.
  apply (bind_rule I (fun _ => I) Q); [exact HI7 | apply Hkeep; frame |].
  intros sc_ o8 HI8.
  apply (bind_rule I (fun _ => I) Q); [exact HI8 | apply Hkeep; frame |].
  intros _ o9 HI9.
  apply (bind_rule I (fun _ => I) Q); [exact HI9 | apply Hkeep; frame |].
  intros _ o10 HI10.
  apply (bind_rule I (fun _ => I) Q); [exact HI10 | apply Hkeep; frame |].
  intros hist o11 HI11.
  unfold bind, ret. cbn. apply HI11.
Qed.

(** X19.  When, after a cache miss, the budget check refuses the request,
    [chat] raises the exception of the check and calls no backend: the
    provider counters and the request history are as the lookup left them.
    The prompt, appended before the check, stays in the conversation
    window. *)
Theorem chat_budget_refusal (prompt : string) (model_ : option string)
    (use_cache use_tools : bool) (max_retries now : Z) (o o1 : AIOrchestrator)
    (found : option string) (e : Exception) (cc' : CostController) :
  chat_lookup prompt use_cache now o = (Ok found, o1) ->
  truthy_str found = false ->
  0 <= max_messages (Conversation.config (conversation o1)) ->
  check_budget (len (split prompt) * 2)
    (if truthy_str model_ then default ""%string model_ else _smart_route_model prompt)
    now (cost_controller o1)
  = (Raise e, cc') ->
  exists o',
    chat prompt model_ true use_cache use_tools max_retries now o = (Raise e, o')
    /\ conversation o'
       = snd (Conversation.add_message user prompt None now (conversation o1))
    /\ provider_stats o' = provider_stats o1
    /\ request_history o' = request_history o1
    /\ cost_controller o' = cc'.
Proof.
  intros Hlookup Hfound Hmax Hbudget.
  unfold chat, bind. rewrite Hlookup, Hfound.
  unfold chat_uncached, bind, conversation_add_message, conversation_get_messages,
    cost_check.
  pose proof (ConversationFacts.add_message_total user prompt None now (conversation o1)
                Hmax) as Hadd.
  destruct (Conversation.add_message user prompt None now (conversation o1))
    as [res c1]. cbn [fst] in Hadd. subst res.
  cbn [cost_controller set_conversation]. rewrite Hbudget.
  eexists. split; [reflexivity|]. repeat split.
Qed.

Lemma set_semantic_cache_same (o : AIOrchestrator)
    (sc : option SemanticCache.SemanticCache) :
  semantic_cache o = sc -> set_semantic_cache sc o = o.
Proof. intros <-. destruct o. reflexivity. Qed.

Lemma bind_ext_inv {A B : Type} (J : AIOrchestrator -> Prop) (m : M A)
    (k1 k2 : A -> M B) (o : AIOrchestrator) :
  J o ->
  (forall o0, J o0 -> J (snd (m o0))) ->
  (forall a o', J o' -> k1 a o' = k2 a o') ->
  bind m k1 o = bind m k2 o.
Proof.
  intros HJ Hm Hk. unfold bind. specialize (Hm o HJ).
  destruct (m o) as [[a|e] o']; [apply Hk, Hm | reflexivity].
Qed.

(** X20.  A cache without embedding model is as good as no cache: with
    such a cache, [chat] with [use_cache=True] returns the same outcome and
    leaves the same orchestrator as [chat] with [use_cache=False]; nothing
    is looked up and nothing is stored. *)
Theorem chat_with_degraded_cache (prompt : string) (model_ : option string)
    (use_conversation use_tools : bool) (max_retries now : Z) (o : AIOrchestrator)
    (sc : SemanticCache.SemanticCache) :
  semantic_cache o = Some sc ->
  SemanticCache._embeddings_available sc = false ->
  chat prompt model_ use_conversation true use_tools max_retries now o
  = chat prompt model_ use_conversation false use_tools max_retries now o.
Proof.
  intros Hsc Hdeg.
  pose (J := fun o' : AIOrchestrator => semantic_cache o' = Some sc).
  assert (Hstep : forall (A : Type) (m : M A),
             preserves semantic_cache m -> forall o0, J o0 -> J (snd (m o0))).
  { intros A m Hm o0 HJ. unfold J. rewrite Hm. exact HJ. }
  assert (Hl1 : chat_lookup prompt true now o = (Ok None, o)).
  { unfold chat_lookup, bind, get, cache_get. rewrite Hsc.
    unfold SemanticCache.get_cached_response. rewrite Hdeg. cbn [negb].
    rewrite (set_semantic_cache_same o (Some sc) Hsc). reflexivity. }
  assert (Hl2 : chat_lookup prompt false now o = (Ok None, o)).
  { unfold chat_lookup, bind, get. destruct (semantic_cache o); reflexivity. }
  unfold chat, bind. rewrite Hl1, Hl2. cbn [truthy_str].
  unfold chat_uncached.
  apply (bind_ext_inv J); [exact Hsc | apply Hstep; frame |].
  intros messages o1 HJ1. cbv zeta.
  apply (bind_ext_inv J); [exact HJ1 | apply Hstep; frame |].
  intros _ o2 HJ2.
  apply (bind_ext_inv J); [exact HJ2 | apply Hstep; frame |].
  intros tm_ o3 HJ3. cbv zeta.
  apply (bind_ext_inv J); [exact HJ3 | apply Hstep; frame |].
  intros response0 o4 HJ4.
  apply (bind_ext_inv J); [exact HJ4 | apply Hstep; frame |].
  intros response1 o5 HJ5.
  apply (bind_ext_inv J); [exact HJ5 | apply Hstep; frame |].
  intros _ o6 HJ6.
  unfold bind at 1 3. unfold get at 1 2. rewrite HJ6.
  unfold bind at 1 3. cbn [ret].
  destruct (cached response1); [reflexivity|].
  unfold cache_put, SemanticCache.cache_response. rewrite Hdeg. cbn [negb].
  rewrite (set_semantic_cache_same o6 (Some sc) HJ6). reflexivity.
Qed.

End ChatFrames.

Lemma with_A_and_B_plain_answers (sc : option SemanticCache.SemanticCache)
    (p : BaseProvider) (i : nat) (messages : list Message) (params : GenerationParams)
    (r : AIResponse) :
  p ∈ providers (Fixtures.with_A_and_B sc) ->
  provider_chat p i messages params = Ok r ->
  truthy_list (tool_calls r) = false.
Proof.
  rewrite with_A_and_B_providers. intros Hp Hr.
  apply elem_of_cons in Hp as [->|Hp]; [discriminate Hr|].
  apply elem_of_cons in Hp as [->|Hp]; [|inversion Hp].
  injection Hr as <-. reflexivity.
Qed.

Lemma chat_without_conversation_witness :
  conversation
    (snd (@chat Fixtures.constant_embedder Fixtures.ascii_strops _ _
            "Genera una pagina" (Some "deepseek-chat"%string) false true false 3 120
            (Fixtures.with_A_and_B None)))
  = conversation (Fixtures.with_A_and_B None).
Proof.
  exact (@chat_without_conversation Fixtures.constant_embedder Fixtures.ascii_strops _ _
           "Genera una pagina" (Some "deepseek-chat"%string) true false 3 120
           (Fixtures.with_A_and_B None) (with_A_and_B_plain_answers None)).
Defined.

Lemma chat_budget_refusal_witness :
  exists o',
    @chat Fixtures.constant_embedder Fixtures.ascii_strops Scenarios.capped_cost_control
      Fixtures.no_tools "ciao mondo" None true false false 3 120 Scenarios.over_budget
    = (Raise (BudgetExceededException "Budget orario superato"), o')
    /\ conversation o'
       = snd (Conversation.add_message user "ciao mondo" None 120
                (conversation Scenarios.over_budget))
    /\ provider_stats o' = provider_stats Scenarios.over_budget
    /\ request_history o' = request_history Scenarios.over_budget
    /\ cost_controller o' = (100 : Z).
Proof.
  apply (@chat_budget_refusal Fixtures.constant_embedder Fixtures.ascii_strops
           Scenarios.capped_cost_control Fixtures.no_tools
           "ciao mondo" None false false 3 120 Scenarios.over_budget Scenarios.over_budget
           None).
  - reflexivity.
  - reflexivity.
  - vm_compute. discriminate.
  - reflexivity.
Defined.

Lemma chat_with_degraded_cache_witness :
  @chat Fixtures.constant_embedder Fixtures.ascii_strops _ _
    "ciao" None true true false 3 120 Scenarios.with_degraded_cache
  = @chat Fixtures.constant_embedder Fixtures.ascii_strops _ _
      "ciao" None true false false 3 120 Scenarios.with_degraded_cache.
Proof.
  exact (@chat_with_degraded_cache Fixtures.constant_embedder Fixtures.ascii_strops _ _
           "ciao" None true false 3 120 Scenarios.with_degraded_cache
           Scenarios.degraded_cache eq_refl eq_refl).
Defined.

(** ** Streaming *)

Section StreamFacts.
Context `{StrOps} `{CostControl} `{Tools} `{Streaming}.

(** When every available provider of the list fails in mid-stream, the
    loop yields the fragments of all of them, ends with
    [AllProvidersFailedException] and leaves the orchestrator as it was. *)
Lemma stream_providers_all_fail (ps : list BaseProvider) (single : list Message)
    (params : GenerationParams) (use_conversation : bool) (now : Z)
    (o : AIOrchestrator) :
  (forall p, p ∈ ps -> is_available p = true -> stream_fails p) ->
  stream_providers ps single params use_conversation now o
  = ((fragments_of ps
        (if use_conversation then Conversation.get_messages None (conversation o)
         else single) params,
      Raise (AllProvidersFailedException "Tutti i provider hanno fallito")), o).
Proof.
  induction ps as [|p ps IH]; intros Hfail; [reflexivity|].
  cbn [stream_providers fragments_of flat_map].
  destruct (is_available p) eqn:Hav; cbn [negb].
  - destruct (Hfail p ltac:(left) Hav
                (if use_conversation then Conversation.get_messages None (conversation o)
                 else single) params) as [e He].
    destruct (provider_stream p _ params) as [chunks ending]. cbn [fst snd] in *.
    subst ending. rewrite IH by (intros q Hq; apply Hfail; right; exact Hq).
    reflexivity.
  - rewrite IH by (intros q Hq; apply Hfail; right; exact Hq). reflexivity.
Qed.

(** When the first available provider whose stream does not fail ends
    normally, the loop yields the fragments of the providers that failed
    before it, then its own, and commits the text it streamed. *)
Lemma stream_providers_first_complete (pre post : list BaseProvider) (p : BaseProvider)
    (single : list Message) (params : GenerationParams) (use_conversation : bool)
    (now : Z) (o : AIOrchestrator) :
  (forall q, q ∈ pre -> is_available q = true -> stream_fails q) ->
  is_available p = true ->
  stream_completes p ->
  use_conversation = false \/ 0 <= max_messages (Conversation.config (conversation o)) ->
  let messages := if use_conversation
                  then Conversation.get_messages None (conversation o) else single in
  stream_providers (pre ++ p :: post) single params use_conversation now o
  = ((fragments_of pre messages params ++ fst (provider_stream p messages params), Ok tt),
     if use_conversation
     then set_conversation
            (snd (Conversation.add_message assistant
                    (join (fst (provider_stream p messages params))) None now
                    (conversation o))) o
     else o).
Proof.
  intros Hfail Hav Hdone Hroom messages.
  induction pre as [|q pre IH].
  - cbn [app stream_providers fragments_of flat_map]. rewrite Hav. cbn [negb].
    fold messages. specialize (Hdone messages params).
    destruct (provider_stream p messages params) as [chunks ending].
    cbn [fst snd] in *. subst ending.
    destruct use_conversation; [|reflexivity].
    destruct Hroom as [Hno|Hroom]; [discriminate|].
    unfold conversation_add_message.
    pose proof (ConversationFacts.add_message_total assistant (join chunks) None now
                  (conversation o) Hroom) as Hadd.
    destruct (Conversation.add_message assistant (join chunks) None now (conversation o))
      as [res c]. cbn [fst] in Hadd. subst res. reflexivity.
  - cbn [app stream_providers fragments_of flat_map].
    assert (IH' := IH (fun x Hx => Hfail x ltac:(right; exact Hx))).
    destruct (is_available q) eqn:Hq; cbn [negb].
    + fold messages. destruct (Hfail q ltac:(left) Hq messages params) as [e He].
      destruct (provider_stream q messages params) as [chunks ending].
      cbn [fst snd] in *. subst ending. rewrite IH'.
      unfold fragments_of. rewrite <- app_assoc. reflexivity.
    + rewrite IH'. reflexivity.
Qed.

(** X21.  When the stream of every available provider fails, and in
    particular when no provider is registered or available, [chat_stream]
    ends with [AllProvidersFailedException] (never with the [ValueError] of
    the non-streaming call), after yielding the fragments the providers
    produced before failing.  The provider counters are not touched, and
    the prompt stays in the conversation window. *)
Theorem chat_stream_all_fail (prompt : string) (model_ : option string)
    (use_conversation : bool) (now : Z) (o : AIOrchestrator) :
  use_conversation = false \/ 0 <= max_messages (Conversation.config (conversation o)) ->
  (forall p, p ∈ providers o -> is_available p = true -> stream_fails p) ->
  exists messages params o',
    chat_stream prompt model_ use_conversation now o
    = ((fragments_of (providers o) messages params,
        Raise (AllProvidersFailedException "Tutti i provider hanno fallito")), o')
    /\ provider_stats o' = provider_stats o
    /\ conversation o'
       = (if use_conversation
          then snd (Conversation.add_message user prompt None now (conversation o))
          else conversation o).
Proof.
  intros Hroom Hfail. unfold chat_stream.
  destruct use_conversation.
  - destruct Hroom as [Hno|Hroom]; [discriminate|].
    unfold conversation_add_message.
    pose proof (ConversationFacts.add_message_total user prompt None now (conversation o)
                  Hroom) as Hadd.
    destruct (Conversation.add_message user prompt None now (conversation o))
      as [res c]. cbn [fst] in Hadd. subst res.
    rewrite stream_providers_all_fail by exact Hfail.
    eexists _, _, _. split; [reflexivity|]. split; reflexivity.
  - rewrite stream_providers_all_fail by exact Hfail.
    eexists _, _, _. split; [reflexivity|]. split; reflexivity.
Qed.

(** X22.  When the providers before [p] that are available all fail in
    mid-stream and the stream of [p], available, ends normally,
    [chat_stream] yields every fragment the failed providers produced, in
    the order of the list, followed by the fragments of [p], and ends
    normally; the answer committed to the conversation window is the text
    of [p] alone. *)
Theorem chat_stream_delivers_before_switching (prompt : string) (model_ : option string)
    (use_conversation : bool) (now : Z) (o : AIOrchestrator)
    (pre post : list BaseProvider) (p : BaseProvider) :
  use_conversation = false \/ 0 <= max_messages (Conversation.config (conversation o)) ->
  providers o = pre ++ p :: post ->
  (forall q, q ∈ pre -> is_available q = true -> stream_fails q) ->
  is_available p = true ->
  stream_completes p ->
  exists messages params o',
    chat_stream prompt model_ use_conversation now o
    = ((fragments_of pre messages params ++ fst (provider_stream p messages params),
        Ok tt), o')
    /\ provider_stats o' = provider_stats o
    /\ conversation o'
       = (if use_conversation
          then snd (Conversation.add_message assistant
                      (join (fst (provider_stream p messages params))) None now
                      (snd (Conversation.add_message user prompt None now
                              (conversation o))))
          else conversation o).
Proof.
  intros Hroom Hps Hfail Hav Hdone. unfold chat_stream.
  destruct use_conversation.
  - destruct Hroom as [Hno|Hroom]; [discriminate|].
    unfold conversation_add_message.
    pose proof (ConversationFacts.add_message_total user prompt None now (conversation o)
                  Hroom) as Hadd.
    pose proof (ConversationFacts.add_message_spec user prompt None now (conversation o))
      as Hspec.
    destruct (Conversation.add_message user prompt None now (conversation o))
      as [res c]. cbn [fst] in Hadd. subst res. destruct Hspec as (Hcfg & _).
    cbn [providers set_conversation]. rewrite Hps.
    rewrite (stream_providers_first_complete pre post p _ _ true now _ Hfail Hav Hdone)
      by (right; cbn [conversation set_conversation]; rewrite Hcfg; exact Hroom).
    eexists _, _, _. split; [reflexivity|]. split; reflexivity.
  - rewrite Hps.
    rewrite (stream_providers_first_complete pre post p _ _ false now _ Hfail Hav Hdone)
      by (left; reflexivity).
    eexists _, _, _. split; [reflexivity|]. split; reflexivity.
Qed.

End StreamFacts.

(** The scenario of the specification: A yields two fragments and fails,
    B streams ["ok"]; the caller has received the three fragments, and the
    window holds the prompt and the answer of B. *)
Lemma chat_stream_scenario :
  @chat_stream Fixtures.ascii_strops _ _ Scenarios.two_fragments_then_failure
    "ciao" None true 120 (Fixtures.with_A_and_B None)
  = ((["Buon"; "giorno"; "ok"]%string, Ok tt),
     set_conversation
       {| Conversation.config := ConversationConfig_default;
          Conversation.history :=
            [ {| role := user; content := "ciao"; timestamp := 120; tokens := None |};
              {| role := assistant; content := "ok"; timestamp := 120; tokens := None |} ];
          Conversation.total_tokens := 0 |}
       (Fixtures.with_A_and_B None)).
Proof. vm_compute. reflexivity. Qed.

Lemma chat_stream_all_fail_witness :
  exists messages params o',
    @chat_stream Fixtures.ascii_strops _ _ Scenarios.two_fragments_then_failure
      "ciao" None true 120 (Fixtures.fresh None)
    = ((@fragments_of Scenarios.two_fragments_then_failure
          (providers (Fixtures.fresh None)) messages params,
        Raise (AllProvidersFailedException "Tutti i provider hanno fallito")), o')
    /\ provider_stats o' = provider_stats (Fixtures.fresh None)
    /\ conversation o'
       = snd (Conversation.add_message user "ciao" None 120
                (conversation (Fixtures.fresh None))).
Proof.
  apply (@chat_stream_all_fail Fixtures.ascii_strops _ _ Scenarios.two_fragments_then_failure
           "ciao" None true 120 (Fixtures.fresh None)).
  - right. vm_compute. discriminate.
  - intros p Hp. inversion Hp.
Defined.

Lemma chat_stream_delivers_before_switching_witness :
  exists messages params o',
    @chat_stream Fixtures.ascii_strops _ _ Scenarios.two_fragments_then_failure
      "ciao" None true 120 (Fixtures.with_A_and_B None)
    = ((@fragments_of Scenarios.two_fragments_then_failure [Fixtures.provider_A]
          messages params
        ++ fst (@provider_stream Scenarios.two_fragments_then_failure Fixtures.provider_B
                  messages params),
        Ok tt), o')
    /\ provider_stats o' = provider_stats (Fixtures.with_A_and_B None)
    /\ conversation o'
       = snd (Conversation.add_message assistant
                (join (fst (@provider_stream Scenarios.two_fragments_then_failure
                              Fixtures.provider_B messages params))) None 120
                (snd (Conversation.add_message user "ciao" None 120
                        (conversation (Fixtures.with_A_and_B None))))).
Proof.
  apply (@chat_stream_delivers_before_switching Fixtures.ascii_strops _ _
           Scenarios.two_fragments_then_failure "ciao" None true 120
           (Fixtures.with_A_and_B None) [Fixtures.provider_A] [] Fixtures.provider_B).
  - right. vm_compute. discriminate.
  - reflexivity.
  - intros q Hq _ messages params. apply list_elem_of_singleton in Hq as ->.
    eexists. reflexivity.
  - reflexivity.
  - intros messages params. reflexivity.
Defined.

End CoreFacts.
